(** * The patterns repository: validation, reviewer routing, change detection

    A shallow embedding of the three scripts that check a pattern submission:

    - [validate-pattern.js]   (class [PatternValidator]),
    - [notify-reviewers.js]   (class [ReviewerNotifier]),
    - [detect-changed-patterns.sh],

    and of the queue handler of the pattern [lambda-sqs-processing].

    JavaScript strings are modelled by [string]: a sequence of code units
    that each fit in eight bits.  Methods that mutate [this] are functions in
    a state monad over a record of the object's fields; a JavaScript
    exception is a completion of its own. *)

From Stdlib Require Import String Ascii List Bool Arith Lia DecimalString.
From Stdlib Require Import Sorting.Sorted OrderedTypeEx.
Import ListNotations.

Local Open Scope list_scope.
Local Open Scope string_scope.

(** ** JavaScript primitives used by the scripts *)

Module JS.

(** The double quote character, for message templates. *)
Definition dquote : string := String (ascii_of_nat 34) EmptyString.

(** Truthiness of a string value: only the empty string is falsy. *)
Definition truthy (s : string) : bool :=
  match s with EmptyString => false | String _ _ => true end.

(** Truthiness of a possibly absent (undefined or null) string property. *)
Definition truthy_opt (o : option string) : bool :=
  match o with None => false | Some s => truthy s end.

(** [String.prototype.toLowerCase] on one 8-bit code unit: the ASCII capitals
    and the Latin-1 capitals (0xC0-0xDE but for the multiplication sign). *)
Definition lower_unit (c : ascii) : ascii :=
  let n := nat_of_ascii c in
  if (((65 <=? n) && (n <=? 90)) ||
      ((192 <=? n) && (n <=? 222) && negb (n =? 215)))%nat
  then ascii_of_nat (n + 32) else c.

Fixpoint toLowerCase (s : string) : string :=
  match s with
  | EmptyString => EmptyString
  | String c t => String (lower_unit c) (toLowerCase t)
  end.

(** [hay.includes(needle)] *)
Fixpoint includes (hay needle : string) : bool :=
  prefix needle hay ||
  match hay with
  | EmptyString => false
  | String _ t => includes t needle
  end.

(** [xs.join(sep)] *)
Definition join (sep : string) (xs : list string) : string := String.concat sep xs.

Fixpoint has_slash (s : string) : bool :=
  match s with
  | EmptyString => false
  | String c t => (c =? "/")%char || has_slash t
  end.

Fixpoint strip_trailing_slashes (s : string) : string :=
  match s with
  | EmptyString => EmptyString
  | String c t =>
      let t' := strip_trailing_slashes t in
      if (c =? "/")%char && negb (truthy t') then EmptyString else String c t'
  end.

Fixpoint after_last_slash (s : string) : string :=
  match s with
  | EmptyString => EmptyString
  | String c t =>
      if has_slash t then after_last_slash t
      else if (c =? "/")%char then t else s
  end.

(** [path.basename(p)] of the POSIX [path] module: trailing slashes are
    dropped, then everything up to the last slash. *)
Definition basename (p : string) : string :=
  after_last_slash (strip_trailing_slashes p).

End JS.

(** ** Regular expressions

    The fragment of JavaScript's regular expressions that the validator's
    pattern uses, matched by derivatives.  [test] is [RegExp.prototype.test]
    for a pattern written between [^] and [$] (no flags): the whole input has
    to match. *)

Module RegExp.

Inductive regex : Type :=
| Never
| Eps
| Chr (c : ascii)
| Range (lo hi : ascii)
| Alt (r1 r2 : regex)
| Seq (r1 r2 : regex)
| Star (r : regex).

(** [r+] *)
Definition Plus (r : regex) : regex := Seq r (Star r).

Definition in_range (lo hi c : ascii) : bool :=
  ((lo <=? c) && (c <=? hi))%char.

Fixpoint nullable (r : regex) : bool :=
  match r with
  | Never => false
  | Eps => true
  | Chr _ => false
  | Range _ _ => false
  | Alt r1 r2 => nullable r1 || nullable r2
  | Seq r1 r2 => nullable r1 && nullable r2
  | Star _ => true
  end.

Fixpoint deriv (c : ascii) (r : regex) : regex :=
  match r with
  | Never => Never
  | Eps => Never
  | Chr d => if (c =? d)%char then Eps else Never
  | Range lo hi => if in_range lo hi c then Eps else Never
  | Alt r1 r2 => Alt (deriv c r1) (deriv c r2)
  | Seq r1 r2 =>
      if nullable r1 then Alt (Seq (deriv c r1) r2) (deriv c r2)
      else Seq (deriv c r1) r2
  | Star r1 => Seq (deriv c r1) (Star r1)
  end.

Fixpoint test (r : regex) (s : string) : bool :=
  match s with
  | EmptyString => nullable r
  | String c t => test (deriv c r) t
  end.

(** The language of a regular expression. *)
Inductive Matches : regex -> string -> Prop :=
| MEps : Matches Eps EmptyString
| MChr c : Matches (Chr c) (String c EmptyString)
| MRange lo hi c :
    in_range lo hi c = true -> Matches (Range lo hi) (String c EmptyString)
| MAltL r1 r2 s : Matches r1 s -> Matches (Alt r1 r2) s
| MAltR r1 r2 s : Matches r2 s -> Matches (Alt r1 r2) s
| MSeq r1 r2 s1 s2 :
    Matches r1 s1 -> Matches r2 s2 -> Matches (Seq r1 r2) (s1 ++ s2)
| MStarNil r : Matches (Star r) EmptyString
| MStarApp r s1 s2 :
    Matches r s1 -> Matches (Star r) s2 -> Matches (Star r) (s1 ++ s2).

(** [/^[a-z0-9]+(?:-[a-z0-9]+)*$/] *)
Definition lower_or_digit : regex := Alt (Range "a" "z") (Range "0" "9").

(** [-[a-z0-9]+] *)
Definition hyphen_segment : regex := Seq (Chr "-") (Plus lower_or_digit).

Definition kebabCaseRegex : regex :=
  Seq (Plus lower_or_digit) (Star hyphen_segment).

End RegExp.

(** ** What kebab case means, in words

    A name is in kebab case when it is one or more non-empty runs of lower
    case letters and digits, joined by single hyphens. *)

Definition is_lower_or_digit (c : ascii) : bool :=
  let n := nat_of_ascii c in
  (((97 <=? n) && (n <=? 122)) || ((48 <=? n) && (n <=? 57)))%nat.

Fixpoint all_units (p : ascii -> bool) (s : string) : bool :=
  match s with
  | EmptyString => true
  | String c t => p c && all_units p t
  end.

Definition kebab_segment (s : string) : Prop :=
  s <> EmptyString /\ all_units is_lower_or_digit s = true.

(** The segments after the first, each behind its hyphen. *)
Fixpoint hyphenated (segs : list string) : string :=
  match segs with
  | [] => EmptyString
  | seg :: rest => "-" ++ seg ++ hyphenated rest
  end.

Definition kebab_case (s : string) : Prop :=
  exists seg segs,
    Forall kebab_segment (seg :: segs) /\ s = String.concat "-" (seg :: segs).

(** ** Methods of a mutable object

    A method of an object whose fields are the record [S] is a function from
    the fields before the call to how the call ends and the fields after it. *)

Module Effects.

(** How a call ends: with a value, or with an exception and its message. *)
Inductive Completion (A : Type) : Type :=
| Normal (a : A)
| Throws (msg : string).
Arguments Normal {A} a.
Arguments Throws {A} msg.

Definition Method (S A : Type) : Type := S -> Completion A * S.

Definition ret {S A} (a : A) : Method S A := fun v => (Normal a, v).

Definition throw {S A} (msg : string) : Method S A := fun v => (Throws msg, v).

Definition bind {S A B} (m : Method S A) (k : A -> Method S B) : Method S B :=
  fun v =>
    match m v with
    | (Normal a, v') => k a v'
    | (Throws msg, v') => (Throws msg, v')
    end.

(** Reading and replacing the fields of [this]. *)
Definition get {S} : Method S S := fun v => (Normal v, v).
Definition put {S} (v' : S) : Method S unit := fun _ => (Normal tt, v').

Declare Scope method_scope.
Delimit Scope method_scope with method.
Notation "x <- m ;; k" := (bind m (fun x => k))
  (at level 61, m at next level, right associativity) : method_scope.
Notation "m ;; k" := (bind m (fun _ => k))
  (at level 61, right associativity) : method_scope.

(** A [for ... of] loop whose body may update one local variable. *)
Fixpoint for_of {S A L : Type} (xs : list A) (body : A -> L -> Method S L)
  (l : L) : Method S L :=
  match xs with
  | [] => ret l
  | x :: rest => bind (body x l) (fun l' => for_of rest body l')
  end.

End Effects.

(** ** validate-pattern.js *)

Module Validator.

Import Effects.
Local Open Scope method_scope.

(** *** The world the validator runs in *)

(** What a path names.  A directory has the size [fs.statSync] reports. *)
Inductive Node : Type :=
| Missing
| File (content : string)
| Dir (size : nat).

(** One entry of Ajv's [validate.errors]. *)
Record AjvError : Type := mkAjvError {
  instancePath : string;
  missingProperty : option string;   (* [error.params.missingProperty] *)
  message : string
}.

(** The properties of the parsed [pattern.yaml] that the scripts read, at
    the types the pattern template gives them: strings, and a sequence of
    snippets that each name a file.  A document that is a scalar or a
    sequence has none of them, and is the record with every field absent.
    A document that gives a property another type is none of these records:
    [path.join] throws on a path that is no string, and [ReviewerNotifier]
    below takes a [category] of any type. *)
Record Snippet : Type := mkSnippet { file : string }.

Record Implementation : Type := mkImplementation {
  code_snippets : option (list Snippet)
}.

Record PatternData : Type := mkPatternData {
  category : option string;
  architecture_diagram : option string;
  implementation : option Implementation
}.

(** What [yaml.load] returns: [undefined] or [null] for an empty document,
    else a value whose properties can be read. *)
Inductive YamlValue : Type :=
| YEmpty
| YRecord (d : PatternData).

(** Outcome of a library parser: the exception's message, or the value. *)
Inductive Parsed (A : Type) : Type :=
| ParseError (msg : string)
| ParseOk (a : A).
Arguments ParseError {A} msg.
Arguments ParseOk {A} a.

(** The file system and the libraries ([path], [js-yaml], [JSON], [ajv]).
    [schemas/pattern-schema.json] is not part of the scripts: the schema is
    whatever [JSON.parse] yields and Ajv makes of it.  [ajv_compile] is [None]
    when [ajv.compile] throws. *)
Record Platform : Type := mkPlatform {
  Schema : Type;
  fs : string -> Node;
  path_join : list string -> string;
  yaml_load : string -> Parsed YamlValue;
  JSON_parse : string -> Parsed Schema;
  ajv_compile : Schema -> option (YamlValue -> list AjvError)
}.

Definition existsSync (P : Platform) (p : string) : bool :=
  match fs P p with Missing => false | _ => true end.

Definition isDirectory (P : Platform) (p : string) : bool :=
  match fs P p with Dir _ => true | _ => false end.

(** [fs.statSync(p).size], for a path that exists. *)
Definition stat_size (P : Platform) (p : string) : nat :=
  match fs P p with
  | Missing => 0
  | File c => String.length c
  | Dir n => n
  end.

(** [fs.readFileSync(p, 'utf8')]: the content or the exception's message. *)
Definition readFileSync (P : Platform) (p : string) : Parsed string :=
  match fs P p with
  | File c => ParseOk c
  | Dir _ => ParseError "EISDIR: illegal operation on a directory, read"
  | Missing => ParseError "ENOENT: no such file or directory"
  end.

(** *** The validator object and its methods *)

(** The fields [errors] and [warnings] of a [PatternValidator], and the
    messages it passed to [success] (the rest of the console output is not
    kept). *)
Record State : Type := mkState {
  errors : list string;
  warnings : list string;
  successes : list string
}.

(** [new PatternValidator()] *)
Definition fresh : State := mkState [] [] [].

Definition Method (A : Type) : Type := Effects.Method State A.

Definition error (msg : string) : Method unit :=
  fun v => (Normal tt, mkState (errors v ++ [msg])%list (warnings v) (successes v)).

Definition warning (msg : string) : Method unit :=
  fun v => (Normal tt, mkState (errors v) (warnings v ++ [msg])%list (successes v)).

Definition success (msg : string) : Method unit :=
  fun v => (Normal tt, mkState (errors v) (warnings v) (successes v ++ [msg])%list).

(** [this.errors.length === 0] and the like *)
Definition no_errors : Method bool := fun v => (Normal (length (errors v) =? 0)%nat, v).
Definition no_warnings : Method bool := fun v => (Normal (length (warnings v) =? 0)%nat, v).

Definition naming_error (patternId : string) : string :=
  "Pattern ID " ++ JS.dquote ++ patternId ++ JS.dquote ++
  " does not follow kebab-case naming convention. " ++
  "Use lowercase letters, numbers, and hyphens only (e.g., " ++
  JS.dquote ++ "my-pattern-name" ++ JS.dquote ++ ").".

(** [validatePatternId(patternDir)] *)
Definition validatePatternId (patternDir : string) : Method bool :=
  let patternId := JS.basename patternDir in
  if negb (RegExp.test RegExp.kebabCaseRegex patternId) then
    error (naming_error patternId) ;;
    ret false
  else
    success ("Pattern ID " ++ JS.dquote ++ patternId ++ JS.dquote ++
             " follows naming conventions") ;;
    ret true.

Definition requiredFiles : list string := ["pattern.yaml"; "README.md"].
Definition requiredDirs : list string := ["diagrams"].

(** [validateRequiredFiles(patternDir)] *)
Definition validateRequiredFiles (P : Platform) (patternDir : string)
  : Method bool :=
  allFilesExist <-
    for_of requiredFiles (fun file allFilesExist =>
      let filePath := path_join P [patternDir; file] in
      if negb (existsSync P filePath) then
        error ("Required file missing: " ++ file) ;; ret false
      else if (stat_size P filePath =? 0)%nat then
        error ("Required file is empty: " ++ file) ;; ret false
      else
        success ("Required file exists: " ++ file) ;; ret allFilesExist) true ;;
  for_of requiredDirs (fun dir allFilesExist =>
    let dirPath := path_join P [patternDir; dir] in
    if negb (existsSync P dirPath) then
      error ("Required directory missing: " ++ dir ++ "/") ;; ret false
    else if negb (isDirectory P dirPath) then
      error (dir ++ " exists but is not a directory") ;; ret false
    else
      success ("Required directory exists: " ++ dir ++ "/") ;; ret allFilesExist)
    allFilesExist.

(** [error.instancePath || error.params.missingProperty || 'root'] *)
Definition ajv_field (e : AjvError) : string :=
  if JS.truthy (instancePath e) then instancePath e
  else match missingProperty e with
       | Some p => if JS.truthy p then p else "root"
       | None => "root"
       end.

Definition diagram_error (ref : string) : string :=
  "Architecture diagram not found: " ++ ref.

Definition snippet_error (ref : string) : string :=
  "Code snippet file not found: " ++ ref.

(** The loop over [patternData.implementation.code_snippets]; [false] is the
    [return false] from inside the loop, [true] its running to the end. *)
Fixpoint check_snippets (P : Platform) (patternDir : string)
  (snippets : list Snippet) : Method bool :=
  match snippets with
  | [] => ret true
  | snippet :: rest =>
      let snippetPath := path_join P [patternDir; file snippet] in
      if negb (existsSync P snippetPath) then
        error (snippet_error (file snippet)) ;; ret false
      else
        success ("Code snippet exists: " ++ file snippet) ;;
        check_snippets P patternDir rest
  end.

(** The end of [validatePatternYaml], from "Validate referenced files exist"
    on.  Reading a property of [undefined] or [null] throws. *)
Definition check_referenced_files (P : Platform) (patternDir : string)
  (patternData : YamlValue) : Method bool :=
  match patternData with
  | YEmpty =>
      throw "Cannot read properties of undefined (reading 'architecture_diagram')"
  | YRecord d =>
      diagram_ok <-
        (match architecture_diagram d with
         | Some ref =>
             if JS.truthy ref then
               let diagramPath := path_join P [patternDir; ref] in
               if negb (existsSync P diagramPath) then
                 error (diagram_error ref) ;; ret false
               else
                 success ("Architecture diagram exists: " ++ ref) ;; ret true
             else ret true
         | None => ret true
         end) ;;
      if negb diagram_ok then ret false
      else
        match implementation d with
        | Some impl =>
            match code_snippets impl with
            | Some snippets => check_snippets P patternDir snippets
            | None => ret true
            end
        | None => ret true
        end
  end.

(** The two statements of the first [try] block: an exception of either is
    caught with its message. *)
Definition load_yaml (P : Platform) (patternYamlPath : string)
  : Parsed YamlValue :=
  match readFileSync P patternYamlPath with
  | ParseError msg => ParseError msg
  | ParseOk yamlContent => yaml_load P yamlContent
  end.

(** The two statements of the second [try] block. *)
Definition load_schema (P : Platform) (schemaPath : string)
  : Parsed (Schema P) :=
  match readFileSync P schemaPath with
  | ParseError msg => ParseError msg
  | ParseOk schemaContent => JSON_parse P schemaContent
  end.

Definition parse_error (msg : string) : string :=
  "Failed to parse pattern.yaml: " ++ msg.

Definition schema_not_found : string :=
  "JSON Schema not found at schemas/pattern-schema.json".

(** [validatePatternYaml(patternDir, repoRoot)] *)
Definition validatePatternYaml (P : Platform) (patternDir repoRoot : string)
  : Method bool :=
  let patternYamlPath := path_join P [patternDir; "pattern.yaml"] in
  if negb (existsSync P patternYamlPath) then
    error "pattern.yaml not found" ;; ret false
  else
    match load_yaml P patternYamlPath with
    | ParseError msg =>
        error (parse_error msg) ;; ret false
    | ParseOk patternData =>
        success "pattern.yaml is valid YAML format" ;;
        let schemaPath :=
          path_join P [repoRoot; "schemas"; "pattern-schema.json"] in
        if negb (existsSync P schemaPath) then
          error schema_not_found ;;
          ret false
        else
          match load_schema P schemaPath with
          | ParseError msg =>
              error ("Failed to load JSON Schema: " ++ msg) ;; ret false
          | ParseOk schema =>
              match ajv_compile P schema with
              | None => throw "schema is invalid"
              | Some validate =>
                  match validate patternData with
                  | [] =>
                      success ("pattern.yaml conforms to JSON Schema " ++
                        "(including category, required fields, formats, etc.)") ;;
                      check_referenced_files P patternDir patternData
                  | e :: es =>
                      error "pattern.yaml does not conform to JSON Schema:" ;;
                      for_of (e :: es) (fun err (_ : unit) =>
                        error ("  - " ++ ajv_field err ++ ": " ++ message err))
                        tt ;;
                      ret false
                  end
              end
          end
    end.

Definition minLength : nat := 100.

Definition recommendedSections : list string :=
  ["Overview"; "Architecture"; "Implementation"; "Prerequisites"].

(** [recommendedSections.filter(section =>
      !content.toLowerCase().includes(section.toLowerCase()))] *)
Definition missingSections (content : string) : list string :=
  filter (fun section =>
            negb (JS.includes (JS.toLowerCase content) (JS.toLowerCase section)))
         recommendedSections.

Definition short_warning : string :=
  "README.md seems too short. Consider adding more documentation.".

Definition sections_warning (missing : list string) : string :=
  "README.md is missing recommended sections: " ++ JS.join ", " missing.

(** [validateReadme(patternDir)].  The read is not inside a [try]. *)
Definition validateReadme (P : Platform) (patternDir : string) : Method bool :=
  let readmePath := path_join P [patternDir; "README.md"] in
  if negb (existsSync P readmePath) then ret false
  else
    match readFileSync P readmePath with
    | ParseError msg => throw msg
    | ParseOk content =>
        if (String.length content <? minLength)%nat then
          warning short_warning ;; ret true
        else
          (if (0 <? length (missingSections content))%nat then
             warning (sections_warning (missingSections content))
           else ret tt) ;;
          success "README.md has adequate content" ;;
          ret true
    end.

Definition all_passed : string :=
  String (ascii_of_nat 10) EmptyString ++
  "✨ All validations passed! Pattern is ready for review." ++
  String (ascii_of_nat 10) EmptyString.

(** [validate(patternDir, repoRoot)]: the four steps, then the summary and
    the exit code. *)
Definition validate (P : Platform) (patternDir repoRoot : string) : Method nat :=
  validatePatternId patternDir ;;
  filesValid <- validateRequiredFiles P patternDir ;;
  yamlValid <- validatePatternYaml P patternDir repoRoot ;;
  validateReadme P patternDir ;;
  e0 <- no_errors ;;
  w0 <- no_warnings ;;
  if e0 && w0 then
    success all_passed ;; ret 0
  else if negb e0 then ret 1
  else ret 0.

(** The end of [main]: a new validator, [process.exit(exitCode)], and
    [process.exit(1)] from the [catch] when [validate] throws. *)
Definition main_exit_code (P : Platform) (patternDir repoRoot : string) : nat :=
  match fst (validate P patternDir repoRoot fresh) with
  | Normal exitCode => exitCode
  | Throws _ => 1
  end.

(** The verdict of a run is FAIL when errors were recorded. *)
Definition verdict_fail (v : State) : bool := negb (length (errors v) =? 0)%nat.

(** What a method recorded, added to what was recorded before it. *)
Definition appended (v d : State) : State :=
  mkState (errors v ++ errors d)%list (warnings v ++ warnings d)%list
          (successes v ++ successes d)%list.

(** What a method records when a new validator runs it. *)
Definition after {A} (m : Method A) : State := snd (m fresh).

(** A method that only records: what it returns and what it adds do not
    depend on what was recorded before. *)
Definition recording {A} (m : Method A) : Prop :=
  forall v, m v = (fst (m fresh), appended v (after m)).

(** A method that leaves a part [f] of the state as it was. *)
Definition keeps {A X} (f : State -> X) (m : Method A) : Prop :=
  forall v, f (snd (m v)) = f v.

(** A method that never throws. *)
Definition total {A} (m : Method A) : Prop :=
  forall v, exists a, fst (m v) = Effects.Normal a.

(** The summary at the end of [validate], on the state the steps left. *)
Definition summary (v : State) : Effects.Completion nat * State :=
  if (length (errors v) =? 0)%nat && (length (warnings v) =? 0)%nat then
    (Effects.Normal 0,
     mkState (errors v) (warnings v) (successes v ++ [all_passed])%list)
  else if negb (length (errors v) =? 0)%nat then (Effects.Normal 1, v)
  else (Effects.Normal 0, v).

(** A method whose every recorded error satisfies [Q]. *)
Definition records {A} (Q : string -> Prop) (m : Method A) : Prop :=
  forall v, exists added,
    errors (snd (m v)) = (errors v ++ added)%list /\ Forall Q added.

(** An error message that is not the one of the naming check: it does not
    begin with the letter P. *)
Definition not_naming (msg : string) : Prop :=
  match msg with
  | String c _ => (c =? "P")%char = false
  | EmptyString => True
  end.

(** The relative paths a parsed record refers to, in the order the validator
    looks at them: the diagram, then the file of each code snippet. *)
Inductive Reference : Type :=
| DiagramRef (path : string)
| SnippetRef (path : string).

Definition reference_path (r : Reference) : string :=
  match r with DiagramRef p => p | SnippetRef p => p end.

Definition reference_error (r : Reference) : string :=
  match r with
  | DiagramRef p => diagram_error p
  | SnippetRef p => snippet_error p
  end.

Definition references (d : PatternData) : list Reference :=
  (match architecture_diagram d with
   | Some ref => if JS.truthy ref then [DiagramRef ref] else []
   | None => []
   end ++
   match implementation d with
   | Some impl =>
       match code_snippets impl with
       | Some snippets => map (fun snippet => SnippetRef (file snippet)) snippets
       | None => []
       end
   | None => []
   end)%list.

(** A reference whose target does not exist under the entry directory. *)
Definition dangling (P : Platform) (patternDir : string) (r : Reference) : bool :=
  negb (existsSync P (path_join P [patternDir; reference_path r])).

(** The README step left no trace in a run: no warning, and not its message
    of success. *)
Definition readme_check_skipped (P : Platform) (patternDir repoRoot : string)
  : Prop :=
  let v := snd (validate P patternDir repoRoot fresh) in
  warnings v = [] /\ ~ In "README.md has adequate content" (successes v).

(** An exit code other than the one of PASS and the one of FAIL. *)
Definition distinct_exit_code (code : nat) : Prop := code <> 0 /\ code <> 1.

(** A section heading occurs in a text, whatever the case of either. *)
Definition occurs_ignoring_case (section content : string) : Prop :=
  exists before after,
    JS.toLowerCase content = before ++ JS.toLowerCase section ++ after.

End Validator.

(** ** notify-reviewers.js *)

Module Notifier.

Import Effects.
Local Open Scope method_scope.

Definition nl : string := String (ascii_of_nat 10) EmptyString.

Module Sme.
Record t : Type := mk {
  reviewers : list string;
  team : string;
  description : string
}.
End Sme.

Definition SME_MAPPING : list (string * Sme.t) :=
  [ ("automation",
     Sme.mk ["automation-sme1"; "automation-sme2"]
            "automation-team" "Automation & Workflows");
    ("observability",
     Sme.mk ["observability-sme1"; "observability-sme2"]
            "observability-team" "Observability & Monitoring");
    ("security",
     Sme.mk ["security-sme1"; "security-sme2"]
            "security-team" "Security & Compliance");
    ("monitoring",
     Sme.mk ["monitoring-sme1"; "monitoring-sme2"]
            "monitoring-team" "System Monitoring");
    ("integration",
     Sme.mk ["integration-sme1"; "integration-sme2"]
            "integration-team" "System Integration");
    ("data-protection",
     Sme.mk ["data-protection-sme1"; "data-protection-sme2"]
            "data-protection-team" "Data Protection & Recovery") ].

Definition FALLBACK_REVIEWERS : list string :=
  ["pattern-maintainer1"; "pattern-maintainer2"].

(** The property names every object literal inherits from
    [Object.prototype]; each names a function or an object, so the value is
    truthy and has no property of its own that the script reads. *)
Definition Object_prototype_keys : list string :=
  [ "constructor"; "__defineGetter__"; "__defineSetter__"; "hasOwnProperty";
    "__lookupGetter__"; "__lookupSetter__"; "isPrototypeOf";
    "propertyIsEnumerable"; "toString"; "valueOf"; "__proto__";
    "toLocaleString" ].

(** [table[key]] for an object literal [table]. *)
Inductive Lookup (A : Type) : Type :=
| Own (a : A)
| Inherited
| Undefined.
Arguments Own {A} a.
Arguments Inherited {A}.
Arguments Undefined {A}.

Definition lookup_property {A} (table : list (string * A)) (key : string)
  : Lookup A :=
  match find (fun kv => String.eqb (fst kv) key) table with
  | Some kv => Own (snd kv)
  | None =>
      if existsb (String.eqb key) Object_prototype_keys then Inherited
      else Undefined
  end.

(** An insertion-ordered [Set] of strings: [add]. *)
Definition Set_add (x : string) (s : list string) : list string :=
  if existsb (String.eqb x) s then s else (s ++ [x])%list.

(** An insertion-ordered [Map] with string keys: [has] and [set]. *)
Definition Map_has {V} (k : string) (m : list (string * V)) : bool :=
  existsb (fun kv => String.eqb (fst kv) k) m.

Fixpoint Map_set {V} (k : string) (v : V) (m : list (string * V))
  : list (string * V) :=
  match m with
  | [] => [(k, v)]
  | kv :: rest =>
      if String.eqb (fst kv) k then (k, v) :: rest
      else kv :: Map_set k v rest
  end.

(** [m.get(k).add(x)] and [m.get(k).push(x)]: the value stored under [k] is
    updated where it is. *)
Definition Map_update {V} (k : string) (f : V -> V) (m : list (string * V))
  : list (string * V) :=
  map (fun kv => if String.eqb (fst kv) k then (fst kv, f (snd kv)) else kv) m.

Module Pattern.
Record t : Type := mk {
  directory : string;
  category : string;
  reviewers : list string
}.
End Pattern.

(** The fields of a [ReviewerNotifier], and what it appended to the file
    named by [GITHUB_OUTPUT]. *)
Record State : Type := mkState {
  allReviewers : list string;
  categoryReviewers : list (string * list string);
  patterns : list Pattern.t;
  github_output : list string
}.

(** [new ReviewerNotifier()] *)
Definition fresh : State := mkState [] [] [] [].

Definition Method (A : Type) : Type := Effects.Method State A.

(** [getPatternCategory(patternDir)]; [None] is [null].  Every exception of
    the [try] block is caught, the one from reading [category] off an empty
    document too. *)
Definition getPatternCategory (P : Validator.Platform) (patternDir : string)
  : option string :=
  let patternYamlPath := Validator.path_join P [patternDir; "pattern.yaml"] in
  if negb (Validator.existsSync P patternYamlPath) then None
  else
    match Validator.readFileSync P patternYamlPath with
    | Validator.ParseError _ => None
    | Validator.ParseOk yamlContent =>
        match Validator.yaml_load P yamlContent with
        | Validator.ParseError _ => None
        | Validator.ParseOk Validator.YEmpty => None
        | Validator.ParseOk (Validator.YRecord patternData) =>
            match Validator.category patternData with
            | Some c => if JS.truthy c then Some c else None
            | None => None
            end
        end
    end.

(** [getReviewersForCategory(category)] *)
Definition getReviewersForCategory (category : option string) : list string :=
  match category with
  | None => FALLBACK_REVIEWERS
  | Some c =>
      if negb (JS.truthy c) then FALLBACK_REVIEWERS
      else
        match lookup_property SME_MAPPING c with
        | Undefined => FALLBACK_REVIEWERS
        | Own sme => Sme.reviewers sme
        | Inherited => FALLBACK_REVIEWERS
        end
  end.

(** [category || 'unknown'] *)
Definition category_label (category : option string) : string :=
  match category with
  | Some c => if JS.truthy c then c else "unknown"
  | None => "unknown"
  end.

(** The body of the loop of [processPatterns]. *)
Definition processPattern (P : Validator.Platform) (patternDir : string)
  : Method unit :=
  let category := getPatternCategory P patternDir in
  let reviewers := getReviewersForCategory category in
  n <- get ;;
  put (mkState (allReviewers n) (categoryReviewers n)
         (patterns n ++ [Pattern.mk patternDir (category_label category) reviewers])%list
         (github_output n)) ;;
  match category with
  | Some c =>
      if JS.truthy c then
        n <- get ;;
        (if negb (Map_has c (categoryReviewers n)) then
           put (mkState (allReviewers n) (Map_set c [] (categoryReviewers n))
                  (patterns n) (github_output n))
         else ret tt) ;;
        for_of reviewers (fun reviewer (_ : unit) =>
          n <- get ;;
          put (mkState (Set_add reviewer (allReviewers n))
                 (Map_update c (Set_add reviewer) (categoryReviewers n))
                 (patterns n) (github_output n))) tt
      else ret tt
  | None => ret tt
  end.

(** The assignment the loop pushes for an entry. *)
Definition assignment (P : Validator.Platform) (patternDir : string)
  : Pattern.t :=
  Pattern.mk patternDir
    (category_label (getPatternCategory P patternDir))
    (getReviewersForCategory (getPatternCategory P patternDir)).

(** [reviewers.forEach(reviewer => set.add(reviewer))] *)
Definition add_all (reviewers : list string) (set : list string)
  : list string :=
  fold_left (fun acc reviewer => Set_add reviewer acc) reviewers set.

(** The union of reviewer lists in the words of the specification: every
    identifier once, in order of first appearance. *)
Fixpoint first_appearance (xs : list string) : list string :=
  match xs with
  | [] => []
  | x :: rest =>
      x :: filter (fun y => negb (String.eqb y x)) (first_appearance rest)
  end.

(** [processPatterns(patternDirs)] *)
Definition processPatterns (P : Validator.Platform) (patternDirs : list string)
  : Method unit :=
  if (length patternDirs =? 0)%nat then ret tt
  else for_of patternDirs (fun patternDir (_ : unit) =>
         processPattern P patternDir) tt.

Definition icons : list (string * string) :=
  [ ("automation", "🤖"); ("observability", "👁️"); ("security", "🔒");
    ("monitoring", "📊"); ("integration", "🔗"); ("data-protection", "💾") ].

(** [getCategoryIcon(category)].  Under an inherited key the value is a
    function; its text only ever goes into a comment that is thrown away. *)
Definition getCategoryIcon (category : string) : string :=
  match lookup_property icons category with
  | Own icon => if JS.truthy icon then icon else "📦"
  | Inherited => "function () { [native code] }"
  | Undefined => "📦"
  end.

(** Grouping of [this.patterns] by category, in a [Map] of arrays. *)
Definition group_patterns (ps : list Pattern.t)
  : list (string * list Pattern.t) :=
  fold_left (fun patternsByCategory pattern =>
               let m :=
                 if negb (Map_has (Pattern.category pattern) patternsByCategory)
                 then Map_set (Pattern.category pattern) [] patternsByCategory
                 else patternsByCategory in
               Map_update (Pattern.category pattern)
                 (fun arr => (arr ++ [pattern])%list) m)
            ps [].

(** The lines of one category section after its heading. *)
Definition pattern_lines (ps : list Pattern.t) : string :=
  fold_left (fun comment pattern =>
               (comment ++ "- `" ++ Pattern.directory pattern ++ "`" ++ nl)%string)
            ps EmptyString.

(** One turn of the loop over [patternsByCategory]: the comment so far is
    extended, or reading [reviewers.map] off a value without reviewers
    throws. *)
Definition category_section (comment : string)
  (entry : string * list Pattern.t) : Completion string :=
  let category := fst entry in
  let icon := getCategoryIcon category in
  match lookup_property SME_MAPPING category with
  | Own sme =>
      let reviewerMentions :=
        JS.join ", " (map (fun r => ("@" ++ r)%string) (Sme.reviewers sme)) in
      Normal (comment ++ "### " ++ icon ++ " " ++ Sme.description sme ++ nl ++ nl ++
              "**Reviewers:** " ++ reviewerMentions ++ nl ++ nl ++
              "**Patterns:**" ++ nl ++ pattern_lines (snd entry) ++ nl)
  | Inherited =>
      Throws "Cannot read properties of undefined (reading 'map')"
  | Undefined =>
      Normal (comment ++ "### " ++ icon ++ " " ++ category ++ nl ++ nl ++
              "**Patterns:**" ++ nl ++ pattern_lines (snd entry) ++ nl)
  end.

Fixpoint category_sections (comment : string)
  (entries : list (string * list Pattern.t)) : Completion string :=
  match entries with
  | [] => Normal comment
  | entry :: rest =>
      match category_section comment entry with
      | Normal comment' => category_sections comment' rest
      | Throws msg => Throws msg
      end
  end.

Definition comment_header : string :=
  "## 👥 Pattern Review Assignments" ++ nl ++ nl ++
  "The following Subject Matter Experts (SMEs) have been identified for review:"
  ++ nl ++ nl.

Definition review_checklist : string :=
  "---" ++ nl ++ nl ++
  "### 📝 Review Checklist" ++ nl ++ nl ++
  "Please ensure the following before approving:" ++ nl ++ nl ++
  "- [ ] Pattern follows repository structure and naming conventions" ++ nl ++
  "- [ ] `pattern.yaml` contains all required fields and valid data" ++ nl ++
  "- [ ] `README.md` provides clear implementation guidance" ++ nl ++
  "- [ ] Architecture diagram is included and clear" ++ nl ++
  "- [ ] Code examples are correct and follow best practices" ++ nl ++
  "- [ ] Security considerations are documented" ++ nl ++
  "- [ ] Pattern is categorized correctly" ++ nl ++ nl ++
  "**Note:** Automated validation has already checked basic requirements. " ++
  "Please focus on technical accuracy, completeness, and alignment with organizational standards."
  ++ nl.

(** [generateComment()]; [None] is [null]. *)
Definition generateComment : Method (option string) :=
  n <- get ;;
  if (length (patterns n) =? 0)%nat then ret None
  else
    match category_sections comment_header (group_patterns (patterns n)) with
    | Throws msg => throw msg
    | Normal comment => ret (Some (comment ++ review_checklist))
    end.

(** [JSON.stringify] of an array of strings made of characters that need no
    escape other than the quote and the backslash. *)
Fixpoint JSON_escape (s : string) : string :=
  match s with
  | EmptyString => EmptyString
  | String c t =>
      if ((c =? ascii_of_nat 34) || (c =? ascii_of_nat 92))%char
      then String (ascii_of_nat 92) (String c (JSON_escape t))
      else String c (JSON_escape t)
  end.

Definition JSON_stringify (xs : list string) : string :=
  "[" ++
  JS.join "," (map (fun x => (JS.dquote ++ JSON_escape x ++ JS.dquote)%string) xs)
  ++ "]".

Definition decimal (n : nat) : string :=
  DecimalString.NilZero.string_of_uint (Nat.to_uint n).

Definition appendFileSync (text : string) : Method unit :=
  n <- get ;;
  put (mkState (allReviewers n) (categoryReviewers n) (patterns n)
         (github_output n ++ [text])%list).

Module Output.
Record t : Type := mk {
  reviewers : list string;
  patterns : list Pattern.t;
  comment : option string
}.
End Output.

(** [generateOutput()]; [env_GITHUB_OUTPUT] tells whether
    [process.env.GITHUB_OUTPUT] is set. *)
Definition generateOutput (env_GITHUB_OUTPUT : bool) : Method Output.t :=
  n <- get ;;
  let reviewersList := allReviewers n in
  let reviewersJson := JSON_stringify reviewersList in
  (if env_GITHUB_OUTPUT then
     appendFileSync ("reviewers=" ++ reviewersJson ++ nl) ;;
     appendFileSync ("reviewer_count=" ++ decimal (length reviewersList) ++ nl) ;;
     comment <- generateComment ;;
     match comment with
     | Some text =>
         if JS.truthy text then
           appendFileSync ("pr_comment<<EOF" ++ nl ++ text ++ nl ++ "EOF" ++ nl)
         else ret tt
     | None => ret tt
     end
   else ret tt) ;;
  comment <- generateComment ;;
  n' <- get ;;
  ret (Output.mk reviewersList (patterns n') comment).

(** [run(patternDirs)] on a new notifier. *)
Definition run (P : Validator.Platform) (env_GITHUB_OUTPUT : bool)
  (patternDirs : list string) : Method Output.t :=
  processPatterns P patternDirs ;;
  generateOutput env_GITHUB_OUTPUT.

End Notifier.

(** ** detect-changed-patterns.sh

    [CHANGED_FILES] is the list of lines [git diff --name-only] printed, one
    path each.  Lines are compared byte by byte (the C locale). *)

Module Detect.

(** The work tree, the shell's pathname expansion against it, and what the
    [/bin/echo] of the machine prints when asked for its usage or version
    (less the newlines at the end, which [$(...)] drops). *)
Record Env : Type := mkEnv {
  is_directory : string -> bool;              (* [[ -d "$dir" ]] *)
  pathname_expansion : string -> list string; (* of a word with [*], [?] or [[] *)
  echo_help : string;                         (* [/bin/echo --help] *)
  echo_version : string                       (* [/bin/echo --version] *)
}.

Definition unit_in (cs : list nat) (c : ascii) : bool :=
  existsb (Nat.eqb (nat_of_ascii c)) cs.

(** Space, tab and newline: the separators of [IFS] and of [xargs]. *)
Definition is_blank : ascii -> bool := unit_in [32; 9; 10].
(** [*], [?] and [[]. *)
Definition is_glob : ascii -> bool := unit_in [42; 63; 91].
(** The single and the double quote. *)
Definition is_quote : ascii -> bool := unit_in [39; 34].
Definition is_backslash : ascii -> bool := unit_in [92].

(** An argument that [echo] takes for options: [-] and then one or more of
    [n], [e], [E]. *)
Definition is_echo_option (s : string) : bool :=
  match s with
  | String c (String d t) =>
      unit_in [45] c && all_units (unit_in [110; 101; 69]) (String d t)
  | _ => false
  end.

Fixpoint has_unit (p : ascii -> bool) (s : string) : bool :=
  match s with
  | EmptyString => false
  | String c t => p c || has_unit p t
  end.

(** The lines [echo "$CHANGED_FILES"] writes. *)
Definition echo_lines (changed : list string) : list string :=
  match changed with
  | [] => [EmptyString]
  | [p] =>
      if is_echo_option p then
        if has_unit (unit_in [110]) p then [] else [EmptyString]
      else [p]
  | _ => changed
  end.

(** [grep -v] with a pattern given by the lines it matches. *)
Definition grep_v (pattern : string -> bool) (lines : list string)
  : list string :=
  filter (fun line => negb (pattern line)) lines.

(** [^text] and [^text$], for a [text] without operators. *)
Definition starting (text line : string) : bool := prefix text line.
Definition exactly (text line : string) : bool := String.eqb text line.

(** [cut -d'/' -f1] on one line. *)
Fixpoint cut_f1 (line : string) : string :=
  match line with
  | EmptyString => EmptyString
  | String c t => if (c =? "/")%char then EmptyString else String c (cut_f1 t)
  end.

(** [sort -u] *)
Fixpoint insert_u (x : string) (sorted : list string) : list string :=
  match sorted with
  | [] => [x]
  | y :: rest =>
      match String.compare x y with
      | Lt => x :: sorted
      | Eq => sorted
      | Gt => y :: insert_u x rest
      end
  end.

Definition sort_u (lines : list string) : list string :=
  fold_right insert_u [] lines.

(** The pipeline that computes [PATTERN_DIRS], line by line. *)
Definition PATTERN_DIRS (changed : list string) : list string :=
  let l1 := grep_v (starting ".github/") (echo_lines changed) in
  let l2 := grep_v (starting "schemas/") l1 in
  let l3 := grep_v (exactly "categories.config.json") l2 in
  let l4 := grep_v (starting "pattern-template/") l3 in
  let l5 := grep_v (exactly "README.md") l4 in
  let l6 := grep_v (starting "LICENSE") l5 in
  let l7 := grep_v (starting ".") l6 in
  let l8 := map cut_f1 l7 in
  let l9 := sort_u l8 in
  grep_v (exactly EmptyString) l9.

(** The fields of a string between separators, empty ones too. *)
Fixpoint fields (sep : ascii -> bool) (s : string) : list string :=
  match s with
  | EmptyString => [EmptyString]
  | String c t =>
      if sep c then EmptyString :: fields sep t
      else match fields sep t with
           | [] => [String c EmptyString]
           | f :: fs => String c f :: fs
           end
  end.

(** Word splitting of an unquoted expansion. *)
Definition split_words (s : string) : list string :=
  filter JS.truthy (fields is_blank s).

(** The words [for dir in $PATTERN_DIRS] runs over: each line is split at
    blanks, and a word with a glob character is expanded against the
    directory. *)
Definition loop_words (E : Env) (lines : list string) : list string :=
  flat_map (fun line =>
    flat_map (fun word =>
      if has_unit is_glob word then pathname_expansion E word else [word])
      (split_words line)) lines.

(** The loop "Verify these are actual directories". *)
Definition verify_directories (E : Env) (words : list string) : string :=
  fold_left (fun VALID_PATTERN_DIRS dir =>
               if is_directory E dir && negb (String.eqb dir ".")
               then VALID_PATTERN_DIRS ++ dir ++ " "
               else VALID_PATTERN_DIRS)
            words EmptyString.

(** How [xargs] reads its input: between arguments, inside one, inside a
    quoted part of one, after a backslash. *)
Inductive xstate : Type :=
| XSpace
| XNorm
| XQuote (q : ascii)
| XBackslash.

Definition snoc (s : string) (c : ascii) : string := s ++ String c EmptyString.

(** The arguments [xargs] reads; [None] for an unmatched quote. *)
Fixpoint xargs_read (st : xstate) (cur : string) (input : string)
  : option (list string) :=
  match input with
  | EmptyString =>
      match st with
      | XSpace => Some []
      | XNorm => Some [cur]
      | XQuote _ => None
      | XBackslash => Some [cur]
      end
  | String c t =>
      match st with
      | XSpace =>
          if is_blank c then xargs_read XSpace EmptyString t
          else if is_quote c then xargs_read (XQuote c) EmptyString t
          else if is_backslash c then xargs_read XBackslash EmptyString t
          else xargs_read XNorm (String c EmptyString) t
      | XNorm =>
          if is_blank c then
            option_map (cons cur) (xargs_read XSpace EmptyString t)
          else if is_quote c then xargs_read (XQuote c) cur t
          else if is_backslash c then xargs_read XBackslash cur t
          else xargs_read XNorm (snoc cur c) t
      | XQuote q =>
          if unit_in [10] c then None
          else if (c =? q)%char then xargs_read XNorm cur t
          else xargs_read (XQuote q) (snoc cur c) t
      | XBackslash => xargs_read XNorm (snoc cur c) t
      end
  end.

(** What [echo] prints of its arguments: leading options are not printed. *)
Fixpoint echo_args (args : list string) : list string :=
  match args with
  | [] => []
  | a :: rest => if is_echo_option a then echo_args rest else args
  end.


Definition bin_echo (E : Env) (args : list string) : string :=
  match args with
  | [a] =>
      if String.eqb a "--help" then echo_help E
      else if String.eqb a "--version" then echo_version E
      else JS.join " " (echo_args args)
  | _ => JS.join " " (echo_args args)
  end.

(** [$(echo "$s" | xargs)]: [xargs] reads the line and has [/bin/echo] print
    the arguments, joined by single spaces. *)
Definition xargs_echo (E : Env) (s : string) : option string :=
  let line := s ++ String (ascii_of_nat 10) EmptyString in
  match xargs_read XSpace EmptyString line with
  | Some args => Some (bin_echo E args)
  | None => None
  end.

(** What the script leaves behind: its exit status and, when it got that
    far, the values written for [changed_patterns] and [pattern_count]. *)
Record Outcome : Type := mkOutcome {
  exit_status : nat;
  changed_patterns : option string;
  pattern_count : option nat
}.

(** The script from [PATTERN_DIRS=] on.  Under [set -e] a failing [xargs]
    ends the script with its status. *)
Definition detect (E : Env) (changed : list string) : Outcome :=
  let dirs := PATTERN_DIRS changed in
  if (length dirs =? 0)%nat then mkOutcome 0 (Some EmptyString) (Some 0)
  else
    let VALID_PATTERN_DIRS := verify_directories E (loop_words E dirs) in
    match xargs_echo E VALID_PATTERN_DIRS with
    | None => mkOutcome 1 None None
    | Some valid =>
        if negb (JS.truthy valid) then mkOutcome 0 (Some EmptyString) (Some 0)
        else mkOutcome 0 (Some valid) (Some (length (split_words valid)))
    end.

(** The entries a run reports: the words of [changed_patterns]. *)
Definition detected (o : Outcome) : list string :=
  match changed_patterns o with
  | Some valid => split_words valid
  | None => []
  end.

(** The patterns of the [grep -v] filters, on a whole path. *)
Definition denylisted (path : string) : bool :=
  starting ".github/" path || starting "schemas/" path ||
  exactly "categories.config.json" path || starting "pattern-template/" path ||
  exactly "README.md" path || starting "LICENSE" path || starting "." path.

(** A path segment matches the denylist when a filter matches it, taken
    by itself or as the directory it names. *)
Definition segment_denylisted (segment : string) : bool :=
  denylisted segment || denylisted (segment ++ "/").

(** The change detector in the words of its specification: a first path
    segment of a changed path is reported when it is not empty, does not
    match the denylist and is a directory. *)
Definition specified_entry (E : Env) (changed : list string) (d : string)
  : Prop :=
  exists p, In p changed /\ cut_f1 p = d /\ d <> EmptyString /\
            segment_denylisted d = false /\ is_directory E d = true.

(** A path the shell hands on unchanged: no blank, glob character, quote or
    backslash, and a first segment that [echo] does not take for options. *)
Definition shell_special (c : ascii) : bool :=
  is_blank c || is_glob c || is_quote c || is_backslash c.

Definition shell_plain (path : string) : bool :=
  negb (has_unit shell_special path) && negb (is_echo_option (cut_f1 path)).


(** The order of [sort]: byte by byte. *)
Definition string_lt (a b : string) : Prop := String.compare a b = Lt.



End Detect.

(** ** Sample repositories *)

Module Examples.

Import Validator.

(** [path.join] on segments that need no normalisation. *)
Definition join_paths (parts : list string) : string := String.concat "/" parts.

(** A file system given by the nodes it holds. *)
Definition tree (nodes : list (string * Node)) (p : string) : Node :=
  match find (fun kv => String.eqb (fst kv) p) nodes with
  | Some kv => snd kv
  | None => Missing
  end.

(** A platform whose YAML parser knows the documents listed, and whose
    schema accepts every record. *)
Definition platform_of (nodes : list (string * Node))
  (documents : list (string * Parsed YamlValue)) : Platform :=
  mkPlatform unit (tree nodes) join_paths
    (fun content =>
       match find (fun kv => String.eqb (fst kv) content) documents with
       | Some kv => snd kv
       | None =>
           ParseError "end of the stream or a document separator is expected"
       end)
    (fun _ => ParseOk tt)
    (fun _ => Some (fun _ => [])).

Definition platform (nodes : list (string * Node)) (document : string)
  (parsed : Parsed YamlValue) : Platform :=
  platform_of nodes [(document, parsed)].

Definition repoRoot : string := "/repo".
Definition patternDir : string := "/repo/sample-pattern".

Definition long_readme : string :=
  "# Sample pattern. ## Overview: what the pattern is for and when to use it. " ++
  "## Architecture: the queue and the function that drains it, with a diagram.".

Definition full_readme : string :=
  long_readme ++ " ## Implementation: steps. ## Prerequisites: an account.".

Definition schema_file : string * Node :=
  ("/repo/schemas/pattern-schema.json", File "{}").

(** Metadata that is not YAML, next to a README of a few words. *)
Definition malformed : Platform :=
  platform
    [ ("/repo/sample-pattern/pattern.yaml", File "title: [unclosed");
      ("/repo/sample-pattern/README.md", File "To do.");
      ("/repo/sample-pattern/diagrams", Dir 4096);
      schema_file ]
    "title: [unclosed"
    (ParseError "unexpected end of the stream within a flow collection").

(** A record that names a diagram and a code snippet. *)
Definition record_two_references : PatternData :=
  mkPatternData (Some "automation") (Some "diagrams/architecture.png")
    (Some (mkImplementation (Some [mkSnippet "implementation/missing.js"]))).

(** Neither the diagram nor the snippet exists. *)
Definition two_dangling : Platform :=
  platform
    [ ("/repo/sample-pattern/pattern.yaml", File "title: Sample");
      ("/repo/sample-pattern/README.md", File full_readme);
      ("/repo/sample-pattern/diagrams", Dir 4096);
      schema_file ]
    "title: Sample" (ParseOk (YRecord record_two_references)).

(** The diagram exists, the snippet does not. *)
Definition one_dangling : Platform :=
  platform
    [ ("/repo/sample-pattern/pattern.yaml", File "title: Sample");
      ("/repo/sample-pattern/README.md", File full_readme);
      ("/repo/sample-pattern/diagrams", Dir 4096);
      ("/repo/sample-pattern/diagrams/architecture.png", File "PNG");
      schema_file ]
    "title: Sample" (ParseOk (YRecord record_two_references)).

(** A complete entry in a repository without [schemas/pattern-schema.json]. *)
Definition no_schema : Platform :=
  platform
    [ ("/repo/sample-pattern/pattern.yaml", File "title: Sample");
      ("/repo/sample-pattern/README.md", File full_readme);
      ("/repo/sample-pattern/diagrams", Dir 4096);
      ("/repo/sample-pattern/diagrams/architecture.png", File "PNG");
      ("/repo/sample-pattern/implementation/missing.js", File "// code") ]
    "title: Sample" (ParseOk (YRecord record_two_references)).

(** A README long enough that lacks two of the recommended sections. *)
Definition two_sections_missing : Platform :=
  platform
    [ ("/repo/sample-pattern/pattern.yaml", File "title: Sample");
      ("/repo/sample-pattern/README.md", File long_readme);
      ("/repo/sample-pattern/diagrams", Dir 4096);
      schema_file ]
    "title: Sample" (ParseOk (YRecord (mkPatternData (Some "automation") None None))).

(** Entries for the reviewer notifier: one of a category that has reviewers,
    one of a category that has none, one without a category, one whose
    metadata is not YAML, and one whose category names a property every
    object inherits. *)
Definition with_category_value (c : string) : YamlValue :=
  YRecord (mkPatternData (Some c) None None).

Definition with_category (c : string) : Parsed YamlValue :=
  ParseOk (YRecord (mkPatternData (Some c) None None)).

Definition routing : Platform :=
  platform_of
    [ ("queue-worker/pattern.yaml", File "category: automation");
      ("mesh-gateway/pattern.yaml", File "category: networking");
      ("draft-idea/pattern.yaml", File "title: Draft");
      ("broken-yaml/pattern.yaml", File "title: [unclosed");
      ("odd-category/pattern.yaml", File "category: constructor") ]
    [ ("category: automation", with_category "automation");
      ("category: networking", with_category "networking");
      ("title: Draft", ParseOk (YRecord (mkPatternData None None None)));
      ("category: constructor", with_category "constructor") ].

(** A work tree for the change detector: the directories named, no glob
    matches. *)
Definition work_tree (directories : list string) : Detect.Env :=
  Detect.mkEnv (fun d => existsb (String.eqb d) directories) (fun word => [word])
    "Usage: /bin/echo [SHORT-OPTION]... [STRING]..."
    "echo (GNU coreutils) 9.4".


Definition tree_two_entries : Detect.Env :=
  work_tree ["queue-worker"; "mesh-gateway"; "schemas"; ".github"].

(** A pull request that touches an entry whose directory name has a space. *)
Definition changed_spaced : list string := ["my pattern/pattern.yaml"].

Definition tree_spaced : Detect.Env := work_tree ["my pattern"].

(** The same work tree with two more directories, named by the two words. *)
Definition tree_spaced_words : Detect.Env :=
  work_tree ["my pattern"; "my"; "pattern"].

(** The same pull request for an entry named with a hyphen. *)
Definition changed_hyphenated : list string := ["my-pattern/pattern.yaml"].

Definition tree_hyphenated : Detect.Env := work_tree ["my-pattern"].

(** A record the schema finds two faults with: no title, and a category
    that is not in the list. *)
Definition two_violations : Validator.Platform :=
  mkPlatform unit
    (tree [ ("/repo/sample-pattern/pattern.yaml", File "category: misc");
            ("/repo/sample-pattern/README.md", File full_readme);
            ("/repo/sample-pattern/diagrams", Dir 4096);
            schema_file ])
    join_paths
    (fun _ => with_category "misc")
    (fun _ => ParseOk tt)
    (fun _ => Some (fun _ =>
       [ mkAjvError EmptyString (Some "title")
           "must have required property 'title'";
         mkAjvError "/category" None
           "must be equal to one of the allowed values" ])).

(** An entry whose [pattern.yaml] is an empty document. *)
Definition empty_document : Validator.Platform :=
  platform
    [ ("/repo/sample-pattern/pattern.yaml", File "# to do");
      ("/repo/sample-pattern/README.md", File full_readme);
      ("/repo/sample-pattern/diagrams", Dir 4096);
      schema_file ]
    "# to do" (ParseOk YEmpty).

(** An entry that has everything but [pattern.yaml]. *)
Definition no_metadata : Validator.Platform :=
  platform
    [ ("/repo/sample-pattern/README.md", File full_readme);
      ("/repo/sample-pattern/diagrams", Dir 4096);
      schema_file ]
    "title: Sample" (with_category "automation").

End Examples.

(** ** What the required-file step looks for *)

Module Requirements.

Import Validator.

(** An item of the entry directory that has to be there. *)
Inductive Requirement : Type :=
| RequiredFile (name : string)
| RequiredDir (name : string).

(** The items in the order the step looks at them. *)
Definition requirements : list Requirement :=
  map RequiredFile requiredFiles ++ map RequiredDir requiredDirs.

(** What is wrong with an item, if anything. *)
Definition problem (P : Platform) (patternDir : string) (r : Requirement)
  : option string :=
  match r with
  | RequiredFile file =>
      let filePath := path_join P [patternDir; file] in
      if negb (existsSync P filePath) then
        Some ("Required file missing: " ++ file)
      else if (stat_size P filePath =? 0)%nat then
        Some ("Required file is empty: " ++ file)
      else None
  | RequiredDir dir =>
      let dirPath := path_join P [patternDir; dir] in
      if negb (existsSync P dirPath) then
        Some ("Required directory missing: " ++ dir ++ "/")
      else if negb (isDirectory P dirPath) then
        Some (dir ++ " exists but is not a directory")
      else None
  end.

Definition problems (P : Platform) (patternDir : string) : list string :=
  flat_map (fun r => match problem P patternDir r with
                     | Some msg => [msg]
                     | None => []
                     end) requirements.

(** The line the schema step records for one violation. *)
Definition violation_line (err : AjvError) : string :=
  "  - " ++ ajv_field err ++ ": " ++ message err.

(** Everything a run has to find for the exit code to be 0. *)
Definition passes (P : Platform) (patternDir repoRoot : string) : Prop :=
  kebab_case (JS.basename patternDir) /\
  problems P patternDir = [] /\
  (exists d schema check,
     load_yaml P (path_join P [patternDir; "pattern.yaml"]) =
       ParseOk (YRecord d) /\
     existsSync P (path_join P [repoRoot; "schemas"; "pattern-schema.json"])
       = true /\
     load_schema P (path_join P [repoRoot; "schemas"; "pattern-schema.json"])
       = ParseOk schema /\
     ajv_compile P schema = Some check /\
     check (YRecord d) = [] /\
     filter (dangling P patternDir) (references d) = []) /\
  isDirectory P (path_join P [patternDir; "README.md"]) = false.

(** When the metadata step ends with an exception: the schema does not
    compile, or it accepts an empty document, whose properties cannot be
    read. *)
Definition metadata_step_throws (P : Platform) (patternDir repoRoot : string)
  : Prop :=
  existsSync P (path_join P [patternDir; "pattern.yaml"]) = true /\
  exists data schema,
    load_yaml P (path_join P [patternDir; "pattern.yaml"]) = ParseOk data /\
    existsSync P (path_join P [repoRoot; "schemas"; "pattern-schema.json"])
      = true /\
    load_schema P (path_join P [repoRoot; "schemas"; "pattern-schema.json"])
      = ParseOk schema /\
    (ajv_compile P schema = None \/
     exists check, ajv_compile P schema = Some check /\
                   check data = [] /\ data = YEmpty).

End Requirements.

(** ** The naming convention, unit by unit *)

Module Naming.

Definition is_hyphen (c : ascii) : bool := (c =? "-")%char.

(** The last unit of a string is a hyphen. *)
Fixpoint ends_with_hyphen (s : string) : bool :=
  match s with
  | EmptyString => false
  | String c EmptyString => is_hyphen c
  | String _ t => ends_with_hyphen t
  end.

(** Two hyphens follow each other somewhere. *)
Fixpoint has_double_hyphen (s : string) : bool :=
  match s with
  | EmptyString => false
  | String a t =>
      match t with
      | EmptyString => false
      | String b _ => (is_hyphen a && is_hyphen b) || has_double_hyphen t
      end
  end.

Definition starts_with_hyphen (s : string) : bool :=
  match s with
  | EmptyString => false
  | String c _ => is_hyphen c
  end.

(** What the error message of the naming check asks for, and what it leaves
    unsaid: a name that is not empty, made of lower case letters, digits
    and hyphens, with no hyphen first or last and no two hyphens in a row. *)
Definition well_hyphenated (s : string) : bool :=
  JS.truthy s &&
  all_units (fun c => is_lower_or_digit c || is_hyphen c) s &&
  negb (starts_with_hyphen s) && negb (ends_with_hyphen s) &&
  negb (has_double_hyphen s).

(** The pattern read from left to right; [in_segment] tells that the unit
    before was a letter or a digit. *)
Fixpoint scan (in_segment : bool) (s : string) : bool :=
  match s with
  | EmptyString => in_segment
  | String c t =>
      if is_lower_or_digit c then scan true t
      else if is_hyphen c then in_segment && scan false t
      else false
  end.

End Naming.

(** ** The command line of the validator *)

Module ValidatorCli.

Import Validator.

(** An absolute path without [.] or [..], as [path.resolve] returns it, is
    given by the names below the root; this is its text. *)
Definition render (segments : list string) : string :=
  "/" ++ String.concat "/" segments.

(** The two tests of the loop of [findRepoRoot]. *)
Definition has_marker (P : Platform) (currentPath : string) : bool :=
  existsSync P (path_join P [currentPath; ".git"]) ||
  existsSync P (path_join P [currentPath; "categories.config.json"]).

(** The loop of [findRepoRoot], on the names of [currentPath] from the last
    to the first: [path.dirname] drops the last name, and the loop ends at
    the root, which [path.parse(currentPath).root] is. *)
Fixpoint climb (P : Platform) (cwd : string) (reversed : list string) : string :=
  match reversed with
  | [] => cwd
  | _ :: parent =>
      let currentPath := render (rev reversed) in
      if existsSync P (path_join P [currentPath; ".git"]) then currentPath
      else if existsSync P (path_join P [currentPath; "categories.config.json"])
      then currentPath
      else climb P cwd parent
  end.

(** [findRepoRoot(startPath)]; [cwd] is [process.cwd()]. *)
Definition findRepoRoot (P : Platform) (cwd : string) (startPath : list string)
  : string :=
  climb P cwd (rev startPath).

(** [main()] down to the exit code; [resolve] is [path.resolve] in the
    current directory. *)
Definition main (P : Platform) (resolve : string -> list string) (cwd : string)
  (args : list string) : nat :=
  match args with
  | [] => 1
  | arg :: _ =>
      let patternDir := render (resolve arg) in
      if negb (existsSync P patternDir) then 1
      else if negb (isDirectory P patternDir) then 1
      else
        let repoRoot := findRepoRoot P cwd (resolve arg) in
        main_exit_code P patternDir repoRoot
  end.

End ValidatorCli.

(** ** The report in the words of its reader *)

Module Report.

Import Notifier.

(** The entry belongs to the category. *)
Definition member (category : string) (pattern : Pattern.t) : bool :=
  String.eqb (Pattern.category pattern) category.

(** Grouping said directly: the categories in order of first appearance,
    each with its entries in the order they were routed. *)
Definition grouped (ps : list Pattern.t) : list (string * list Pattern.t) :=
  map (fun category => (category, filter (member category) ps))
      (first_appearance (map Pattern.category ps)).

(** The line of the report for an entry. *)
Definition entry_line (pattern : Pattern.t) : string :=
  "- `" ++ Pattern.directory pattern ++ "`" ++ nl.

(** A category whose name is a property every object inherits. *)
Definition inherited (category : string) : bool :=
  existsb (String.eqb category) Object_prototype_keys.

End Report.

(** ** The command line of the notifier *)

Module NotifierCli.

Import Effects Notifier.

(** The white space of [trim] and of [\s] among the units that fit in eight
    bits: tab, line feed, vertical tab, form feed, carriage return, space
    and the no-break space. *)
Definition is_space : ascii -> bool :=
  Detect.unit_in [9; 10; 11; 12; 13; 32; 160].

Fixpoint trimStart (s : string) : string :=
  match s with
  | EmptyString => EmptyString
  | String c t => if is_space c then trimStart t else s
  end.

Fixpoint trimEnd (s : string) : string :=
  match s with
  | EmptyString => EmptyString
  | String c t =>
      let t' := trimEnd t in
      if is_space c && negb (JS.truthy t') then EmptyString else String c t'
  end.

(** [s.trim()] *)
Definition trim (s : string) : string := trimEnd (trimStart s).

(** [s.split(/\s+/)], read from left to right: [word] is the piece being
    read, and [in_gap] tells that the unit before was white space.  A string
    that begins or ends with white space gives an empty piece there. *)
Fixpoint split_spaces (in_gap : bool) (word : string) (s : string)
  : list string :=
  match s with
  | EmptyString => [word]
  | String c t =>
      if is_space c then
        if in_gap then split_spaces true EmptyString t
        else word :: split_spaces true EmptyString t
      else split_spaces false (word ++ String c EmptyString) t
  end.

Definition split (s : string) : list string := split_spaces false EmptyString s.

(** The entries [main] hands to [run]: its arguments, or the pieces of the
    only argument when that has a space. *)
Definition patternDirs_of (args : list string) : list string :=
  match args with
  | [arg] => if JS.includes arg " " then split (trim arg) else args
  | _ => args
  end.

(** A unit that is printed and is no space. *)
Definition is_graphic (c : ascii) : bool :=
  (32 <? nat_of_ascii c)%nat && (nat_of_ascii c <? 127)%nat.

(** A name written in ASCII without white space. *)
Definition argument_word (w : string) : Prop :=
  JS.truthy w = true /\ all_units is_graphic w = true.

End NotifierCli.

(** ** patterns/lambda-sqs-processing/implementation/handler.js *)

Module Lambda.

Import Effects.
Local Open Scope method_scope.

(** What [handler] returns. *)
Record Response : Type := mkResponse {
  statusCode : nat;
  body : string
}.

(** [processMessage(message)]: the state is the list of the messages the
    business logic has been run for. *)
Definition processMessage {M : Type} (message : M) : Method (list M) unit :=
  done <- get ;;
  put (done ++ [message])%list.

(** [JSON.stringify({ processed: n })] *)
Definition processed_json (n : nat) : string :=
  "{" ++ JS.dquote ++ "processed" ++ JS.dquote ++ ":" ++ Notifier.decimal n ++ "}".

(** [exports.handler(event)]; [Records] are the bodies of [event.Records],
    and [JSON_parse] is [JSON.parse].  The [catch] block logs the error and
    throws it again. *)
Definition handler {M : Type} (JSON_parse : string -> Validator.Parsed M)
  (Records : list string) : Method (list M) Response :=
  for_of Records (fun record_body (_ : unit) =>
    match JSON_parse record_body with
    | Validator.ParseOk messageBody => processMessage messageBody
    | Validator.ParseError msg => throw msg
    end) tt ;;
  ret (mkResponse 200 (processed_json (length Records))).

End Lambda.

(** ** notify-reviewers.js on any metadata

    [Notifier] above is the notifier on metadata whose [category], when it
    is there, is a string.  [yaml.load] gives whatever the document holds,
    and the script hands it on as it is.  This module models the class for
    every value of [category]. *)

Module ReviewerNotifier.

Import Effects.
Local Open Scope method_scope.

(** A value of the [category] key, as far as the script can tell values
    apart. *)
Inductive Value : Type :=
| Text (s : string)
    (* a string *)
| Primitive (text : string)
    (* a number other than 0 and NaN, or [true]; [text] is [String(v)] *)
| Reference (key : option string).
    (* a mapping, a sequence, a date: an object.  [key] is the property key
       it is converted to, [None] when the conversion throws, as it does for
       a mapping whose own [toString] is no function *)

(** Only the empty string is falsy here: [null], [false], 0 and [NaN] are
    read as an absent key. *)
Definition truthy (v : Value) : bool :=
  match v with
  | Text s => JS.truthy s
  | Primitive _ | Reference _ => true
  end.

(** [table[v]] and a template literal turn [v] into a string; an object
    whose conversion fails makes both throw a [TypeError]. *)
Definition property_key (v : Value) : option string :=
  match v with
  | Text s => Some s
  | Primitive text => Some text
  | Reference key => key
  end.

Definition cannot_convert : string :=
  "Cannot convert object to primitive value".

Definition cannot_read_map : string :=
  "Cannot read properties of undefined (reading 'map')".

(** What [yaml.load] returns, as far as the notifier reads it: [undefined]
    or [null] for an empty document, else a value with or without a truthy
    [category]. *)
Inductive Document : Type :=
| Empty
| Loaded (category : option Value).

(** The files, and [yaml.load] with the documents as above. *)
Record Sources : Type := mkSources {
  files : Validator.Platform;
  yaml_load : string -> Validator.Parsed Document
}.

(** [getPatternCategory(patternDir)]; [None] is [null]. *)
Definition getPatternCategory (S : Sources) (patternDir : string)
  : option Value :=
  let patternYamlPath :=
    Validator.path_join (files S) [patternDir; "pattern.yaml"] in
  if negb (Validator.existsSync (files S) patternYamlPath) then None
  else
    match Validator.readFileSync (files S) patternYamlPath with
    | Validator.ParseError _ => None
    | Validator.ParseOk yamlContent =>
        match yaml_load S yamlContent with
        | Validator.ParseError _ => None
        | Validator.ParseOk Empty => None
        | Validator.ParseOk (Loaded (Some v)) =>
            if truthy v then Some v else None
        | Validator.ParseOk (Loaded None) => None
        end
    end.

(** A category held by the notifier.  Two objects are the same key of a
    [Map] only when they are one object; [loaded] tells which call of
    [yaml.load] made the object. *)
Inductive Category : Type :=
| OfText (s : string)
| OfPrimitive (text : string)
| OfReference (loaded : nat) (key : option string).

Definition held (loaded : nat) (v : Value) : Category :=
  match v with
  | Text s => OfText s
  | Primitive text => OfPrimitive text
  | Reference key => OfReference loaded key
  end.

Definition key_of (c : Category) : option string :=
  match c with
  | OfText s => Some s
  | OfPrimitive text => Some text
  | OfReference _ key => key
  end.

(** The comparison of the keys of a [Map]. *)
Definition same (a b : Category) : bool :=
  match a, b with
  | OfText s, OfText s' => String.eqb s s'
  | OfPrimitive t, OfPrimitive t' => String.eqb t t'
  | OfReference i _, OfReference j _ => (i =? j)%nat
  | _, _ => false
  end.

Definition Map_has {V} (k : Category) (m : list (Category * V)) : bool :=
  existsb (fun kv => same (fst kv) k) m.

Fixpoint Map_set {V} (k : Category) (v : V) (m : list (Category * V))
  : list (Category * V) :=
  match m with
  | [] => [(k, v)]
  | kv :: rest =>
      if same (fst kv) k then (k, v) :: rest
      else kv :: Map_set k v rest
  end.

Definition Map_update {V} (k : Category) (f : V -> V)
  (m : list (Category * V)) : list (Category * V) :=
  map (fun kv => if same (fst kv) k then (fst kv, f (snd kv)) else kv) m.

Module Pattern.
Record t : Type := mk {
  directory : string;
  category : Category;
  reviewers : list string
}.
End Pattern.

Record State : Type := mkState {
  allReviewers : list string;
  categoryReviewers : list (Category * list string);
  patterns : list Pattern.t;
  github_output : list string
}.

Definition fresh : State := mkState [] [] [] [].

Definition Method (A : Type) : Type := Effects.Method State A.

(** [getReviewersForCategory(category)]: [SME_MAPPING[category]] is outside
    any [try]. *)
Definition getReviewersForCategory (category : option Value)
  : Method (list string) :=
  match category with
  | None => ret Notifier.FALLBACK_REVIEWERS
  | Some v =>
      if negb (truthy v) then ret Notifier.FALLBACK_REVIEWERS
      else
        match property_key v with
        | None => throw cannot_convert
        | Some key =>
            match Notifier.lookup_property Notifier.SME_MAPPING key with
            | Notifier.Own sme => ret (Notifier.Sme.reviewers sme)
            | Notifier.Inherited | Notifier.Undefined =>
                ret Notifier.FALLBACK_REVIEWERS
            end
        end
  end.

(** The body of the loop of [processPatterns]. *)
Definition processPattern (S : Sources) (patternDir : string) : Method unit :=
  n <- get ;;
  let category := getPatternCategory S patternDir in
  let label :=
    match category with
    | Some v => held (length (patterns n)) v
    | None => OfText "unknown"
    end in
  reviewers <- getReviewersForCategory category ;;
  put (mkState (allReviewers n) (categoryReviewers n)
         (patterns n ++ [Pattern.mk patternDir label reviewers])%list
         (github_output n)) ;;
  match category with
  | Some _ =>
      n <- get ;;
      (if negb (Map_has label (categoryReviewers n)) then
         put (mkState (allReviewers n) (Map_set label [] (categoryReviewers n))
                (patterns n) (github_output n))
       else ret tt) ;;
      for_of reviewers (fun reviewer (_ : unit) =>
        n <- get ;;
        put (mkState (Notifier.Set_add reviewer (allReviewers n))
               (Map_update label (Notifier.Set_add reviewer)
                  (categoryReviewers n))
               (patterns n) (github_output n))) tt
  | None => ret tt
  end.

(** [processPatterns(patternDirs)] *)
Definition processPatterns (S : Sources) (patternDirs : list string)
  : Method unit :=
  if (length patternDirs =? 0)%nat then ret tt
  else for_of patternDirs (fun patternDir (_ : unit) =>
         processPattern S patternDir) tt.

(** Grouping of [this.patterns] by category, in a [Map] of arrays. *)
Definition group_patterns (ps : list Pattern.t)
  : list (Category * list Pattern.t) :=
  fold_left (fun patternsByCategory pattern =>
               let m :=
                 if negb (Map_has (Pattern.category pattern) patternsByCategory)
                 then Map_set (Pattern.category pattern) [] patternsByCategory
                 else patternsByCategory in
               Map_update (Pattern.category pattern)
                 (fun arr => (arr ++ [pattern])%list) m)
            ps [].

Definition pattern_lines (ps : list Pattern.t) : string :=
  fold_left (fun comment pattern =>
               (comment ++ "- `" ++ Pattern.directory pattern ++ "`"
                        ++ Notifier.nl)%string)
            ps EmptyString.

(** One turn of the loop over [patternsByCategory]. *)
Definition category_section (comment : string)
  (entry : Category * list Pattern.t) : Completion string :=
  match key_of (fst entry) with
  | None => Throws cannot_convert
  | Some key =>
      let icon := Notifier.getCategoryIcon key in
      match Notifier.lookup_property Notifier.SME_MAPPING key with
      | Notifier.Own sme =>
          let reviewerMentions :=
            JS.join ", " (map (fun r => ("@" ++ r)%string)
                            (Notifier.Sme.reviewers sme)) in
          Normal (comment ++ "### " ++ icon ++ " " ++
                  Notifier.Sme.description sme ++ Notifier.nl ++ Notifier.nl ++
                  "**Reviewers:** " ++ reviewerMentions ++
                  Notifier.nl ++ Notifier.nl ++
                  "**Patterns:**" ++ Notifier.nl ++
                  pattern_lines (snd entry) ++ Notifier.nl)
      | Notifier.Inherited => Throws cannot_read_map
      | Notifier.Undefined =>
          Normal (comment ++ "### " ++ icon ++ " " ++ key ++
                  Notifier.nl ++ Notifier.nl ++
                  "**Patterns:**" ++ Notifier.nl ++
                  pattern_lines (snd entry) ++ Notifier.nl)
      end
  end.

Fixpoint category_sections (comment : string)
  (entries : list (Category * list Pattern.t)) : Completion string :=
  match entries with
  | [] => Normal comment
  | entry :: rest =>
      match category_section comment entry with
      | Normal comment' => category_sections comment' rest
      | Throws msg => Throws msg
      end
  end.

(** [generateComment()]; [None] is [null]. *)
Definition generateComment : Method (option string) :=
  n <- get ;;
  if (length (patterns n) =? 0)%nat then ret None
  else
    match category_sections Notifier.comment_header
            (group_patterns (patterns n)) with
    | Throws msg => throw msg
    | Normal comment => ret (Some (comment ++ Notifier.review_checklist))
    end.

Definition appendFileSync (text : string) : Method unit :=
  n <- get ;;
  put (mkState (allReviewers n) (categoryReviewers n) (patterns n)
         (github_output n ++ [text])%list).

Module Output.
Record t : Type := mk {
  reviewers : list string;
  patterns : list Pattern.t;
  comment : option string
}.
End Output.

(** [generateOutput()] *)
Definition generateOutput (env_GITHUB_OUTPUT : bool) : Method Output.t :=
  n <- get ;;
  let reviewersList := allReviewers n in
  let reviewersJson := Notifier.JSON_stringify reviewersList in
  (if env_GITHUB_OUTPUT then
     appendFileSync ("reviewers=" ++ reviewersJson ++ Notifier.nl) ;;
     appendFileSync ("reviewer_count=" ++
                     Notifier.decimal (length reviewersList) ++ Notifier.nl) ;;
     comment <- generateComment ;;
     match comment with
     | Some text =>
         if JS.truthy text then
           appendFileSync ("pr_comment<<EOF" ++ Notifier.nl ++ text ++
                           Notifier.nl ++ "EOF" ++ Notifier.nl)
         else ret tt
     | None => ret tt
     end
   else ret tt) ;;
  comment <- generateComment ;;
  n' <- get ;;
  ret (Output.mk reviewersList (patterns n') comment).

(** [run(patternDirs)] on a new notifier. *)
Definition run (S : Sources) (env_GITHUB_OUTPUT : bool)
  (patternDirs : list string) : Method Output.t :=
  processPatterns S patternDirs ;;
  generateOutput env_GITHUB_OUTPUT.

(** [main()] down to the exit code of the process. *)
Definition main (S : Sources) (env_GITHUB_OUTPUT : bool) (args : list string)
  : nat :=
  match args with
  | [] => 1
  | _ :: _ =>
      match fst (run S env_GITHUB_OUTPUT (NotifierCli.patternDirs_of args)
                   fresh) with
      | Normal _ => 0
      | Throws _ => 1
      end
  end.

(** The two statements of the [try] block of [getPatternCategory]. *)
Definition load_document (S : Sources) (patternYamlPath : string)
  : Validator.Parsed Document :=
  match Validator.readFileSync (files S) patternYamlPath with
  | Validator.ParseError msg => Validator.ParseError msg
  | Validator.ParseOk yamlContent => yaml_load S yamlContent
  end.

(** The reviewers of a category by its key. *)
Definition reviewers_for (category : option Value) : list string :=
  match category with
  | Some v =>
      match property_key v with
      | Some key =>
          match Notifier.lookup_property Notifier.SME_MAPPING key with
          | Notifier.Own sme => Notifier.Sme.reviewers sme
          | Notifier.Inherited | Notifier.Undefined =>
              Notifier.FALLBACK_REVIEWERS
          end
      | None => Notifier.FALLBACK_REVIEWERS
      end
  | None => Notifier.FALLBACK_REVIEWERS
  end.

(** The assignment the loop pushes for an entry after [loaded] others. *)
Definition assignment (S : Sources) (loaded : nat) (patternDir : string)
  : Pattern.t :=
  Pattern.mk patternDir
    match getPatternCategory S patternDir with
    | Some v => held loaded v
    | None => OfText "unknown"
    end
    (reviewers_for (getPatternCategory S patternDir)).

Fixpoint assignments (S : Sources) (loaded : nat) (patternDirs : list string)
  : list Pattern.t :=
  match patternDirs with
  | [] => []
  | patternDir :: rest =>
      assignment S loaded patternDir :: assignments S (Datatypes.S loaded) rest
  end.

(** A category that can be used as a property key. *)
Definition has_key (category : option Value) : bool :=
  match category with
  | Some v => match property_key v with Some _ => true | None => false end
  | None => true
  end.

(** A category whose key names a property every object inherits. *)
Definition inherited (category : option Value) : bool :=
  match category with
  | Some v =>
      match property_key v with
      | Some key => Report.inherited key
      | None => false
      end
  | None => false
  end.

(** A category held by the notifier that makes the report throw: it has no
    key, or its key names an inherited property. *)
Definition unusable (c : Category) : bool :=
  match key_of c with
  | Some key => Report.inherited key
  | None => true
  end.

(** The documents of [Notifier]: those whose category, if any, is a
    string. *)
Definition textual (d : Validator.YamlValue) : Document :=
  match d with
  | Validator.YEmpty => Empty
  | Validator.YRecord r =>
      Loaded (option_map Text (Validator.category r))
  end.

Definition textual_sources (P : Validator.Platform) : Sources :=
  mkSources P (fun content =>
    match Validator.yaml_load P content with
    | Validator.ParseOk d => Validator.ParseOk (textual d)
    | Validator.ParseError msg => Validator.ParseError msg
    end).

End ReviewerNotifier.

(** Entries whose category is a string, a sequence, a number, a mapping that
    has no string form, and the name of an inherited property. *)

Module RoutingSamples.

Import Validator ReviewerNotifier.

Definition repository : Platform :=
  Examples.platform_of
    [ ("queue-worker/pattern.yaml", File "category: automation");
      ("listed/pattern.yaml", File "category: [security]");
      ("numbered/pattern.yaml", File "category: 7");
      ("keyless/pattern.yaml", File "category: {toString: 1}");
      ("odd-category/pattern.yaml", File "category: constructor") ]
    [].

Definition documents : list (string * Document) :=
  [ ("category: automation", Loaded (Some (Text "automation")));
    ("category: [security]", Loaded (Some (Reference (Some "security"))));
    ("category: 7", Loaded (Some (Primitive "7")));
    ("category: {toString: 1}", Loaded (Some (Reference None)));
    ("category: constructor", Loaded (Some (Text "constructor"))) ].

Definition sources : Sources :=
  mkSources repository
    (fun content =>
       match find (fun kv => String.eqb (fst kv) content) documents with
       | Some kv => ParseOk (snd kv)
       | None =>
           ParseError "end of the stream or a document separator is expected"
       end).

End RoutingSamples.

(** * Properties *)

Local Open Scope list_scope.

(** ** Strings *)

Section StringFacts.

Lemma append_empty_r (s : string) : (s ++ EmptyString)%string = s.
Proof. induction s as [|c s IH]; simpl; [reflexivity | now rewrite IH]. Qed.

Lemma append_assoc (a b c : string) :
  ((a ++ b) ++ c)%string = (a ++ (b ++ c))%string.
Proof. induction a as [|x a IH]; simpl; [reflexivity | now rewrite IH]. Qed.

Lemma append_eq_empty (a b : string) :
  (a ++ b)%string = EmptyString -> a = EmptyString /\ b = EmptyString.
Proof. destruct a; simpl; [auto | discriminate]. Qed.

Lemma all_units_app (p : ascii -> bool) (a b : string) :
  all_units p (a ++ b) = all_units p a && all_units p b.
Proof.
  induction a as [|c a IH]; simpl; [reflexivity|].
  now rewrite IH, andb_assoc.
Qed.

End StringFacts.

(** ** The derivative matcher decides the language of the expression *)

Module RegExpFacts.

Import RegExp.

Lemma nullable_matches (r : regex) :
  nullable r = true <-> Matches r EmptyString.
Proof.
  induction r as [| | c | lo hi | r1 IH1 r2 IH2 | r1 IH1 r2 IH2 | r IH]; simpl.
  - split; [discriminate | intros H; inversion H].
  - split; [constructor | reflexivity].
  - split; [discriminate | intros H; inversion H].
  - split; [discriminate | intros H; inversion H].
  - rewrite orb_true_iff, IH1, IH2. split.
    + intros [H | H]; [now apply MAltL | now apply MAltR].
    + intros H; inversion H; subst; auto.
  - rewrite andb_true_iff, IH1, IH2. split.
    + intros [H1 H2]. change EmptyString with (EmptyString ++ EmptyString)%string.
      now constructor.
    + intros H; inversion H as [| | | | | ? ? s1 s2 M1 M2 | |]; subst.
      match goal with
      | E : (_ ++ _)%string = EmptyString |- _ =>
          destruct (append_eq_empty _ _ E) as [-> ->]
      end. now split.
  - split; [constructor | reflexivity].
Qed.

Lemma deriv_sound (c : ascii) (r : regex) :
  forall s, Matches (deriv c r) s -> Matches r (String c s).
Proof.
  induction r as [| | d | lo hi | r1 IH1 r2 IH2 | r1 IH1 r2 IH2 | r IH];
    simpl; intros s H.
  - inversion H.
  - inversion H.
  - destruct (Ascii.eqb_spec c d) as [->|]; inversion H; subst. constructor.
  - destruct (in_range lo hi c) eqn:R; inversion H; subst. now constructor.
  - inversion H; subst; [apply MAltL | apply MAltR]; auto.
  - destruct (nullable r1) eqn:N.
    + inversion H as [| | | ? ? ? HL | ? ? ? HR | | |]; subst.
      * inversion HL as [| | | | | ? ? s1 s2 M1 M2 | |]; subst.
        change (String c (s1 ++ s2)) with (String c s1 ++ s2)%string.
        constructor; auto.
      * change (String c s) with (EmptyString ++ String c s)%string.
        constructor; [now apply nullable_matches | auto].
    + inversion H as [| | | | | ? ? s1 s2 M1 M2 | |]; subst.
      change (String c (s1 ++ s2)) with (String c s1 ++ s2)%string.
      constructor; auto.
  - inversion H as [| | | | | ? ? s1 s2 M1 M2 | |]; subst.
    change (String c (s1 ++ s2)) with (String c s1 ++ s2)%string.
    apply MStarApp; auto.
Qed.

Lemma deriv_complete (c : ascii) (r : regex) (w : string) :
  Matches r w -> forall s, w = String c s -> Matches (deriv c r) s.
Proof.
  induction 1 as [| d | lo hi d R | r1 r2 w M IH | r1 r2 w M IH
                 | r1 r2 s1 s2 M1 IH1 M2 IH2 | r | r s1 s2 M1 IH1 M2 IH2];
    intros s E; simpl.
  - discriminate.
  - injection E as -> <-. rewrite Ascii.eqb_refl. constructor.
  - injection E as -> <-. rewrite R. constructor.
  - apply MAltL; auto.
  - apply MAltR; auto.
  - destruct s1 as [|x s1]; simpl in E.
    + subst s2. assert (N : nullable r1 = true) by now apply nullable_matches.
      rewrite N. apply MAltR; auto.
    + injection E as -> <-.
      destruct (nullable r1); [apply MAltL|]; constructor; auto.
  - discriminate.
  - destruct s1 as [|x s1]; simpl in E.
    + auto.
    + injection E as -> <-. constructor; auto.
Qed.

Lemma deriv_matches (c : ascii) (r : regex) (s : string) :
  Matches (deriv c r) s <-> Matches r (String c s).
Proof.
  split; [apply deriv_sound | intros H; now apply deriv_complete with (1 := H)].
Qed.

Lemma test_matches (s : string) :
  forall r, test r s = true <-> Matches r s.
Proof.
  induction s as [|c s IH]; intros r; simpl.
  - apply nullable_matches.
  - rewrite IH. apply deriv_matches.
Qed.

Lemma lower_or_digit_unit (c : ascii) :
  in_range "a" "z" c || in_range "0" "9" c = is_lower_or_digit c.
Proof. destruct c as [[] [] [] [] [] [] [] []]; reflexivity. Qed.

Lemma lower_or_digit_matches (w : string) :
  Matches lower_or_digit w <->
  exists c, w = String c EmptyString /\ is_lower_or_digit c = true.
Proof.
  unfold lower_or_digit. split.
  - intros H; inversion H as [| | | ? ? ? HL | ? ? ? HR | | |]; subst.
    + inversion HL; subst. eexists; split; [reflexivity|].
      rewrite <- lower_or_digit_unit. apply orb_true_iff; auto.
    + inversion HR; subst. eexists; split; [reflexivity|].
      rewrite <- lower_or_digit_unit. apply orb_true_iff; auto.
  - intros (c & -> & H). rewrite <- lower_or_digit_unit in H.
    apply orb_true_iff in H as [H | H];
      [apply MAltL | apply MAltR]; now constructor.
Qed.

Lemma star_lower_or_digit (r : regex) (w : string) :
  Matches r w -> r = Star lower_or_digit ->
  all_units is_lower_or_digit w = true.
Proof.
  induction 1 as [| | | | | | r | r s1 s2 M1 _ M2 IH2]; intros E;
    try discriminate.
  - reflexivity.
  - injection E as ->. apply lower_or_digit_matches in M1 as (c & -> & Hc).
    simpl. rewrite Hc. now apply IH2.
Qed.

Lemma all_units_star (w : string) :
  all_units is_lower_or_digit w = true -> Matches (Star lower_or_digit) w.
Proof.
  induction w as [|c w IH]; simpl; intros H.
  - constructor.
  - apply andb_true_iff in H as [Hc Hw].
    change (String c w) with (String c EmptyString ++ w)%string.
    apply MStarApp; [|auto].
    apply lower_or_digit_matches. now exists c.
Qed.

Lemma plus_lower_or_digit (w : string) :
  Matches (Plus lower_or_digit) w <-> kebab_segment w.
Proof.
  unfold Plus, kebab_segment. split.
  - intros H; inversion H as [| | | | | ? ? s1 s2 M1 M2 | |]; subst.
    apply lower_or_digit_matches in M1 as (c & -> & Hc). simpl. split.
    + discriminate.
    + rewrite Hc. now apply star_lower_or_digit with (1 := M2).
  - intros [Hne H]. destruct w as [|c w]; [congruence|]. simpl in H.
    apply andb_true_iff in H as [Hc Hw].
    change (String c w) with (String c EmptyString ++ w)%string.
    constructor; [|now apply all_units_star].
    apply lower_or_digit_matches. now exists c.
Qed.

End RegExpFacts.

(** ** The validator's pattern is kebab case *)

Module KebabFacts.

Import RegExp RegExpFacts.

Lemma concat_hyphenated (segs : list string) :
  forall seg, String.concat "-" (seg :: segs) = (seg ++ hyphenated segs)%string.
Proof.
  induction segs as [|s segs IH]; intros seg.
  - simpl. now rewrite append_empty_r.
  - change (String.concat "-" (seg :: s :: segs))
      with (seg ++ "-" ++ String.concat "-" (s :: segs))%string.
    rewrite IH. reflexivity.
Qed.

Lemma star_hyphen_segments (r : regex) (w : string) :
  Matches r w -> r = Star hyphen_segment ->
  exists segs, Forall kebab_segment segs /\ w = hyphenated segs.
Proof.
  induction 1 as [| | | | | | r | r s1 s2 M1 _ M2 IH2]; intros E;
    try discriminate.
  - exists []. split; [constructor | reflexivity].
  - injection E as ->. destruct (IH2 eq_refl) as (segs & Hsegs & ->).
    unfold hyphen_segment in M1.
    inversion M1 as [| | | | | ? ? h seg Mh Mseg | |]; subst.
    inversion Mh; subst.
    exists (seg :: segs). split.
    + constructor; [now apply plus_lower_or_digit | assumption].
    + reflexivity.
Qed.

Lemma hyphenated_star (segs : list string) :
  Forall kebab_segment segs -> Matches (Star hyphen_segment) (hyphenated segs).
Proof.
  induction 1 as [|seg segs Hseg _ IH]; simpl.
  - constructor.
  - change (String "-" (seg ++ hyphenated segs))
      with ("-" ++ (seg ++ hyphenated segs))%string.
    rewrite <- append_assoc.
    apply MStarApp; [|assumption].
    unfold hyphen_segment. constructor; [constructor|].
    now apply plus_lower_or_digit.
Qed.

Lemma kebabCaseRegex_matches (s : string) :
  Matches kebabCaseRegex s <-> kebab_case s.
Proof.
  unfold kebabCaseRegex, kebab_case. split.
  - intros H; inversion H as [| | | | | ? ? s1 s2 M1 M2 | |]; subst.
    destruct (star_hyphen_segments _ _ M2 eq_refl) as (segs & Hsegs & ->).
    exists s1, segs. split.
    + constructor; [now apply plus_lower_or_digit | assumption].
    + symmetry. apply concat_hyphenated.
  - intros (seg & segs & Hall & ->). rewrite concat_hyphenated.
    inversion Hall; subst.
    constructor; [now apply plus_lower_or_digit | now apply hyphenated_star].
Qed.

Lemma kebabCaseRegex_test (s : string) :
  test kebabCaseRegex s = true <-> kebab_case s.
Proof. rewrite test_matches. apply kebabCaseRegex_matches. Qed.

Lemma kebabCaseRegex_rejects (s : string) :
  test kebabCaseRegex s = false <-> ~ kebab_case s.
Proof.
  rewrite <- kebabCaseRegex_test. destruct (test kebabCaseRegex s); split;
    congruence.
Qed.

End KebabFacts.

(** ** Methods that only record *)

Module ValidatorFacts.

Import Effects Validator.
Local Open Scope method_scope.

Lemma appended_fresh_l (d : State) : appended fresh d = d.
Proof. now destruct d. Qed.

Lemma appended_fresh_r (v : State) : appended v fresh = v.
Proof. destruct v; unfold appended; simpl. now rewrite !app_nil_r. Qed.

Lemma appended_assoc (v d e : State) :
  appended (appended v d) e = appended v (appended d e).
Proof. unfold appended; simpl. now rewrite !app_assoc. Qed.

Section Combinators.

Context {A B : Type}.

Lemma recording_ret (a : A) : recording (ret a).
Proof. intros v. unfold ret, after; simpl. now rewrite appended_fresh_r. Qed.

Lemma recording_throw (msg : string) : recording (@throw State A msg).
Proof. intros v. unfold throw, after; simpl. now rewrite appended_fresh_r. Qed.

Lemma recording_bind (m : Method A) (k : A -> Method B) :
  recording m -> (forall a, recording (k a)) -> recording (bind m k).
Proof.
  intros Hm Hk v. unfold bind, after. rewrite (Hm v). unfold after.
  destruct (m fresh) as [[a | msg] d]; simpl; [|reflexivity].
  rewrite (Hk a (appended v d)), (Hk a d). unfold after; simpl.
  now rewrite appended_assoc.
Qed.

(** Running a recording method after some state [v]. *)
Lemma bind_recording (m : Method A) (k : A -> Method B) (v : State) :
  recording m ->
  bind m k v =
  match fst (m fresh) with
  | Normal a => k a (appended v (after m))
  | Throws msg => (Throws msg, appended v (after m))
  end.
Proof.
  intros Hm. unfold bind. rewrite (Hm v). now destruct (fst (m fresh)).
Qed.

End Combinators.

Lemma recording_for_of {A L : Type} (xs : list A) (body : A -> L -> Method L) :
  (forall x l, recording (body x l)) -> forall l, recording (for_of xs body l).
Proof.
  intros Hbody. induction xs as [|x xs IH]; intros l; simpl.
  - apply recording_ret.
  - apply recording_bind; [apply Hbody | assumption].
Qed.

Lemma recording_error (msg : string) : recording (error msg).
Proof. intros v. unfold error, appended, after; simpl. now rewrite !app_nil_r. Qed.

Lemma recording_warning (msg : string) : recording (warning msg).
Proof. intros v. unfold warning, appended, after; simpl. now rewrite !app_nil_r. Qed.

Lemma recording_success (msg : string) : recording (success msg).
Proof. intros v. unfold success, appended, after; simpl. now rewrite !app_nil_r. Qed.

(** Breaks a method into its statements. *)
Ltac recording_step :=
  match goal with
  | |- recording (bind _ _) => apply recording_bind; [|intros ?]
  | |- recording (ret _) => apply recording_ret
  | |- recording (throw _) => apply recording_throw
  | |- recording (error _) => apply recording_error
  | |- recording (warning _) => apply recording_warning
  | |- recording (success _) => apply recording_success
  | |- recording (for_of _ _ _) => apply recording_for_of; intros ? ?
  | |- recording (if ?b then _ else _) => destruct b
  | |- recording (match ?x with _ => _ end) => destruct x
  end.

Ltac recording := repeat recording_step.

Lemma validatePatternId_recording (patternDir : string) :
  recording (validatePatternId patternDir).
Proof. unfold validatePatternId. recording. Qed.

Lemma validateRequiredFiles_recording (P : Platform) (patternDir : string) :
  recording (validateRequiredFiles P patternDir).
Proof. unfold validateRequiredFiles. recording. Qed.

Lemma check_snippets_recording (P : Platform) (patternDir : string)
  (snippets : list Snippet) :
  recording (check_snippets P patternDir snippets).
Proof.
  induction snippets as [|snippet rest IH]; simpl; recording. assumption.
Qed.

Lemma check_referenced_files_recording (P : Platform) (patternDir : string)
  (patternData : YamlValue) :
  recording (check_referenced_files P patternDir patternData).
Proof.
  unfold check_referenced_files. recording;
    apply check_snippets_recording.
Qed.

Lemma validatePatternYaml_recording (P : Platform) (patternDir repoRoot : string) :
  recording (validatePatternYaml P patternDir repoRoot).
Proof.
  unfold validatePatternYaml. recording.
  apply check_referenced_files_recording.
Qed.

Lemma validateReadme_recording (P : Platform) (patternDir : string) :
  recording (validateReadme P patternDir).
Proof. unfold validateReadme. recording. Qed.

(** *** Parts of the state a method leaves alone *)

Lemma keeps_ret {A X} (f : State -> X) (a : A) : keeps f (ret a).
Proof. now intros v. Qed.

Lemma keeps_throw {A X} (f : State -> X) (msg : string) :
  keeps f (@throw State A msg).
Proof. now intros v. Qed.

Lemma keeps_bind {A B X} (f : State -> X) (m : Method A) (k : A -> Method B) :
  keeps f m -> (forall a, keeps f (k a)) -> keeps f (bind m k).
Proof.
  intros Hm Hk v. unfold bind. specialize (Hm v).
  destruct (m v) as [[a | msg] v']; simpl in *; [|assumption].
  now rewrite Hk.
Qed.

Lemma keeps_for_of {A L X} (f : State -> X) (xs : list A)
  (body : A -> L -> Method L) :
  (forall x l, keeps f (body x l)) -> forall l, keeps f (for_of xs body l).
Proof.
  intros Hbody. induction xs as [|x xs IH]; intros l; simpl.
  - apply keeps_ret.
  - apply keeps_bind; [apply Hbody | assumption].
Qed.

Lemma error_keeps_warnings (msg : string) : keeps warnings (error msg).
Proof. now intros v. Qed.

Lemma success_keeps_warnings (msg : string) : keeps warnings (success msg).
Proof. now intros v. Qed.

Lemma warning_keeps_errors (msg : string) : keeps errors (warning msg).
Proof. now intros v. Qed.

Lemma success_keeps_errors (msg : string) : keeps errors (success msg).
Proof. now intros v. Qed.

Ltac keeps_step :=
  match goal with
  | |- keeps _ (bind _ _) => apply keeps_bind; [|intros ?]
  | |- keeps _ (ret _) => apply keeps_ret
  | |- keeps _ (throw _) => apply keeps_throw
  | |- keeps warnings (error _) => apply error_keeps_warnings
  | |- keeps warnings (success _) => apply success_keeps_warnings
  | |- keeps errors (warning _) => apply warning_keeps_errors
  | |- keeps errors (success _) => apply success_keeps_errors
  | |- keeps _ (for_of _ _ _) => apply keeps_for_of; intros ? ?
  | |- keeps _ (if ?b then _ else _) => destruct b
  | |- keeps _ (match ?x with _ => _ end) => destruct x
  end.

Ltac keeps := repeat keeps_step.

Lemma validatePatternId_keeps_warnings (patternDir : string) :
  keeps warnings (validatePatternId patternDir).
Proof. unfold validatePatternId. keeps. Qed.

Lemma validateRequiredFiles_keeps_warnings (P : Platform) (patternDir : string) :
  keeps warnings (validateRequiredFiles P patternDir).
Proof. unfold validateRequiredFiles. keeps. Qed.

Lemma check_snippets_keeps_warnings (P : Platform) (patternDir : string)
  (snippets : list Snippet) :
  keeps warnings (check_snippets P patternDir snippets).
Proof.
  induction snippets as [|snippet rest IH]; simpl; keeps. assumption.
Qed.

Lemma validatePatternYaml_keeps_warnings (P : Platform)
  (patternDir repoRoot : string) :
  keeps warnings (validatePatternYaml P patternDir repoRoot).
Proof.
  unfold validatePatternYaml, check_referenced_files. keeps;
    apply check_snippets_keeps_warnings.
Qed.

Lemma validateReadme_keeps_errors (P : Platform) (patternDir : string) :
  keeps errors (validateReadme P patternDir).
Proof. unfold validateReadme. keeps. Qed.

(** *** Methods that never throw *)

Lemma total_ret {A} (a : A) : total (ret a).
Proof. intros v. now exists a. Qed.

Lemma total_bind {A B} (m : Method A) (k : A -> Method B) :
  total m -> (forall a, total (k a)) -> total (bind m k).
Proof.
  intros Hm Hk v. unfold bind. destruct (Hm v) as [a Ha].
  destruct (m v) as [c v']; simpl in Ha; subst c. apply Hk.
Qed.

Lemma total_for_of {A L} (xs : list A) (body : A -> L -> Method L) :
  (forall x l, total (body x l)) -> forall l, total (for_of xs body l).
Proof.
  intros Hbody. induction xs as [|x xs IH]; intros l; simpl.
  - apply total_ret.
  - apply total_bind; [apply Hbody | assumption].
Qed.

Lemma total_error (msg : string) : total (error msg).
Proof. intros v. now exists tt. Qed.

Lemma total_success (msg : string) : total (success msg).
Proof. intros v. now exists tt. Qed.

Ltac total_step :=
  match goal with
  | |- total (bind _ _) => apply total_bind; [|intros ?]
  | |- total (ret _) => apply total_ret
  | |- total (error _) => apply total_error
  | |- total (success _) => apply total_success
  | |- total (for_of _ _ _) => apply total_for_of; intros ? ?
  | |- total (if ?b then _ else _) => destruct b
  end.

Lemma validatePatternId_total (patternDir : string) :
  total (validatePatternId patternDir).
Proof. unfold validatePatternId. repeat total_step. Qed.

Lemma validateRequiredFiles_total (P : Platform) (patternDir : string) :
  total (validateRequiredFiles P patternDir).
Proof. unfold validateRequiredFiles. repeat total_step. Qed.

(** *** A whole run *)

Section Run.

Variable P : Platform.
Variables patternDir repoRoot : string.

Lemma validate_steps :
  validate P patternDir repoRoot fresh =
  let v3 :=
    appended
      (appended (after (validatePatternId patternDir))
                (after (validateRequiredFiles P patternDir)))
      (after (validatePatternYaml P patternDir repoRoot)) in
  match fst (validatePatternYaml P patternDir repoRoot fresh) with
  | Throws msg => (Throws msg, v3)
  | Normal _ =>
      match fst (validateReadme P patternDir fresh) with
      | Throws msg =>
          (Throws msg, appended v3 (after (validateReadme P patternDir)))
      | Normal _ => summary (appended v3 (after (validateReadme P patternDir)))
      end
  end.
Proof.
  unfold validate.
  rewrite bind_recording by apply validatePatternId_recording.
  destruct (validatePatternId_total patternDir fresh) as [b1 ->].
  rewrite appended_fresh_l.
  rewrite bind_recording by apply validateRequiredFiles_recording.
  destruct (validateRequiredFiles_total P patternDir fresh) as [b2 ->].
  rewrite bind_recording by apply validatePatternYaml_recording.
  cbv zeta.
  destruct (fst (validatePatternYaml P patternDir repoRoot fresh))
    as [b3 | msg]; [|reflexivity].
  rewrite bind_recording by apply validateReadme_recording.
  destruct (fst (validateReadme P patternDir fresh)) as [b4 | msg];
    [|reflexivity].
  unfold summary, bind, no_errors, no_warnings, success, ret. simpl.
  destruct (_ =? 0)%nat; destruct (_ =? 0)%nat; reflexivity.
Qed.

Lemma summary_errors (v : State) : errors (snd (summary v)) = errors v.
Proof.
  unfold summary.
  destruct (_ =? 0)%nat; destruct (_ =? 0)%nat; reflexivity.
Qed.

Lemma summary_warnings (v : State) : warnings (snd (summary v)) = warnings v.
Proof.
  unfold summary.
  destruct (_ =? 0)%nat; destruct (_ =? 0)%nat; reflexivity.
Qed.

Lemma summary_code (v : State) :
  fst (summary v) = Normal (if verdict_fail v then 1 else 0).
Proof.
  unfold summary, verdict_fail.
  destruct (_ =? 0)%nat; destruct (_ =? 0)%nat; reflexivity.
Qed.

Lemma after_keeps {A X} (f : State -> X) (m : Method A) :
  keeps f m -> f (after m) = f fresh.
Proof. intros H. apply H. Qed.

Lemma README_adds_no_error : errors (after (validateReadme P patternDir)) = [].
Proof. apply (after_keeps errors). apply validateReadme_keeps_errors. Qed.

(** The errors of a run are those of the first three steps, in order. *)
Lemma validate_errors :
  errors (snd (validate P patternDir repoRoot fresh)) =
  errors (after (validatePatternId patternDir)) ++
  errors (after (validateRequiredFiles P patternDir)) ++
  errors (after (validatePatternYaml P patternDir repoRoot)).
Proof.
  rewrite validate_steps. cbv zeta.
  pose proof README_adds_no_error as R.
  destruct (fst (validatePatternYaml P patternDir repoRoot fresh));
    [destruct (fst (validateReadme P patternDir fresh))|];
    rewrite ?summary_errors; simpl; rewrite ?R, ?app_nil_r;
    now rewrite app_assoc.
Qed.

(** The warnings of a run are those of the README step, when it is reached. *)
Lemma validate_warnings :
  warnings (snd (validate P patternDir repoRoot fresh)) =
  match fst (validatePatternYaml P patternDir repoRoot fresh) with
  | Throws _ => []
  | Normal _ => warnings (after (validateReadme P patternDir))
  end.
Proof.
  rewrite validate_steps. cbv zeta.
  assert (W1 : warnings (after (validatePatternId patternDir)) = []).
  { apply (after_keeps warnings). apply validatePatternId_keeps_warnings. }
  assert (W2 : warnings (after (validateRequiredFiles P patternDir)) = []).
  { apply (after_keeps warnings). apply validateRequiredFiles_keeps_warnings. }
  assert (W3 : warnings (after (validatePatternYaml P patternDir repoRoot)) = []).
  { apply (after_keeps warnings). apply validatePatternYaml_keeps_warnings. }
  destruct (fst (validatePatternYaml P patternDir repoRoot fresh));
    [destruct (fst (validateReadme P patternDir fresh))|];
    rewrite ?summary_warnings; simpl; now rewrite W1, W2, W3.
Qed.

(** The exit code of the process. *)
Lemma main_exit_code_cases :
  main_exit_code P patternDir repoRoot =
  match fst (validatePatternYaml P patternDir repoRoot fresh),
        fst (validateReadme P patternDir fresh) with
  | Normal _, Normal _ =>
      if verdict_fail (snd (validate P patternDir repoRoot fresh)) then 1 else 0
  | _, _ => 1
  end.
Proof.
  unfold main_exit_code, verdict_fail. rewrite validate_errors.
  rewrite validate_steps. cbv zeta.
  pose proof README_adds_no_error as R.
  destruct (fst (validatePatternYaml P patternDir repoRoot fresh));
    [destruct (fst (validateReadme P patternDir fresh))|];
    try reflexivity.
  rewrite summary_code. unfold verdict_fail. simpl.
  now rewrite R, app_nil_r, app_assoc.
Qed.

End Run.

(** *** Which errors a step records *)

Lemma records_ret {A} (Q : string -> Prop) (a : A) : records Q (ret a).
Proof. intros v. exists []. simpl. now rewrite app_nil_r. Qed.

Lemma records_throw {A} (Q : string -> Prop) (msg : string) :
  records Q (@throw State A msg).
Proof. intros v. exists []. simpl. now rewrite app_nil_r. Qed.

Lemma records_bind {A B} (Q : string -> Prop) (m : Method A)
  (k : A -> Method B) :
  records Q m -> (forall a, records Q (k a)) -> records Q (bind m k).
Proof.
  intros Hm Hk v. unfold bind. destruct (Hm v) as (e1 & E1 & Q1).
  destruct (m v) as [[a | msg] v']; simpl in *.
  - destruct (Hk a v') as (e2 & E2 & Q2). exists (e1 ++ e2). split.
    + now rewrite E2, E1, app_assoc.
    + apply Forall_app. now split.
  - now exists e1.
Qed.

Lemma records_for_of {A L} (Q : string -> Prop) (xs : list A)
  (body : A -> L -> Method L) :
  (forall x l, In x xs -> records Q (body x l)) ->
  forall l, records Q (for_of xs body l).
Proof.
  induction xs as [|x xs IH]; intros Hbody l; simpl.
  - apply records_ret.
  - apply records_bind.
    + apply Hbody. now left.
    + intros l'. apply IH. intros y l0 Hy. apply Hbody. now right.
Qed.

Lemma records_error (Q : string -> Prop) (msg : string) :
  Q msg -> records Q (error msg).
Proof. intros H v. exists [msg]. split; [reflexivity | now constructor]. Qed.

Lemma records_success (Q : string -> Prop) (msg : string) :
  records Q (success msg).
Proof. intros v. exists []. simpl. now rewrite app_nil_r. Qed.

Ltac records_step :=
  match goal with
  | |- records _ (bind _ _) => apply records_bind; [|intros ?]
  | |- records _ (ret _) => apply records_ret
  | |- records _ (throw _) => apply records_throw
  | |- records _ (success _) => apply records_success
  | |- records _ (error _) => apply records_error; reflexivity
  | |- records _ (if ?b then _ else _) => destruct b
  | |- records _ (match ?x with _ => _ end) => destruct x
  end.

Lemma validateRequiredFiles_not_naming (P : Platform) (patternDir : string) :
  records not_naming (validateRequiredFiles P patternDir).
Proof.
  unfold validateRequiredFiles. apply records_bind; [|intros ok].
  - apply records_for_of. intros x l [<- | [<- | []]]; repeat records_step.
  - apply records_for_of. intros x l [<- | []]; repeat records_step.
Qed.

Lemma check_snippets_not_naming (P : Platform) (patternDir : string)
  (snippets : list Snippet) :
  records not_naming (check_snippets P patternDir snippets).
Proof.
  induction snippets as [|snippet rest IH]; simpl; repeat records_step.
  assumption.
Qed.

Lemma validatePatternYaml_not_naming (P : Platform)
  (patternDir repoRoot : string) :
  records not_naming (validatePatternYaml P patternDir repoRoot).
Proof.
  unfold validatePatternYaml, check_referenced_files. repeat records_step;
    try apply check_snippets_not_naming.
  apply records_for_of. intros ? ? _. repeat records_step.
Qed.

Lemma after_records {A} (Q : string -> Prop) (m : Method A) :
  records Q m -> Forall Q (errors (after m)).
Proof.
  intros H. destruct (H fresh) as (added & E & HQ). unfold after.
  now rewrite E.
Qed.

Lemma not_naming_differs (msg patternId : string) :
  not_naming msg -> msg <> naming_error patternId.
Proof. intros H ->. discriminate H. Qed.

(** *** The naming check *)

Lemma later_steps_no_naming_error (P : Platform) (patternDir repoRoot : string) :
  exists later,
    errors (snd (validate P patternDir repoRoot fresh)) =
    errors (after (validatePatternId patternDir)) ++ later /\
    ~ In (naming_error (JS.basename patternDir)) later.
Proof.
  exists (errors (after (validateRequiredFiles P patternDir)) ++
          errors (after (validatePatternYaml P patternDir repoRoot))).
  split; [apply validate_errors|].
  intros Hin. apply in_app_or in Hin.
  pose proof (after_records _ _
                (validateRequiredFiles_not_naming P patternDir)) as F1.
  pose proof (after_records _ _
                (validatePatternYaml_not_naming P patternDir repoRoot)) as F2.
  rewrite Forall_forall in F1, F2.
  destruct Hin as [Hin | Hin]; [apply F1 in Hin | apply F2 in Hin];
    now apply (not_naming_differs _ (JS.basename patternDir)) in Hin.
Qed.

(** C7.  The naming check passes exactly for the directories whose last
    path segment is in kebab case: one or more non-empty runs of lower case
    letters and digits joined by single hyphens.  For every other name it
    records one naming error, and no later step of the run records another;
    the empty name, capitals, an underscore, a doubled hyphen and a hyphen
    at either end are among the names it rejects. *)
Theorem naming_check_iff_kebab_case (P : Platform)
  (patternDir repoRoot : string) (v : State) :
  let patternId := JS.basename patternDir in
  let checked := validatePatternId patternDir v in
  (fst checked = Normal true <-> kebab_case patternId) /\
  (fst checked = Normal false <-> ~ kebab_case patternId) /\
  ((kebab_case patternId /\ errors (snd checked) = errors v) \/
   (~ kebab_case patternId /\
    errors (snd checked) = errors v ++ [naming_error patternId])) /\
  (exists later,
     errors (snd (validate P patternDir repoRoot fresh)) =
     errors (after (validatePatternId patternDir)) ++ later /\
     ~ In (naming_error patternId) later) /\
  Forall (fun name => ~ kebab_case name)
    [EmptyString; "MyPattern"; "my_pattern"; "my--pattern"; "-my-pattern";
     "my-pattern-"]%string.
Proof.
  intros patternId checked. subst checked. unfold validatePatternId.
  fold patternId.
  pose proof (KebabFacts.kebabCaseRegex_test patternId) as Y.
  pose proof (KebabFacts.kebabCaseRegex_rejects patternId) as N.
  split; [|split; [|split; [|split]]].
  - destruct (RegExp.test RegExp.kebabCaseRegex patternId); simpl;
      split; intros H; try reflexivity; try (now apply Y);
      try discriminate H. now apply N in H.
  - destruct (RegExp.test RegExp.kebabCaseRegex patternId); simpl;
      split; intros H; try reflexivity; try (now apply N);
      try discriminate H. exfalso. apply H. now apply Y.
  - destruct (RegExp.test RegExp.kebabCaseRegex patternId); simpl.
    + left. split; [now apply Y | reflexivity].
    + right. split; [now apply N | reflexivity].
  - apply later_steps_no_naming_error.
  - repeat constructor; apply KebabFacts.kebabCaseRegex_rejects; reflexivity.
Qed.

(** *** Metadata that does not parse *)

Lemma verdict_fail_app (a b : list string) (msg : string) (v : State) :
  errors v = a ++ b ++ [msg] -> verdict_fail v = true.
Proof.
  intros E. unfold verdict_fail. rewrite E, !length_app. simpl.
  destruct (_ =? 0)%nat eqn:Z; [|reflexivity].
  apply Nat.eqb_eq in Z. lia.
Qed.

Lemma exit_code_of_failure (P : Platform) (patternDir repoRoot : string) :
  verdict_fail (snd (validate P patternDir repoRoot fresh)) = true ->
  main_exit_code P patternDir repoRoot = 1.
Proof.
  intros F. rewrite main_exit_code_cases, F.
  now destruct (fst (validatePatternYaml P patternDir repoRoot fresh)),
               (fst (validateReadme P patternDir fresh)).
Qed.

(** C1, as the validator has it.  When [pattern.yaml] exists and cannot
    be parsed, the metadata step records the parse error and nothing else:
    it returns before the schema and the referenced files are looked at.
    The run's errors are those of the naming and required-file checks and
    then this one error, the verdict is FAIL and the exit code 1.  The
    README step is not skipped: the warnings of the run are its warnings. *)
Theorem unparseable_metadata_one_parse_error (P : Platform)
  (patternDir repoRoot msg : string) :
  existsSync P (path_join P [patternDir; "pattern.yaml"]%string) = true ->
  load_yaml P (path_join P [patternDir; "pattern.yaml"]%string) = ParseError msg ->
  let run := validate P patternDir repoRoot fresh in
  validatePatternYaml P patternDir repoRoot fresh =
    (Normal false, mkState [parse_error msg] [] []) /\
  errors (snd run) =
    errors (after (validatePatternId patternDir)) ++
    errors (after (validateRequiredFiles P patternDir)) ++ [parse_error msg] /\
  verdict_fail (snd run) = true /\
  main_exit_code P patternDir repoRoot = 1 /\
  warnings (snd run) = warnings (after (validateReadme P patternDir)).
Proof.
  intros Hexists Hload run.
  assert (Y : validatePatternYaml P patternDir repoRoot fresh =
              (Normal false, mkState [parse_error msg] [] [])).
  { unfold validatePatternYaml. now rewrite Hexists, Hload. }
  assert (E : errors (snd run) =
              errors (after (validatePatternId patternDir)) ++
              errors (after (validateRequiredFiles P patternDir)) ++
              [parse_error msg]).
  { subst run. rewrite validate_errors. unfold after at 3. now rewrite Y. }
  assert (F : verdict_fail (snd run) = true) by now apply verdict_fail_app in E.
  repeat split; try assumption.
  - now apply exit_code_of_failure.
  - subst run. rewrite validate_warnings. now rewrite Y.
Qed.

(** The theorem at a repository whose metadata is not YAML. *)
Lemma unparseable_metadata_witness :
  main_exit_code Examples.malformed Examples.patternDir Examples.repoRoot = 1.
Proof.
  apply (unparseable_metadata_one_parse_error Examples.malformed
           Examples.patternDir Examples.repoRoot
           "unexpected end of the stream within a flow collection");
    reflexivity.
Defined.

(** There the README step has run: its warning is in the verdict. *)
Lemma unparseable_metadata_readme_checked :
  existsSync Examples.malformed "/repo/sample-pattern/pattern.yaml" = true /\
  load_yaml Examples.malformed "/repo/sample-pattern/pattern.yaml" =
    ParseError "unexpected end of the stream within a flow collection" /\
  warnings (snd (validate Examples.malformed Examples.patternDir
                   Examples.repoRoot fresh)) = [short_warning] /\
  ~ readme_check_skipped Examples.malformed Examples.patternDir
      Examples.repoRoot.
Proof.
  repeat split; try reflexivity.
  intros [W _]. vm_compute in W. discriminate W.
Qed.

(** *** References to files *)

Lemma check_snippets_first_dangling (P : Platform) (patternDir : string)
  (snippets : list Snippet) (v : State) :
  let missing :=
    filter (dangling P patternDir)
           (map (fun snippet => SnippetRef (file snippet)) snippets) in
  fst (check_snippets P patternDir snippets v) =
    Normal (match missing with [] => true | _ => false end) /\
  errors (snd (check_snippets P patternDir snippets v)) =
    errors v ++ map reference_error (firstn 1 missing).
Proof.
  revert v. induction snippets as [|snippet rest IH]; intros v; simpl.
  - split; [reflexivity | now rewrite app_nil_r].
  - change (negb (existsSync P (path_join P [patternDir; file snippet])))
      with (dangling P patternDir (SnippetRef (file snippet))).
    destruct (dangling P patternDir (SnippetRef (file snippet))).
    + split; reflexivity.
    + exact (IH _).
Qed.

Lemma check_referenced_files_first_dangling (P : Platform)
  (patternDir : string) (d : PatternData) (v : State) :
  let missing := filter (dangling P patternDir) (references d) in
  fst (check_referenced_files P patternDir (YRecord d) v) =
    Normal (match missing with [] => true | _ => false end) /\
  errors (snd (check_referenced_files P patternDir (YRecord d) v)) =
    errors v ++ map reference_error (firstn 1 missing).
Proof.
  unfold check_referenced_files, references.
  assert (S : forall v',
    let missing :=
      filter (dangling P patternDir)
        match implementation d with
        | Some impl =>
            match code_snippets impl with
            | Some snippets =>
                map (fun snippet => SnippetRef (file snippet)) snippets
            | None => []
            end
        | None => []
        end in
    fst (match implementation d with
         | Some impl =>
             match code_snippets impl with
             | Some snippets => check_snippets P patternDir snippets
             | None => ret true
             end
         | None => ret true
         end v') = Normal (match missing with [] => true | _ => false end) /\
    errors (snd (match implementation d with
         | Some impl =>
             match code_snippets impl with
             | Some snippets => check_snippets P patternDir snippets
             | None => ret true
             end
         | None => ret true
         end v')) = errors v' ++ map reference_error (firstn 1 missing)).
  { intros v'. destruct (implementation d) as [impl|];
      [destruct (code_snippets impl) as [snippets|]|];
      try (simpl; split; [reflexivity | now rewrite app_nil_r]).
    apply check_snippets_first_dangling. }
  destruct (architecture_diagram d) as [ref|]; [|apply S].
  destruct (JS.truthy ref); [|apply S].
  simpl.
  change (negb (existsSync P (path_join P [patternDir; ref])))
    with (dangling P patternDir (DiagramRef ref)).
  destruct (dangling P patternDir (DiagramRef ref)).
  - split; reflexivity.
  - exact (S _).
Qed.

(** C4, as the validator has it.  For a record that parsed and that the
    schema accepts, the references are looked at in order (the diagram, then
    the file of each code snippet) and the step stops at the first one whose
    target is missing: it records one error that names what kind of
    reference it is and its path, and returns.  So a record with exactly one
    dangling reference gets exactly one such error, and whenever a reference
    dangles the exit code is 1. *)
Theorem cross_reference_stops_at_first_dangling (P : Platform)
  (patternDir repoRoot : string) (d : PatternData) (schema : Schema P)
  (check : YamlValue -> list AjvError) :
  existsSync P (path_join P [patternDir; "pattern.yaml"]%string) = true ->
  load_yaml P (path_join P [patternDir; "pattern.yaml"]%string) =
    ParseOk (YRecord d) ->
  existsSync P (path_join P [repoRoot; "schemas"; "pattern-schema.json"]%string)
    = true ->
  load_schema P (path_join P [repoRoot; "schemas"; "pattern-schema.json"]%string)
    = ParseOk schema ->
  ajv_compile P schema = Some check ->
  check (YRecord d) = [] ->
  let missing := filter (dangling P patternDir) (references d) in
  let checked := validatePatternYaml P patternDir repoRoot fresh in
  fst checked = Normal (match missing with [] => true | _ => false end) /\
  errors (snd checked) = map reference_error (firstn 1 missing) /\
  (forall r, missing = [r] -> errors (snd checked) = [reference_error r]) /\
  (missing <> [] -> main_exit_code P patternDir repoRoot = 1).
Proof.
  intros Hy Hload Hs Hschema Hajv Hvalid missing checked.
  assert (C : fst checked =
                Normal (match missing with [] => true | _ => false end) /\
              errors (snd checked) = map reference_error (firstn 1 missing)).
  { subst checked. unfold validatePatternYaml.
    rewrite Hy, Hload. simpl. unfold bind at 1. unfold success at 1. simpl.
    rewrite Hs, Hschema, Hajv, Hvalid. simpl.
    unfold bind at 1. unfold success at 1. simpl.
    apply (check_referenced_files_first_dangling P patternDir d). }
  destruct C as [C1 C2]. repeat split; try assumption.
  - intros r Hr. rewrite C2, Hr. reflexivity.
  - intros Hne. apply exit_code_of_failure. unfold verdict_fail.
    rewrite validate_errors. unfold after at 3. fold checked. rewrite C2.
    destruct missing as [|r rest]; [congruence|].
    rewrite !length_app. simpl.
    destruct (_ =? 0)%nat eqn:Z; [|reflexivity].
    apply Nat.eqb_eq in Z. lia.
Qed.

(** The theorem at an entry whose one code snippet is missing. *)
Lemma cross_reference_witness :
  errors (snd (validatePatternYaml Examples.one_dangling Examples.patternDir
                 Examples.repoRoot fresh)) =
    [snippet_error "implementation/missing.js"] /\
  main_exit_code Examples.one_dangling Examples.patternDir Examples.repoRoot = 1.
Proof.
  destruct (cross_reference_stops_at_first_dangling Examples.one_dangling
              Examples.patternDir Examples.repoRoot
              Examples.record_two_references tt (fun _ => [])
              eq_refl eq_refl eq_refl eq_refl eq_refl eq_refl)
    as (_ & _ & One & Fail).
  split.
  - apply (One (SnippetRef "implementation/missing.js")). reflexivity.
  - apply Fail. discriminate.
Defined.

(** Two references dangle and one error is recorded: not one for each. *)
Lemma cross_reference_two_dangling :
  length (filter (dangling Examples.two_dangling Examples.patternDir)
            (references Examples.record_two_references)) = 2 /\
  errors (snd (validatePatternYaml Examples.two_dangling Examples.patternDir
                 Examples.repoRoot fresh)) =
    [diagram_error "diagrams/architecture.png"] /\
  errors (snd (validatePatternYaml Examples.two_dangling Examples.patternDir
                 Examples.repoRoot fresh)) <>
    map reference_error
      (filter (dangling Examples.two_dangling Examples.patternDir)
         (references Examples.record_two_references)).
Proof.
  split; [reflexivity | split; [reflexivity|]].
  intros H. vm_compute in H. discriminate H.
Qed.

(** *** The exit code *)

(** C5, as the validator has it.  The process exits with 0 or with 1, and
    with no other code.  A run that completes exits with 0 when it recorded
    no error, whatever it warned about, and with 1 when it recorded one; a
    run that throws exits with 1.  A missing [schemas/pattern-schema.json]
    is an error of the entry like any other: the metadata step records it
    and the exit code is 1. *)
Theorem exit_code_zero_or_one (P : Platform) (patternDir repoRoot : string) :
  let run := validate P patternDir repoRoot fresh in
  (main_exit_code P patternDir repoRoot = 0 \/
   main_exit_code P patternDir repoRoot = 1) /\
  (forall code, fst run = Normal code ->
     (code = 0 <-> errors (snd run) = []) /\
     (code = 1 <-> errors (snd run) <> [])) /\
  (forall msg, fst run = Throws msg -> main_exit_code P patternDir repoRoot = 1) /\
  (forall data,
     existsSync P (path_join P [patternDir; "pattern.yaml"]%string) = true ->
     load_yaml P (path_join P [patternDir; "pattern.yaml"]%string) = ParseOk data ->
     existsSync P
       (path_join P [repoRoot; "schemas"; "pattern-schema.json"]%string) = false ->
     errors (after (validatePatternYaml P patternDir repoRoot)) =
       [schema_not_found] /\
     main_exit_code P patternDir repoRoot = 1).
Proof.
  intros run. split; [|split; [|split]].
  - rewrite main_exit_code_cases.
    destruct (fst (validatePatternYaml P patternDir repoRoot fresh)),
             (fst (validateReadme P patternDir fresh)),
             (verdict_fail (snd (validate P patternDir repoRoot fresh))); auto.
  - intros code Hcode. subst run. revert Hcode.
    rewrite validate_steps. cbv zeta.
    destruct (fst (validatePatternYaml P patternDir repoRoot fresh));
      [|discriminate].
    destruct (fst (validateReadme P patternDir fresh)); [|discriminate].
    set (v4 := appended _ (after (validateReadme P patternDir))).
    rewrite summary_code, summary_errors. unfold verdict_fail.
    intros Hcode.
    assert (C : code = if negb (length (errors v4) =? 0)%nat then 1 else 0)
      by congruence.
    subst code. clear Hcode.
    destruct (errors v4) as [|e es]; simpl; split; split; intros H;
      congruence.
  - intros msg Hmsg. unfold main_exit_code. fold run. now rewrite Hmsg.
  - intros data Hy Hload Hs.
    assert (Y : errors (after (validatePatternYaml P patternDir repoRoot)) =
                [schema_not_found]).
    { unfold after, validatePatternYaml. rewrite Hy, Hload. simpl.
      unfold bind at 1. unfold success at 1. simpl. now rewrite Hs. }
    split; [assumption|].
    apply exit_code_of_failure.
    apply (verdict_fail_app (errors (after (validatePatternId patternDir)))
             (errors (after (validateRequiredFiles P patternDir)))
             schema_not_found).
    now rewrite validate_errors, Y.
Qed.

(** The theorem at a complete entry in a repository without the schema. *)
Lemma exit_code_witness :
  errors (after (validatePatternYaml Examples.no_schema Examples.patternDir
                   Examples.repoRoot)) = [schema_not_found] /\
  main_exit_code Examples.no_schema Examples.patternDir Examples.repoRoot = 1.
Proof.
  apply (proj2 (proj2 (proj2 (exit_code_zero_or_one Examples.no_schema
                                Examples.patternDir Examples.repoRoot)))
           (YRecord Examples.record_two_references));
    reflexivity.
Defined.

(** There the schema file is missing and the exit code is the one of FAIL,
    not a code of its own. *)
Lemma missing_schema_exits_with_one :
  existsSync Examples.no_schema "/repo/schemas/pattern-schema.json" = false /\
  main_exit_code Examples.no_schema Examples.patternDir Examples.repoRoot = 1 /\
  ~ distinct_exit_code
      (main_exit_code Examples.no_schema Examples.patternDir Examples.repoRoot).
Proof.
  split; [reflexivity | split; [reflexivity|]].
  intros [_ H]. apply H. reflexivity.
Qed.

(** *** The README *)

Lemma prefix_append (a b : string) :
  prefix a b = true <-> exists rest, b = (a ++ rest)%string.
Proof.
  revert b. induction a as [|x a IH]; intros b.
  - split; [intros _; now exists b | now destruct b].
  - destruct b as [|y b]; simpl.
    + split; [discriminate | intros [rest H]; discriminate H].
    + destruct (ascii_dec x y) as [<- | Hne].
      * rewrite IH. split; intros [rest H]; exists rest.
        -- now rewrite H.
        -- now injection H.
      * split; [discriminate | intros [rest H]]. injection H as H _.
        congruence.
Qed.

Lemma includes_empty (needle : string) :
  JS.includes EmptyString needle = prefix needle EmptyString.
Proof. unfold JS.includes. apply orb_false_r. Qed.

Lemma includes_String (c : ascii) (hay needle : string) :
  JS.includes (String c hay) needle =
  prefix needle (String c hay) || JS.includes hay needle.
Proof. reflexivity. Qed.

Lemma includes_occurrence (hay needle : string) :
  JS.includes hay needle = true <->
  exists before after, hay = (before ++ needle ++ after)%string.
Proof.
  split.
  - induction hay as [|c hay IH]; intros H.
    + rewrite includes_empty in H. apply prefix_append in H as [rest H].
      now exists EmptyString, rest.
    + rewrite includes_String in H. apply orb_true_iff in H as [H | H].
      * apply prefix_append in H as [rest H]. now exists EmptyString, rest.
      * destruct (IH H) as (before & after & ->).
        now exists (String c before), after.
  - intros (before & after & ->).
    induction before as [|c before IH].
    + assert (H : prefix needle (needle ++ after) = true)
        by (apply prefix_append; now exists after).
      change (EmptyString ++ needle ++ after)%string
        with (needle ++ after)%string.
      destruct (needle ++ after)%string.
      * now rewrite includes_empty.
      * rewrite includes_String, H. reflexivity.
    + change (String c before ++ needle ++ after)%string
        with (String c (before ++ needle ++ after)).
      rewrite includes_String, IH. apply orb_true_r.
Qed.

Lemma missingSections_absent (content section : string) :
  In section (missingSections content) <->
  In section recommendedSections /\ ~ occurs_ignoring_case section content.
Proof.
  unfold missingSections, occurs_ignoring_case. rewrite filter_In.
  rewrite negb_true_iff, <- includes_occurrence.
  destruct (JS.includes _ _); split; intros [H1 H2]; split; congruence.
Qed.

(** C6, as the validator has it.  For an entry whose README is a file, the
    README step returns normally and records no error, so it never turns a
    verdict into FAIL: the errors of a run are those of the three steps
    before it.  It warns once at most.  A content shorter than 100 units
    gets the warning about its length and the headings are not looked for;
    otherwise, when a recommended heading (Overview, Architecture,
    Implementation, Prerequisites) occurs nowhere in the content, whatever
    the case, one warning lists all the missing ones. *)
Theorem readme_check_warns_only (P : Platform) (patternDir repoRoot : string)
  (content : string) (v : State) :
  fs P (path_join P [patternDir; "README.md"]%string) = File content ->
  let checked := validateReadme P patternDir v in
  let missing := missingSections content in
  fst checked = Normal true /\
  errors (snd checked) = errors v /\
  warnings (snd checked) =
    warnings v ++
    (if (String.length content <? minLength)%nat then [short_warning]
     else match missing with
          | [] => []
          | _ => [sections_warning missing]
          end) /\
  (forall section,
     In section missing <->
     In section recommendedSections /\ ~ occurs_ignoring_case section content) /\
  errors (snd (validate P patternDir repoRoot fresh)) =
    errors (after (validatePatternId patternDir)) ++
    errors (after (validateRequiredFiles P patternDir)) ++
    errors (after (validatePatternYaml P patternDir repoRoot)).
Proof.
  intros Hfile checked missing. subst checked.
  unfold validateReadme, existsSync, readFileSync. rewrite Hfile. simpl.
  subst missing.
  split; [|split; [|split; [|split]]].
  - destruct (String.length content <? minLength)%nat; [reflexivity|].
    now destruct (missingSections content).
  - destruct (String.length content <? minLength)%nat; [reflexivity|].
    now destruct (missingSections content).
  - destruct (String.length content <? minLength)%nat; [reflexivity|].
    destruct (missingSections content); simpl; [|reflexivity].
    now rewrite app_nil_r.
  - intros section. apply missingSections_absent.
  - apply validate_errors.
Qed.

(** The theorem at a README long enough that lacks two sections. *)
Lemma readme_check_witness :
  warnings (snd (validateReadme Examples.two_sections_missing
                   Examples.patternDir fresh)) =
    [sections_warning ["Implementation"; "Prerequisites"]%string] /\
  errors (snd (validateReadme Examples.two_sections_missing
                 Examples.patternDir fresh)) = [].
Proof.
  destruct (readme_check_warns_only Examples.two_sections_missing
              Examples.patternDir Examples.repoRoot Examples.long_readme fresh
              eq_refl) as (_ & E & W & _).
  split; [exact W | exact E].
Defined.

(** A README of a few words lacks every recommended section, and the
    warning that would list them is not given. *)
Lemma short_readme_sections_not_listed :
  fs Examples.malformed "/repo/sample-pattern/README.md" = File "To do." /\
  missingSections "To do." = recommendedSections /\
  warnings (snd (validateReadme Examples.malformed Examples.patternDir fresh)) =
    [short_warning] /\
  ~ In (sections_warning (missingSections "To do."))
       (warnings (snd (validateReadme Examples.malformed Examples.patternDir
                         fresh))).
Proof.
  repeat split; try reflexivity.
  intros H. vm_compute in H. destruct H as [H | []]. discriminate H.
Qed.

End ValidatorFacts.

(** ** The reviewer notifier *)

Module NotifierFacts.

Import Effects Notifier.
Local Open Scope method_scope.

(** A category read off the metadata is a non-empty string. *)
Lemma getPatternCategory_truthy (P : Validator.Platform) (patternDir c : string) :
  getPatternCategory P patternDir = Some c -> JS.truthy c = true.
Proof.
  unfold getPatternCategory.
  destruct (negb _); [discriminate|].
  destruct (Validator.readFileSync _ _); [discriminate|].
  destruct (Validator.yaml_load _ _) as [|[|d]]; try discriminate.
  destruct (Validator.category d) as [c'|]; [|discriminate].
  destruct (JS.truthy c') eqn:T; [|discriminate].
  now intros [= <-].
Qed.

(** When no category is read: the file is missing, it cannot be read or
    parsed, the document is empty, or it has no non-empty category. *)
Lemma getPatternCategory_none (P : Validator.Platform) (patternDir : string) :
  let path := Validator.path_join P [patternDir; "pattern.yaml"]%string in
  getPatternCategory P patternDir = None <->
  Validator.existsSync P path = false \/
  (exists msg, Validator.load_yaml P path = Validator.ParseError msg) \/
  Validator.load_yaml P path = Validator.ParseOk Validator.YEmpty \/
  (exists d, Validator.load_yaml P path =
               Validator.ParseOk (Validator.YRecord d) /\
             JS.truthy_opt (Validator.category d) = false).
Proof.
  intros path. unfold getPatternCategory, Validator.load_yaml. fold path.
  destruct (Validator.existsSync P path); simpl.
  2: { split; auto. }
  destruct (Validator.readFileSync P path) as [msg | content].
  { split; [intros _; right; left; now exists msg | reflexivity]. }
  destruct (Validator.yaml_load P content) as [msg | [| d]].
  - split; [intros _; right; left; now exists msg | reflexivity].
  - split; [intros _; right; right; now left | reflexivity].
  - destruct (Validator.category d) as [c|] eqn:C; simpl.
    + destruct (JS.truthy c) eqn:T.
      * split; [discriminate|].
        intros [H | [[msg H] | [H | (d' & H & H')]]]; try discriminate.
        injection H as <-. rewrite C in H'. simpl in H'. congruence.
      * split; [|reflexivity]. intros _. right; right; right.
        exists d. rewrite C. now split.
    + split; [|reflexivity]. intros _. right; right; right.
      exists d. rewrite C. now split.
Qed.

Lemma reviewers_loop (c : string) (reviewers : list string) (n : State) :
  for_of reviewers (fun reviewer (_ : unit) =>
    n <- get ;;
    put (mkState (Set_add reviewer (allReviewers n))
           (Map_update c (Set_add reviewer) (categoryReviewers n))
           (patterns n) (github_output n))) tt n =
  (Normal tt,
   mkState (add_all reviewers (allReviewers n))
     (fold_left (fun m reviewer => Map_update c (Set_add reviewer) m)
        reviewers (categoryReviewers n))
     (patterns n) (github_output n)).
Proof.
  revert n. induction reviewers as [|r rest IH]; intros n; simpl.
  - now destruct n.
  - unfold bind at 1. simpl. unfold bind at 1. simpl. now rewrite IH.
Qed.

Lemma bind_get {S B} (k : S -> Effects.Method S B) (v : S) :
  bind get k v = k v v.
Proof. reflexivity. Qed.

Lemma bind_put {S B} (s : S) (k : unit -> Effects.Method S B) (v : S) :
  bind (put s) k v = k tt s.
Proof. reflexivity. Qed.

Lemma bind_ret {S A B} (a : A) (k : A -> Effects.Method S B) (v : S) :
  bind (ret a) k v = k a v.
Proof. reflexivity. Qed.

(** One turn of the loop: it never throws, pushes the assignment, and adds
    the reviewers to the aggregate when a category was read. *)
Lemma processPattern_step (P : Validator.Platform) (patternDir : string)
  (n : State) :
  exists byCategory,
    processPattern P patternDir n =
    (Normal tt,
     mkState
       match getPatternCategory P patternDir with
       | Some c => add_all (getReviewersForCategory (Some c)) (allReviewers n)
       | None => allReviewers n
       end
       byCategory
       (patterns n ++ [assignment P patternDir])
       (github_output n)).
Proof.
  unfold processPattern, assignment.
  destruct (getPatternCategory P patternDir) as [c|] eqn:C.
  - apply getPatternCategory_truthy in C. rewrite C.
    rewrite bind_get, bind_put, bind_get. simpl.
    destruct (negb (Map_has c (categoryReviewers n)));
      [rewrite bind_put | rewrite bind_ret];
      rewrite reviewers_loop; simpl; eexists; reflexivity.
  - rewrite bind_get, bind_put. eexists; reflexivity.
Qed.

(** What the aggregate set holds after the entries [patternDirs]. *)
Lemma processPatterns_run (P : Validator.Platform) (patternDirs : list string) :
  forall n,
    let r := processPatterns P patternDirs n in
    fst r = Normal tt /\
    patterns (snd r) = patterns n ++ map (assignment P) patternDirs /\
    allReviewers (snd r) =
      fold_left (fun acc patternDir =>
                   match getPatternCategory P patternDir with
                   | Some c => add_all (getReviewersForCategory (Some c)) acc
                   | None => acc
                   end) patternDirs (allReviewers n) /\
    github_output (snd r) = github_output n.
Proof.
  assert (L : forall n,
    let r := for_of patternDirs (fun patternDir (_ : unit) =>
                 processPattern P patternDir) tt n in
    fst r = Normal tt /\
    patterns (snd r) = patterns n ++ map (assignment P) patternDirs /\
    allReviewers (snd r) =
      fold_left (fun acc patternDir =>
                   match getPatternCategory P patternDir with
                   | Some c => add_all (getReviewersForCategory (Some c)) acc
                   | None => acc
                   end) patternDirs (allReviewers n) /\
    github_output (snd r) = github_output n).
  { induction patternDirs as [|dir rest IH]; intros n; simpl.
    - now rewrite app_nil_r.
    - unfold bind.
      destruct (processPattern_step P dir n) as (byCategory & ->).
      destruct (IH (mkState
                      match getPatternCategory P dir with
                      | Some c =>
                          add_all (getReviewersForCategory (Some c))
                            (allReviewers n)
                      | None => allReviewers n
                      end byCategory
                      (patterns n ++ [assignment P dir])
                      (github_output n))) as (R1 & R2 & R3 & R4).
      rewrite R1, R2, R3, R4. simpl. rewrite <- app_assoc. auto. }
  intros n. unfold processPatterns.
  destruct patternDirs as [|dir rest]; [|apply L].
  simpl. now rewrite app_nil_r.
Qed.

(** *** Routing *)

(** An entry of a category the mapping does not have gets the fallback
    reviewers under the name of its category, not under "unknown"; and
    routing throws at an entry whose category is a mapping that cannot be
    turned into a property key, after it has routed the entry before it. *)
Lemma unrecognised_category_keeps_its_name :
  getPatternCategory Examples.routing "mesh-gateway" = Some "networking"%string /\
  lookup_property SME_MAPPING "networking" = Undefined /\
  Pattern.reviewers (assignment Examples.routing "mesh-gateway") =
    FALLBACK_REVIEWERS /\
  Pattern.category (assignment Examples.routing "mesh-gateway") =
    "networking"%string /\
  Pattern.category (assignment Examples.routing "mesh-gateway") <>
    "unknown"%string /\
  fst (ReviewerNotifier.processPatterns RoutingSamples.sources
         ["queue-worker"; "keyless"]%string ReviewerNotifier.fresh) =
    Throws ReviewerNotifier.cannot_convert /\
  map ReviewerNotifier.Pattern.directory
    (ReviewerNotifier.patterns
       (snd (ReviewerNotifier.processPatterns RoutingSamples.sources
               ["queue-worker"; "keyless"]%string ReviewerNotifier.fresh))) =
    ["queue-worker"%string].
Proof. repeat split; try reflexivity. discriminate. Qed.

(** *** The aggregate reviewer set *)






(** C3, at an input where the notifier departs from it.  A run over one
    entry without a category assigns that entry the fallback reviewers, and
    its aggregate reviewer set is empty; a run over one entry of a category
    the mapping does not have assigns the same reviewers, and they are in
    the aggregate. *)
Theorem aggregate_misses_fallback_reviewers :
  (exists comment,
     fst (run Examples.routing true ["draft-idea"%string] fresh) =
     Normal (Output.mk []
               [Pattern.mk "draft-idea" "unknown" FALLBACK_REVIEWERS] comment)) /\
  (exists comment,
     fst (run Examples.routing true ["mesh-gateway"%string] fresh) =
     Normal (Output.mk FALLBACK_REVIEWERS
               [Pattern.mk "mesh-gateway" "networking" FALLBACK_REVIEWERS]
               comment)).
Proof. split; eexists; reflexivity. Qed.

(** *** The report *)

Lemma generateComment_reads_patterns (n : State) :
  generateComment n =
  (match patterns n with
   | [] => Normal None
   | _ :: _ =>
       match category_sections comment_header (group_patterns (patterns n)) with
       | Throws msg => Throws msg
       | Normal comment => Normal (Some (comment ++ review_checklist)%string)
       end
   end, n).
Proof.
  unfold generateComment. rewrite bind_get.
  destruct (patterns n) as [|p ps]; [reflexivity|].
  simpl length. cbv iota beta. simpl Nat.eqb. cbv iota.
  now destruct (category_sections _ _).
Qed.

Lemma comment_truthy (comment : string) :
  JS.truthy (comment ++ review_checklist) = true.
Proof. now destruct comment. Qed.

(** The lines [generateOutput] appends to the file of [GITHUB_OUTPUT]. *)
Lemma generateOutput_writes (n : State) (out : Output.t) (n2 : State) :
  generateOutput true n = (Normal out, n2) ->
  fst (generateComment n) = Normal (Output.comment out) /\
  github_output n2 =
    github_output n ++
    [("reviewers=" ++ JSON_stringify (allReviewers n) ++ nl)%string;
     ("reviewer_count=" ++ decimal (length (allReviewers n)) ++ nl)%string] ++
    match Output.comment out with
    | Some text => [("pr_comment<<EOF" ++ nl ++ text ++ nl ++ "EOF" ++ nl)%string]
    | None => []
    end.
Proof.
  unfold generateOutput, appendFileSync, bind, get, put, ret.
  rewrite !generateComment_reads_patterns.
  cbn [fst snd patterns github_output allReviewers].
  destruct (patterns n) as [|p ps] eqn:Ps.
  - rewrite generateComment_reads_patterns.
    cbn [fst snd patterns github_output allReviewers].
    intros [= <- <-]. simpl. rewrite <- app_assoc. now split.
  - destruct (category_sections _ _) as [comment | msg] eqn:C; [|discriminate].
    rewrite comment_truthy. rewrite generateComment_reads_patterns.
    cbn [fst snd patterns github_output allReviewers]. rewrite C.
    intros [= <- <-]. simpl. rewrite <- !app_assoc. now split.
Qed.

(** C8.  Generating the report leaves the notifier as it was, so
    generating it again gives the same text, character for character (or
    the same exception); the report depends on nothing but the entries
    processed; and the comment [generateOutput] writes to the output file is
    the comment it returns. *)
Theorem report_generation_idempotent (n : State) :
  let first := generateComment n in
  let second := generateComment (snd first) in
  snd first = n /\
  second = first /\
  (forall n', patterns n' = patterns n ->
     fst (generateComment n') = fst first) /\
  (forall out n2, generateOutput true n = (Normal out, n2) ->
     fst first = Normal (Output.comment out) /\
     (forall text, Output.comment out = Some text ->
        In ("pr_comment<<EOF" ++ nl ++ text ++ nl ++ "EOF" ++ nl)%string
           (github_output n2))).
Proof.
  intros first second. subst first second.
  rewrite !generateComment_reads_patterns. simpl.
  split; [reflexivity | split; [reflexivity | split]].
  - intros n' E. rewrite generateComment_reads_patterns. simpl. now rewrite E.
  - intros out n2 H. apply generateOutput_writes in H as [H1 H2].
    rewrite generateComment_reads_patterns in H1. simpl in H1.
    split; [exact H1|].
    intros text E. rewrite H2, E. apply in_or_app. right.
    apply in_or_app. right. now left.
Qed.

(** The theorem at the notifier after a run over four entries. *)
Lemma report_generation_witness :
  fst (generateComment
         (snd (processPatterns Examples.routing
                 ["queue-worker"; "mesh-gateway"; "draft-idea"; "broken-yaml"]%string
                 fresh))) =
  fst (generateComment
         (snd (run Examples.routing true
                 ["queue-worker"; "mesh-gateway"; "draft-idea"; "broken-yaml"]%string
                 fresh))).
Proof.
  symmetry.
  apply (proj1 (proj2 (proj2 (report_generation_idempotent
           (snd (processPatterns Examples.routing
                   ["queue-worker"; "mesh-gateway"; "draft-idea"; "broken-yaml"]%string
                   fresh)))))).
  reflexivity.
Defined.

(** C10.  With no entry to route, [processPatterns] leaves the notifier
    new, [generateComment] returns [null], and a run returns no reviewers,
    no assignments and no comment and writes no [pr_comment] to the output
    file.  [generateComment] returns [null] only when no entry was
    processed. *)
Theorem no_entries_no_report (P : Validator.Platform) (env_GITHUB_OUTPUT : bool)
  (n : State) :
  processPatterns P [] fresh = (Normal tt, fresh) /\
  generateComment fresh = (Normal None, fresh) /\
  fst (run P env_GITHUB_OUTPUT [] fresh) = Normal (Output.mk [] [] None) /\
  github_output (snd (run P env_GITHUB_OUTPUT [] fresh)) =
    (if env_GITHUB_OUTPUT
     then [("reviewers=[]" ++ nl)%string; ("reviewer_count=0" ++ nl)%string]
     else []) /\
  (fst (generateComment n) = Normal None <-> patterns n = []).
Proof.
  split; [reflexivity | split; [reflexivity | split; [|split]]].
  - now destruct env_GITHUB_OUTPUT.
  - now destruct env_GITHUB_OUTPUT.
  - rewrite generateComment_reads_patterns. simpl.
    destruct (patterns n) as [|p ps]; [now split|].
    destruct (category_sections _ _); split; discriminate.
Qed.

End NotifierFacts.

(** ** The change detector *)

Module DetectFacts.

Import Detect.

(** *** [sort -u] *)

Lemma string_lt_trans (a b c : string) :
  string_lt a b -> string_lt b c -> string_lt a c.
Proof.
  unfold string_lt. intros H1 H2.
  apply String_as_OT.cmp_lt. apply String_as_OT.cmp_lt in H1, H2.
  eapply String_as_OT.lt_trans; eassumption.
Qed.

Lemma string_lt_irrefl (a : string) : ~ string_lt a a.
Proof.
  unfold string_lt. intros H.
  assert (E : String.compare a a = Eq) by now apply String_as_OT.cmp_eq.
  congruence.
Qed.

Lemma compare_Gt_lt (a b : string) :
  String.compare a b = Gt -> string_lt b a.
Proof.
  unfold string_lt. intros H. rewrite String.compare_antisym, H. reflexivity.
Qed.

Lemma insert_u_In (x y : string) (l : list string) :
  In y (insert_u x l) <-> y = x \/ In y l.
Proof.
  induction l as [|z l IH]; simpl.
  - intuition.
  - destruct (String.compare x z) eqn:C; simpl.
    + apply String_as_OT.cmp_eq in C. subst z. intuition.
    + intuition.
    + rewrite IH. intuition.
Qed.

Lemma sort_u_In (y : string) (l : list string) : In y (sort_u l) <-> In y l.
Proof.
  induction l as [|x l IH]; simpl; [reflexivity|].
  rewrite insert_u_In, IH. intuition.
Qed.

Lemma insert_u_sorted (x : string) (l : list string) :
  StronglySorted string_lt l -> StronglySorted string_lt (insert_u x l).
Proof.
  induction 1 as [|z l S IH F]; simpl.
  - repeat constructor.
  - destruct (String.compare x z) eqn:C.
    + now constructor.
    + constructor; [now constructor|]. constructor; [exact C|].
      eapply Forall_impl; [|exact F]. intros w Hw.
      now apply string_lt_trans with z.
    + constructor; [exact IH|].
      apply Forall_forall. intros w Hw. apply insert_u_In in Hw as [-> | Hw].
      * now apply compare_Gt_lt.
      * rewrite Forall_forall in F. now apply F.
Qed.

Lemma sort_u_sorted (l : list string) : StronglySorted string_lt (sort_u l).
Proof.
  induction l as [|x l IH]; simpl; [constructor | now apply insert_u_sorted].
Qed.

Lemma filter_sorted (f : string -> bool) (l : list string) :
  StronglySorted string_lt l -> StronglySorted string_lt (filter f l).
Proof.
  induction 1 as [|z l S IH F]; simpl; [constructor|].
  destruct (f z); [|exact IH].
  constructor; [exact IH|].
  apply Forall_forall. intros w Hw. apply filter_In in Hw as [Hw _].
  rewrite Forall_forall in F. now apply F.
Qed.

(** *** The filters *)

Lemma grep_v_twice (f g : string -> bool) (lines : list string) :
  grep_v g (grep_v f lines) = grep_v (fun line => f line || g line) lines.
Proof.
  unfold grep_v. induction lines as [|p lines IH]; cbn [filter]; [reflexivity|].
  destruct (f p); cbn [negb orb filter]; [exact IH|].
  destruct (g p); cbn [negb]; [exact IH | now rewrite IH].
Qed.

Lemma grep_v_chain (lines : list string) :
  grep_v (starting ".")
    (grep_v (starting "LICENSE")
       (grep_v (exactly "README.md")
          (grep_v (starting "pattern-template/")
             (grep_v (exactly "categories.config.json")
                (grep_v (starting "schemas/")
                   (grep_v (starting ".github/") lines)))))) =
  filter (fun path => negb (denylisted path)) lines.
Proof.
  rewrite !grep_v_twice. unfold grep_v, denylisted.
  apply filter_ext. intros path. now rewrite !orb_assoc.
Qed.

Lemma PATTERN_DIRS_filters (changed : list string) :
  PATTERN_DIRS changed =
  filter JS.truthy
    (sort_u (map cut_f1
       (filter (fun path => negb (denylisted path)) (echo_lines changed)))).
Proof.
  unfold PATTERN_DIRS. cbv zeta. rewrite grep_v_chain.
  unfold grep_v. apply filter_ext. now intros [|c s].
Qed.

(** *** Words *)

Lemma has_unit_cut_f1 (p : ascii -> bool) (path : string) :
  has_unit p path = false -> has_unit p (cut_f1 path) = false.
Proof.
  induction path as [|c path IH]; simpl; [reflexivity|].
  intros H. apply orb_false_iff in H as [Hc Hp].
  destruct (c =? "/")%char; simpl; [reflexivity|].
  now rewrite Hc, IH.
Qed.







(** *** [xargs] *)










(** *** The script on plain paths *)

Lemma echo_option_no_slash (p : string) :
  is_echo_option p = true -> cut_f1 p = p.
Proof.
  destruct p as [|c [|d t]]; try discriminate.
  unfold is_echo_option. intros H. apply andb_true_iff in H as [Hc Ht].
  assert (A : forall s, all_units (unit_in [110; 101; 69]) s = true ->
                        cut_f1 s = s).
  { induction s as [|x s IH]; simpl; [reflexivity|].
    intros Hs. apply andb_true_iff in Hs as [Hx Hs]. rewrite IH by assumption.
    destruct (Ascii.eqb_spec x "/") as [-> | _]; [discriminate | reflexivity]. }
  change (cut_f1 (String c (String d t)))
    with (if (c =? "/")%char then EmptyString
          else String c (cut_f1 (String d t))).
  rewrite A by assumption.
  destruct (Ascii.eqb_spec c "/") as [-> | _]; [discriminate | reflexivity].
Qed.

Lemma echo_lines_segments (changed : list string) :
  Forall (fun path => is_echo_option (cut_f1 path) = false) changed ->
  echo_lines changed =
  match changed with [] => [EmptyString] | _ :: _ => changed end.
Proof.
  intros [|p [|q rest] Hp _]; try reflexivity.
  unfold echo_lines. destruct (is_echo_option p) eqn:O; [|reflexivity].
  rewrite echo_option_no_slash, O in Hp by assumption. discriminate.
Qed.

Lemma shell_plain_segment (changed : list string) :
  Forall (fun path => shell_plain path = true) changed ->
  Forall (fun path => is_echo_option (cut_f1 path) = false) changed.
Proof.
  intros H. eapply Forall_impl; [|exact H]. intros path Hp.
  unfold shell_plain in Hp. apply andb_true_iff in Hp as [_ Hp].
  now apply negb_true_iff in Hp.
Qed.

Lemma echo_lines_plain (changed : list string) :
  Forall (fun path => shell_plain path = true) changed ->
  echo_lines changed =
  match changed with [] => [EmptyString] | _ :: _ => changed end.
Proof. intros H. now apply echo_lines_segments, shell_plain_segment. Qed.



(** The lines of [PATTERN_DIRS]: the first segments, not empty, of the
    changed lines that no filter matches. *)
Lemma PATTERN_DIRS_segments_In (changed : list string) (d : string) :
  Forall (fun path => is_echo_option (cut_f1 path) = false) changed ->
  In d (PATTERN_DIRS changed) <->
  exists path, In path changed /\ cut_f1 path = d /\ d <> EmptyString /\
               denylisted path = false.
Proof.
  intros Hp. rewrite PATTERN_DIRS_filters, echo_lines_segments by assumption.
  rewrite filter_In, sort_u_In, in_map_iff. split.
  - intros [(p & Hd & Hin) T]. apply filter_In in Hin as [Hin D].
    apply negb_true_iff in D. exists p.
    assert (Hne : d <> EmptyString) by (intros ->; discriminate).
    destruct changed as [|q rest].
    + destruct Hin as [<- | []]. simpl in Hd. congruence.
    + auto.
  - intros (p & Hin & Hd & Hne & D). split.
    + exists p. split; [assumption|]. apply filter_In. split.
      * destruct changed; [destruct Hin | assumption].
      * now rewrite D.
    + destruct d; [congruence | reflexivity].
Qed.

Lemma PATTERN_DIRS_In (changed : list string) (d : string) :
  Forall (fun path => shell_plain path = true) changed ->
  In d (PATTERN_DIRS changed) <->
  exists path, In path changed /\ cut_f1 path = d /\ d <> EmptyString /\
               denylisted path = false.
Proof.
  intros H. now apply PATTERN_DIRS_segments_In, shell_plain_segment.
Qed.



Lemma sorted_NoDup (l : list string) :
  StronglySorted string_lt l -> NoDup l.
Proof.
  induction 1 as [|x l S IH F]; constructor; [|exact IH].
  intros Hin. rewrite Forall_forall in F.
  exact (string_lt_irrefl x (F x Hin)).
Qed.



(** C9, at an input where the script departs from it.  A pull request
    changes [my pattern/pattern.yaml]; [my pattern] is a first path
    segment, matches no entry of the denylist and is a directory of the
    work tree, so the claim has it detected.  The script splits the name at
    the space in its unquoted [for dir in $PATTERN_DIRS], finds neither
    [my] nor [pattern], and reports nothing; when directories of those two
    names exist it reports them, though nothing in them changed.  The same
    pull request for [my-pattern] is reported as the claim says. *)
Theorem detect_misses_spaced_directory :
  detect Examples.tree_spaced Examples.changed_spaced =
    mkOutcome 0 (Some EmptyString) (Some 0) /\
  specified_entry Examples.tree_spaced Examples.changed_spaced "my pattern" /\
  ~ (forall d, In d (detected (detect Examples.tree_spaced
                                      Examples.changed_spaced)) <->
               specified_entry Examples.tree_spaced Examples.changed_spaced d) /\
  detected (detect Examples.tree_spaced_words Examples.changed_spaced) =
    ["my"; "pattern"]%string /\
  pattern_count (detect Examples.tree_spaced_words Examples.changed_spaced) =
    Some 2 /\
  detect Examples.tree_hyphenated Examples.changed_hyphenated =
    mkOutcome 0 (Some "my-pattern"%string) (Some 1).
Proof.
  assert (S : specified_entry Examples.tree_spaced Examples.changed_spaced
                "my pattern").
  { exists "my pattern/pattern.yaml"%string.
    repeat split; try reflexivity; [now left | discriminate]. }
  split; [reflexivity | split; [exact S|]].
  split; [|repeat split; reflexivity].
  intros H. apply H in S. exact S.
Qed.

End DetectFacts.

(** ** More on the validator *)

Module ValidatorRun.

Import Effects Validator Requirements ValidatorFacts.
Local Open Scope method_scope.

(** *** Required files *)

Lemma validateRequiredFiles_problems (P : Platform) (patternDir : string)
  (v : State) :
  errors (snd (validateRequiredFiles P patternDir v)) =
    errors v ++ problems P patternDir /\
  fst (validateRequiredFiles P patternDir v) =
    Normal (forallb (fun r => match problem P patternDir r with
                              | Some _ => false
                              | None => true
                              end) requirements) /\
  (fst (validateRequiredFiles P patternDir v) = Normal true <->
   problems P patternDir = []) /\
  length (problems P patternDir) =
    length (filter (fun r => match problem P patternDir r with
                             | Some _ => true
                             | None => false
                             end) requirements).
Proof.
  unfold validateRequiredFiles, problems, requirements, problem.
  unfold requiredFiles, requiredDirs. cbn [map app flat_map filter forallb for_of].
  destruct (negb (existsSync P (path_join P [patternDir; "pattern.yaml"%string])));
    [|destruct (stat_size P (path_join P [patternDir; "pattern.yaml"%string]) =? 0)%nat];
    (destruct (negb (existsSync P (path_join P [patternDir; "README.md"%string])));
     [|destruct (stat_size P (path_join P [patternDir; "README.md"%string]) =? 0)%nat]);
    (destruct (negb (existsSync P (path_join P [patternDir; "diagrams"%string])));
     [|destruct (negb (isDirectory P (path_join P [patternDir; "diagrams"%string])))]);
    cbn; rewrite <- ?app_assoc; cbn; rewrite ?app_nil_r;
    (split; [reflexivity | split; [reflexivity | split; [|reflexivity]]]);
    split; congruence.
Qed.

(** X1.  The required-file step looks at all three items whatever it
    finds: it records one error for each item that is missing, empty or of
    the wrong kind, in the order [pattern.yaml], [README.md], [diagrams],
    and returns [true] exactly when it recorded none. *)
Theorem required_files_all_checked (P : Platform) (patternDir : string)
  (v : State) :
  let checked := validateRequiredFiles P patternDir v in
  errors (snd checked) = errors v ++ problems P patternDir /\
  fst checked =
    Normal (forallb (fun r => match problem P patternDir r with
                              | Some _ => false
                              | None => true
                              end) requirements) /\
  (fst checked = Normal true <-> problems P patternDir = []) /\
  length (problems P patternDir) =
    length (filter (fun r => match problem P patternDir r with
                             | Some _ => true
                             | None => false
                             end) requirements).
Proof. exact (validateRequiredFiles_problems P patternDir v). Qed.

(** *** The metadata step, case by case *)

Lemma error_run (msg : string) (v : State) :
  error msg v =
  (Normal tt, mkState (errors v ++ [msg]) (warnings v) (successes v)).
Proof. reflexivity. Qed.

Lemma violations_loop (errs : list AjvError) (v : State) :
  for_of errs (fun err (_ : unit) =>
                 error ("  - " ++ ajv_field err ++ ": " ++ message err)%string)
    tt v =
  (Normal tt,
   mkState (errors v ++ map violation_line errs) (warnings v) (successes v)).
Proof.
  revert v. induction errs as [|err errs IH]; intros v; simpl.
  - rewrite app_nil_r. now destruct v.
  - unfold bind, error at 1. rewrite IH. simpl. now rewrite <- app_assoc.
Qed.

(** The metadata step up to the schema: what it records when the schema
    has something to say about the document. *)
Lemma validatePatternYaml_checked (P : Platform) (patternDir repoRoot : string)
  (data : YamlValue) (schema : Schema P) (check : YamlValue -> list AjvError) :
  existsSync P (path_join P [patternDir; "pattern.yaml"]%string) = true ->
  load_yaml P (path_join P [patternDir; "pattern.yaml"]%string) = ParseOk data ->
  existsSync P (path_join P [repoRoot; "schemas"; "pattern-schema.json"]%string)
    = true ->
  load_schema P (path_join P [repoRoot; "schemas"; "pattern-schema.json"]%string)
    = ParseOk schema ->
  ajv_compile P schema = Some check ->
  validatePatternYaml P patternDir repoRoot fresh =
  match check data with
  | [] =>
      check_referenced_files P patternDir data
        (mkState [] []
           ["pattern.yaml is valid YAML format";
            "pattern.yaml conforms to JSON Schema (including category, required fields, formats, etc.)"]%string)
  | e :: es =>
      (Normal false,
       mkState ("pattern.yaml does not conform to JSON Schema:"%string ::
                map violation_line (e :: es)) []
               ["pattern.yaml is valid YAML format"%string])
  end.
Proof.
  intros Hy Hload Hs Hschema Hajv. unfold validatePatternYaml.
  rewrite Hy. cbn [negb]. rewrite Hload.
  rewrite Hs. cbn [negb]. rewrite Hschema, Hajv.
  destruct (check data) as [|e es].
  - reflexivity.
  - unfold bind, success, ret. cbn [fst snd errors warnings successes fresh].
    rewrite error_run. cbn [errors warnings successes app].
    now rewrite violations_loop.
Qed.

(** X2.  When the schema finds violations in a document that parsed, the
    metadata step records a heading and then one line for each violation,
    in Ajv's order, each naming the instance path, else the missing
    property, else "root"; it returns [false] without looking at the
    referenced files, and the exit code is 1. *)
Theorem schema_violations_all_reported (P : Platform)
  (patternDir repoRoot : string) (data : YamlValue) (schema : Schema P)
  (check : YamlValue -> list AjvError) :
  existsSync P (path_join P [patternDir; "pattern.yaml"]%string) = true ->
  load_yaml P (path_join P [patternDir; "pattern.yaml"]%string) = ParseOk data ->
  existsSync P (path_join P [repoRoot; "schemas"; "pattern-schema.json"]%string)
    = true ->
  load_schema P (path_join P [repoRoot; "schemas"; "pattern-schema.json"]%string)
    = ParseOk schema ->
  ajv_compile P schema = Some check ->
  check data <> [] ->
  let checked := validatePatternYaml P patternDir repoRoot fresh in
  fst checked = Normal false /\
  errors (snd checked) =
    "pattern.yaml does not conform to JSON Schema:"%string ::
    map violation_line (check data) /\
  length (errors (snd checked)) = S (length (check data)) /\
  successes (snd checked) = ["pattern.yaml is valid YAML format"%string] /\
  main_exit_code P patternDir repoRoot = 1.
Proof.
  intros Hy Hload Hs Hschema Hajv Hne checked. subst checked.
  rewrite (validatePatternYaml_checked P patternDir repoRoot data schema check)
    by assumption.
  destruct (check data) as [|e es] eqn:C; [congruence|].
  cbn [fst snd errors successes].
  repeat split; try reflexivity.
  - cbn [length]. now rewrite length_map.
  - apply exit_code_of_failure. unfold verdict_fail.
    rewrite validate_errors. unfold after at 3.
    rewrite (validatePatternYaml_checked P patternDir repoRoot data schema check)
      by assumption.
    rewrite C. cbn [snd errors]. rewrite !length_app. cbn [length].
    destruct (_ =? 0)%nat eqn:Z; [|reflexivity].
    apply Nat.eqb_eq in Z. lia.
Qed.

(** The theorem at a record without a title and of a category that is not
    in the list. *)
Lemma schema_violations_witness :
  errors (snd (validatePatternYaml Examples.two_violations Examples.patternDir
                 Examples.repoRoot fresh)) =
  [ "pattern.yaml does not conform to JSON Schema:";
    "  - title: must have required property 'title'";
    "  - /category: must be equal to one of the allowed values" ]%string.
Proof.
  apply (schema_violations_all_reported Examples.two_violations
           Examples.patternDir Examples.repoRoot
           (Examples.with_category_value "misc") tt
           (fun _ =>
              [ mkAjvError EmptyString (Some "title"%string)
                  "must have required property 'title'";
                mkAjvError "/category" None
                  "must be equal to one of the allowed values" ]));
    try reflexivity. discriminate.
Defined.

Section MetadataStep.

Variable P : Platform.
Variables patternDir repoRoot : string.

Lemma yaml_missing :
  existsSync P (path_join P [patternDir; "pattern.yaml"]%string) = false ->
  validatePatternYaml P patternDir repoRoot fresh =
  (Normal false, mkState ["pattern.yaml not found"%string] [] []).
Proof. intros H. unfold validatePatternYaml. now rewrite H. Qed.

Lemma yaml_unparseable (msg : string) :
  existsSync P (path_join P [patternDir; "pattern.yaml"]%string) = true ->
  load_yaml P (path_join P [patternDir; "pattern.yaml"]%string) =
    ParseError msg ->
  validatePatternYaml P patternDir repoRoot fresh =
  (Normal false, mkState [parse_error msg] [] []).
Proof. intros H1 H2. unfold validatePatternYaml. now rewrite H1, H2. Qed.

Lemma yaml_schema_missing (data : YamlValue) :
  existsSync P (path_join P [patternDir; "pattern.yaml"]%string) = true ->
  load_yaml P (path_join P [patternDir; "pattern.yaml"]%string) = ParseOk data ->
  existsSync P (path_join P [repoRoot; "schemas"; "pattern-schema.json"]%string)
    = false ->
  validatePatternYaml P patternDir repoRoot fresh =
  (Normal false,
   mkState [schema_not_found] [] ["pattern.yaml is valid YAML format"%string]).
Proof.
  intros H1 H2 H3. unfold validatePatternYaml.
  rewrite H1. cbn [negb]. rewrite H2, H3. reflexivity.
Qed.

Lemma yaml_schema_unreadable (data : YamlValue) (msg : string) :
  existsSync P (path_join P [patternDir; "pattern.yaml"]%string) = true ->
  load_yaml P (path_join P [patternDir; "pattern.yaml"]%string) = ParseOk data ->
  existsSync P (path_join P [repoRoot; "schemas"; "pattern-schema.json"]%string)
    = true ->
  load_schema P (path_join P [repoRoot; "schemas"; "pattern-schema.json"]%string)
    = ParseError msg ->
  validatePatternYaml P patternDir repoRoot fresh =
  (Normal false,
   mkState [("Failed to load JSON Schema: " ++ msg)%string] []
           ["pattern.yaml is valid YAML format"%string]).
Proof.
  intros H1 H2 H3 H4. unfold validatePatternYaml.
  rewrite H1. cbn [negb]. rewrite H2, H3. cbn [negb]. rewrite H4. reflexivity.
Qed.

Lemma yaml_schema_uncompilable (data : YamlValue) (schema : Schema P) :
  existsSync P (path_join P [patternDir; "pattern.yaml"]%string) = true ->
  load_yaml P (path_join P [patternDir; "pattern.yaml"]%string) = ParseOk data ->
  existsSync P (path_join P [repoRoot; "schemas"; "pattern-schema.json"]%string)
    = true ->
  load_schema P (path_join P [repoRoot; "schemas"; "pattern-schema.json"]%string)
    = ParseOk schema ->
  ajv_compile P schema = None ->
  exists msg v, validatePatternYaml P patternDir repoRoot fresh = (Throws msg, v).
Proof.
  intros H1 H2 H3 H4 H5. unfold validatePatternYaml.
  rewrite H1. cbn [negb]. rewrite H2, H3. cbn [negb]. rewrite H4, H5.
  eexists; eexists; reflexivity.
Qed.

(** The metadata step ends with an exception in the two cases named, and in
    no other. *)
Lemma metadata_step_throws_iff :
  (exists msg, fst (validatePatternYaml P patternDir repoRoot fresh) = Throws msg)
  <-> metadata_step_throws P patternDir repoRoot.
Proof.
  unfold metadata_step_throws.
  destruct (existsSync P (path_join P [patternDir; "pattern.yaml"]%string))
    eqn:Hy.
  2: { rewrite yaml_missing by assumption. split.
       - intros [msg H]. discriminate H.
       - intros [H _]. discriminate H. }
  destruct (load_yaml P (path_join P [patternDir; "pattern.yaml"]%string))
    as [msg | data] eqn:Hload.
  { rewrite (yaml_unparseable msg) by assumption. split.
    - intros [m H]. discriminate H.
    - intros (_ & data & schema & H & _). discriminate H. }
  destruct (existsSync P
              (path_join P [repoRoot; "schemas"; "pattern-schema.json"]%string))
    eqn:Hs.
  2: { rewrite (yaml_schema_missing data) by assumption. split.
       - intros [m H]. discriminate H.
       - intros (_ & data' & schema & _ & H & _). discriminate H. }
  destruct (load_schema P
              (path_join P [repoRoot; "schemas"; "pattern-schema.json"]%string))
    as [msg | schema] eqn:Hschema.
  { rewrite (yaml_schema_unreadable data msg) by assumption. split.
    - intros [m H]. discriminate H.
    - intros (_ & data' & schema & _ & _ & H & _). discriminate H. }
  destruct (ajv_compile P schema) as [check|] eqn:Hajv.
  2: { destruct (yaml_schema_uncompilable data schema) as (msg & v & ->);
         try assumption.
       split; [|intros _; now exists msg].
       intros _. split; [reflexivity|]. exists data, schema.
       repeat split; auto. }
  rewrite (validatePatternYaml_checked P patternDir repoRoot data schema check)
    by assumption.
  destruct (check data) as [|e es] eqn:C.
  - destruct data as [|d].
    + split; [|intros _; eexists; reflexivity].
      intros _. split; [reflexivity|]. exists YEmpty, schema.
      repeat split; auto. right. exists check. auto.
    + split.
      * intros [msg H].
        destruct (check_referenced_files_first_dangling P patternDir d
                    (mkState [] []
                       ["pattern.yaml is valid YAML format";
                        "pattern.yaml conforms to JSON Schema (including category, required fields, formats, etc.)"]%string))
          as [F _].
        rewrite F in H. discriminate H.
      * intros (_ & data' & schema' & [= <-] & _ & [= <-] & [H | H]).
        -- congruence.
        -- destruct H as (check' & _ & _ & H). discriminate H.
  - split.
    + intros [msg H]. discriminate H.
    + intros (_ & data' & schema' & [= <-] & _ & [= <-] & [H | H]).
      * congruence.
      * destruct H as (check' & H1 & H2 & _). congruence.
Qed.

(** The metadata step returns without an error exactly for a record that
    the schema accepts and whose references all exist. *)
Lemma metadata_step_clean_iff :
  ((exists b, fst (validatePatternYaml P patternDir repoRoot fresh) = Normal b) /\
   errors (after (validatePatternYaml P patternDir repoRoot)) = []) <->
  (exists d schema check,
     load_yaml P (path_join P [patternDir; "pattern.yaml"]%string) =
       ParseOk (YRecord d) /\
     existsSync P (path_join P [repoRoot; "schemas"; "pattern-schema.json"]%string)
       = true /\
     load_schema P (path_join P [repoRoot; "schemas"; "pattern-schema.json"]%string)
       = ParseOk schema /\
     ajv_compile P schema = Some check /\
     check (YRecord d) = [] /\
     filter (dangling P patternDir) (references d) = []) /\
  existsSync P (path_join P [patternDir; "pattern.yaml"]%string) = true.
Proof.
  unfold after.
  destruct (existsSync P (path_join P [patternDir; "pattern.yaml"]%string))
    eqn:Hy.
  2: { rewrite yaml_missing by assumption. split.
       - intros [_ H]. discriminate H.
       - intros [_ H]. discriminate H. }
  destruct (load_yaml P (path_join P [patternDir; "pattern.yaml"]%string))
    as [msg | data] eqn:Hload.
  { rewrite (yaml_unparseable msg) by assumption. split.
    - intros [_ H]. discriminate H.
    - intros [(d & schema & check & H & _) _]. discriminate H. }
  destruct (existsSync P
              (path_join P [repoRoot; "schemas"; "pattern-schema.json"]%string))
    eqn:Hs.
  2: { rewrite (yaml_schema_missing data) by assumption. split.
       - intros [_ H]. discriminate H.
       - intros [(d & schema & check & _ & H & _) _]. discriminate H. }
  destruct (load_schema P
              (path_join P [repoRoot; "schemas"; "pattern-schema.json"]%string))
    as [msg | schema] eqn:Hschema.
  { rewrite (yaml_schema_unreadable data msg) by assumption. split.
    - intros [_ H]. discriminate H.
    - intros [(d & schema & check & _ & _ & H & _) _]. discriminate H. }
  destruct (ajv_compile P schema) as [check|] eqn:Hajv.
  2: { destruct (yaml_schema_uncompilable data schema) as (msg & v & ->);
         try assumption.
       split.
       - intros [[b H] _]. discriminate H.
       - intros [(d & schema' & check & _ & _ & [= <-] & H & _) _]. congruence. }
  rewrite (validatePatternYaml_checked P patternDir repoRoot data schema check)
    by assumption.
  destruct (check data) as [|e es] eqn:C.
  - destruct data as [|d].
    + split.
      * intros [[b H] _]. discriminate H.
      * intros [(d & schema' & check' & H & _) _]. discriminate H.
    + destruct (check_referenced_files_first_dangling P patternDir d
                  (mkState [] []
                     ["pattern.yaml is valid YAML format";
                      "pattern.yaml conforms to JSON Schema (including category, required fields, formats, etc.)"]%string))
        as [F E].
      cbv zeta in F, E. rewrite E. cbn [errors app]. split.
      * intros [_ H]. split; [|reflexivity]. exists d, schema, check.
        repeat split; auto.
        destruct (filter (dangling P patternDir) (references d));
          [reflexivity | discriminate H].
      * intros [(d' & schema' & check' & [= <-] & _ & [= <-] & _ & _ & H) _].
        rewrite H. split; [|reflexivity]. rewrite F, H. now exists true.
  - split.
    + intros [_ H]. discriminate H.
    + intros [(d & schema' & check' & [= ->] & _ & [= <-] & H1 & H2 & _) _].
      congruence.
Qed.

End MetadataStep.

(** *** The README step *)

Lemma readme_step_normal_iff (P : Platform) (patternDir : string) :
  (exists b, fst (validateReadme P patternDir fresh) = Normal b) <->
  isDirectory P (path_join P [patternDir; "README.md"]%string) = false.
Proof.
  unfold validateReadme, existsSync, readFileSync, isDirectory.
  destruct (fs P (path_join P [patternDir; "README.md"]%string))
    as [|content|size]; simpl.
  - split; [reflexivity | intros _; now exists false].
  - split; [reflexivity|]. intros _. exists true.
    destruct (String.length content <? minLength)%nat; [reflexivity|].
    now destruct (missingSections content).
  - split; [intros [b H]; discriminate H | discriminate].
Qed.

(** The warnings of the README step: none, the one about the length, or
    the one that lists the missing sections. *)
Lemma readme_step_warnings (P : Platform) (patternDir : string) :
  let ws := warnings (after (validateReadme P patternDir)) in
  ws = [] \/ ws = [short_warning] \/
  exists content,
    fs P (path_join P [patternDir; "README.md"]%string) = File content /\
    missingSections content <> [] /\
    ws = [sections_warning (missingSections content)].
Proof.
  unfold after, validateReadme, existsSync, readFileSync.
  destruct (fs P (path_join P [patternDir; "README.md"]%string))
    as [|content|size] eqn:F; simpl; auto.
  destruct (String.length content <? minLength)%nat; simpl; auto.
  destruct (missingSections content) as [|m ms] eqn:M; simpl; auto.
  right; right. exists content. rewrite M.
  split; [reflexivity | split; [discriminate | reflexivity]].
Qed.

(** *** What a run amounts to *)

Lemma naming_clean_iff (patternDir : string) :
  errors (after (validatePatternId patternDir)) = [] <->
  kebab_case (JS.basename patternDir).
Proof.
  unfold after, validatePatternId.
  rewrite <- KebabFacts.kebabCaseRegex_test.
  destruct (RegExp.test RegExp.kebabCaseRegex (JS.basename patternDir));
    simpl; split; congruence.
Qed.

(** X3.  The exit code is 0 exactly when every check of the run was
    passed: the last path segment is in kebab case, the three required
    items are there, the metadata parses to a record that the schema accepts
    and whose referenced files all exist, and [README.md] can be read. *)
Theorem exit_code_zero_iff_passes (P : Platform) (patternDir repoRoot : string) :
  main_exit_code P patternDir repoRoot = 0 <-> passes P patternDir repoRoot.
Proof.
  rewrite main_exit_code_cases. unfold passes, verdict_fail.
  rewrite validate_errors.
  pose proof (metadata_step_clean_iff P patternDir repoRoot) as Y.
  pose proof (readme_step_normal_iff P patternDir) as R.
  pose proof (naming_clean_iff patternDir) as N.
  destruct (validateRequiredFiles_problems P patternDir fresh) as (F & _).
  change (errors (snd (validateRequiredFiles P patternDir fresh)))
    with (errors (after (validateRequiredFiles P patternDir))) in F.
  simpl in F. rewrite F.
  split.
  - intros H.
    destruct (fst (validatePatternYaml P patternDir repoRoot fresh))
      as [b|] eqn:Hb; [|discriminate].
    destruct (fst (validateReadme P patternDir fresh)) as [b'|] eqn:Hb';
      [|discriminate].
    destruct (errors (after (validatePatternId patternDir))) as [|e1 l1];
      [|discriminate].
    destruct (problems P patternDir) as [|e2 l2]; [|discriminate].
    destruct (errors (after (validatePatternYaml P patternDir repoRoot)))
      as [|e3 l3]; [|discriminate].
    split; [now apply N|]. split; [reflexivity|].
    split.
    + apply Y. split; [now exists b | reflexivity].
    + apply R. now exists b'.
  - intros (Hk & Hp & Hy & Hr).
    apply N in Hk. rewrite Hk, Hp.
    apply R in Hr as [b' ->].
    assert (Hy' : (exists b,
              fst (validatePatternYaml P patternDir repoRoot fresh) = Normal b) /\
            errors (after (validatePatternYaml P patternDir repoRoot)) = []).
    { apply Y. split; [exact Hy|].
      unfold problems, requirements, requiredFiles, problem in Hp.
      cbn [map app flat_map] in Hp.
      destruct (existsSync P (path_join P [patternDir; "pattern.yaml"]%string));
        [reflexivity | discriminate Hp]. }
    destruct Hy' as [[b ->] ->]. reflexivity.
Qed.

(** X4.  A run ends with an exception whenever [ajv.compile] throws, the
    schema accepts an empty document (whose properties cannot be read), or
    [README.md] is a directory (the read is outside any [try]); the exit
    code of a run that ends with an exception is 1.  When the metadata step
    stops before the schema is applied (no [pattern.yaml], one that does
    not parse, no schema file, or one that does not parse), the run ends
    with an exception exactly when [README.md] is a directory. *)
Theorem run_throws_cases (P : Platform) (patternDir repoRoot : string) :
  let run := validate P patternDir repoRoot fresh in
  (metadata_step_throws P patternDir repoRoot \/
   isDirectory P (path_join P [patternDir; "README.md"]%string) = true ->
   exists msg, fst run = Throws msg) /\
  ((exists msg, fst run = Throws msg) ->
   main_exit_code P patternDir repoRoot = 1) /\
  (existsSync P (path_join P [patternDir; "pattern.yaml"]%string) = false \/
   (exists msg,
       load_yaml P (path_join P [patternDir; "pattern.yaml"]%string) =
         ParseError msg) \/
   existsSync P (path_join P [repoRoot; "schemas"; "pattern-schema.json"]%string)
     = false \/
   (exists msg,
       load_schema P
         (path_join P [repoRoot; "schemas"; "pattern-schema.json"]%string) =
         ParseError msg) ->
   ((exists msg, fst run = Throws msg) <->
    isDirectory P (path_join P [patternDir; "README.md"]%string) = true)).
Proof.
  intros run. subst run. unfold main_exit_code.
  rewrite validate_steps. cbv zeta.
  pose proof (metadata_step_throws_iff P patternDir repoRoot) as Y.
  pose proof (readme_step_normal_iff P patternDir) as R.
  assert (D : forall msg,
             fst (validateReadme P patternDir fresh) = Throws msg ->
             isDirectory P (path_join P [patternDir; "README.md"]%string)
               = true).
  { intros msg H.
    destruct (isDirectory P (path_join P [patternDir; "README.md"]%string))
      eqn:E; [reflexivity|].
    destruct (proj2 R eq_refl) as [b' H']. congruence. }
  destruct (fst (validatePatternYaml P patternDir repoRoot fresh))
    as [b | msg] eqn:Hb.
  - destruct (fst (validateReadme P patternDir fresh)) as [b' | msg'] eqn:Hb'.
    + assert (R' : isDirectory P (path_join P [patternDir; "README.md"]%string)
                   = false) by (apply R; now exists b').
      rewrite summary_code. split; [|split].
      * intros [H | H]; [|congruence].
        apply Y in H as [msg H]. discriminate H.
      * intros [msg H]. discriminate H.
      * intros _. split; [intros [msg H]; discriminate H | congruence].
    + cbn [fst]. split; [|split].
      * intros _. now exists msg'.
      * reflexivity.
      * intros _. split; [intros _; now apply (D msg') | intros _; now exists msg'].
  - cbn [fst]. split; [|split].
    + intros _. now exists msg.
    + reflexivity.
    + intros H. exfalso.
      assert (T : metadata_step_throws P patternDir repoRoot)
        by (apply Y; now exists msg).
      destruct T as (E1 & data & schema & E2 & E3 & E4 & _).
      destruct H as [H | [[m H] | [H | [m H]]]]; congruence.
Qed.

(** The run over an entry whose [pattern.yaml] is an empty document, in a
    repository whose schema accepts every document. *)
Lemma validator_throws_witness :
  (exists msg,
      fst (validate Examples.empty_document Examples.patternDir
             Examples.repoRoot fresh) = Throws msg) /\
  main_exit_code Examples.empty_document Examples.patternDir
    Examples.repoRoot = 1.
Proof.
  destruct (run_throws_cases Examples.empty_document Examples.patternDir
              Examples.repoRoot) as (T & C & _).
  assert (H : exists msg,
             fst (validate Examples.empty_document Examples.patternDir
                    Examples.repoRoot fresh) = Throws msg).
  { apply T. left. split; [reflexivity|].
    exists YEmpty, tt. repeat split. right. exists (fun _ => []).
    repeat split. }
  split; [exact H | exact (C H)].
Defined.

(** X5.  A run gives one warning at most, and a warning comes from the
    README step alone: it is the one about the length, or the one listing
    the sections that are missing from the README. *)
Theorem at_most_one_warning (P : Platform) (patternDir repoRoot : string) :
  let ws := warnings (snd (validate P patternDir repoRoot fresh)) in
  length ws <= 1 /\
  (ws = [] \/ ws = [short_warning] \/
   exists content,
     fs P (path_join P [patternDir; "README.md"]%string) = File content /\
     missingSections content <> [] /\
     ws = [sections_warning (missingSections content)]).
Proof.
  intros ws. subst ws. rewrite validate_warnings.
  destruct (fst (validatePatternYaml P patternDir repoRoot fresh)).
  - destruct (readme_step_warnings P patternDir)
      as [-> | [-> | (content & F & M & ->)]]; simpl; split; auto.
    right; right. now exists content.
  - simpl. split; auto.
Qed.

(** X6.  An entry without [pattern.yaml] is told so twice: by the
    required-file step and again by the metadata step, which then returns
    at once.  The run's errors end with the second message, the exit code
    is 1, and the README step still runs. *)
Theorem missing_metadata_reported_twice (P : Platform)
  (patternDir repoRoot : string) :
  existsSync P (path_join P [patternDir; "pattern.yaml"]%string) = false ->
  let run := validate P patternDir repoRoot fresh in
  errors (snd run) =
    errors (after (validatePatternId patternDir)) ++
    problems P patternDir ++ ["pattern.yaml not found"%string] /\
  In "Required file missing: pattern.yaml"%string (problems P patternDir) /\
  main_exit_code P patternDir repoRoot = 1 /\
  warnings (snd run) = warnings (after (validateReadme P patternDir)).
Proof.
  intros Hy run. subst run.
  destruct (validateRequiredFiles_problems P patternDir fresh) as (F & _).
  assert (E : errors (snd (validate P patternDir repoRoot fresh)) =
              errors (after (validatePatternId patternDir)) ++
              problems P patternDir ++ ["pattern.yaml not found"%string]).
  { rewrite validate_errors. unfold after at 2 3.
    rewrite F, (yaml_missing P patternDir repoRoot Hy). reflexivity. }
  split; [exact E|]. split; [|split].
  - unfold problems, requirements, requiredFiles, problem.
    cbn [map app flat_map]. rewrite Hy. now left.
  - apply exit_code_of_failure. now apply verdict_fail_app in E.
  - rewrite validate_warnings.
    now rewrite (yaml_missing P patternDir repoRoot Hy).
Qed.

(** The theorem at an entry that has everything but [pattern.yaml]. *)
Lemma missing_metadata_witness :
  errors (snd (validate Examples.no_metadata Examples.patternDir
                 Examples.repoRoot fresh)) =
    [ "Required file missing: pattern.yaml"; "pattern.yaml not found" ]%string /\
  main_exit_code Examples.no_metadata Examples.patternDir Examples.repoRoot = 1.
Proof.
  destruct (missing_metadata_reported_twice Examples.no_metadata
              Examples.patternDir Examples.repoRoot eq_refl)
    as (E & _ & C & _).
  split; [exact E | exact C].
Defined.

End ValidatorRun.


(** ** More on the naming check *)

Module NamingFacts.

Import Effects Validator Naming RegExp RegExpFacts.

(** *** The last path segment *)

Lemma strip_trailing_slashes_app (a b : string) :
  JS.truthy (JS.strip_trailing_slashes b) = true ->
  JS.strip_trailing_slashes (a ++ b) = (a ++ JS.strip_trailing_slashes b)%string.
Proof.
  intros Hb. induction a as [|c a IH]; [reflexivity|].
  change (String c a ++ b)%string with (String c (a ++ b)).
  cbn [JS.strip_trailing_slashes]. rewrite IH.
  assert (T : JS.truthy (a ++ JS.strip_trailing_slashes b) = true).
  { destruct a; [exact Hb | reflexivity]. }
  rewrite T. cbn [negb]. now rewrite andb_false_r.
Qed.

Lemma strip_trailing_slashes_plain (name : string) :
  JS.has_slash name = false -> JS.strip_trailing_slashes name = name.
Proof.
  induction name as [|c name IH]; [reflexivity|].
  cbn [JS.has_slash JS.strip_trailing_slashes]. intros H.
  apply orb_false_iff in H as [-> H]. now rewrite IH.
Qed.

Lemma strip_trailing_slashes_slash (p : string) :
  JS.strip_trailing_slashes (p ++ "/") = JS.strip_trailing_slashes p.
Proof.
  induction p as [|c p IH]; [reflexivity|].
  change (String c p ++ "/")%string with (String c (p ++ "/")).
  cbn [JS.strip_trailing_slashes]. now rewrite IH.
Qed.

Lemma has_slash_app (a b : string) :
  JS.has_slash (a ++ b) = JS.has_slash a || JS.has_slash b.
Proof.
  induction a as [|c a IH]; [reflexivity|].
  change (String c a ++ b)%string with (String c (a ++ b)).
  cbn [JS.has_slash]. now rewrite IH, orb_assoc.
Qed.

Lemma after_last_slash_app (a name : string) :
  JS.has_slash name = false ->
  JS.after_last_slash (a ++ "/" ++ name) = name.
Proof.
  intros Hn. induction a as [|c a IH].
  - change (EmptyString ++ "/" ++ name)%string with (String "/" name).
    cbn [JS.after_last_slash]. now rewrite Hn.
  - change (String c a ++ "/" ++ name)%string
      with (String c (a ++ "/" ++ name)).
    cbn [JS.after_last_slash]. rewrite has_slash_app.
    change (JS.has_slash ("/" ++ name)) with true.
    now rewrite orb_true_r.
Qed.

Lemma after_last_slash_no_slash (s : string) :
  JS.has_slash (JS.after_last_slash s) = false.
Proof.
  induction s as [|c s IH]; [reflexivity|].
  cbn [JS.after_last_slash].
  destruct (JS.has_slash s) eqn:H; [exact IH|].
  destruct (c =? "/")%char eqn:C; [exact H|].
  cbn [JS.has_slash]. now rewrite C, H.
Qed.

Lemma basename_last_segment (dir name : string) :
  name <> EmptyString -> JS.has_slash name = false ->
  JS.basename (dir ++ "/" ++ name) = name.
Proof.
  intros Hne Hn. unfold JS.basename.
  rewrite strip_trailing_slashes_app.
  - rewrite strip_trailing_slashes_app.
    + rewrite strip_trailing_slashes_plain by assumption.
      now apply after_last_slash_app.
    + rewrite strip_trailing_slashes_plain by assumption.
      destruct name; [congruence | reflexivity].
  - change ("/" ++ name)%string with (String "/" name).
    cbn [JS.strip_trailing_slashes].
    rewrite strip_trailing_slashes_plain by assumption.
    destruct name; [congruence | reflexivity].
Qed.

(** X7.  The naming check looks at the last path segment and at nothing
    else: the check of [dir/name] is the check of [name], a slash at the end
    of the path changes nothing, and the name that is checked never has a
    slash in it. *)
Theorem naming_check_of_last_segment (dir name p : string) (v : State) :
  name <> EmptyString -> JS.has_slash name = false ->
  validatePatternId (dir ++ "/" ++ name) v = validatePatternId name v /\
  validatePatternId (p ++ "/") v = validatePatternId p v /\
  JS.has_slash (JS.basename p) = false.
Proof.
  intros Hne Hn. unfold validatePatternId.
  rewrite basename_last_segment by assumption.
  assert (B : JS.basename name = name).
  { unfold JS.basename. rewrite strip_trailing_slashes_plain by assumption.
    clear Hne. induction name as [|c name IH]; [reflexivity|].
    cbn [JS.has_slash] in Hn. apply orb_false_iff in Hn as [Hc Hn].
    cbn [JS.after_last_slash]. now rewrite Hn, Hc. }
  rewrite B. split; [reflexivity|]. split.
  - unfold JS.basename. now rewrite strip_trailing_slashes_slash.
  - apply after_last_slash_no_slash.
Qed.

(** The theorem at the directory of an entry. *)
Lemma naming_check_witness :
  validatePatternId "/repo/sample-pattern" fresh =
  validatePatternId "sample-pattern" fresh.
Proof.
  apply (naming_check_of_last_segment "/repo" "sample-pattern" EmptyString fresh);
    [discriminate | reflexivity].
Defined.

(** *** The pattern, unit by unit *)

Lemma lower_or_digit_not_hyphen (c : ascii) :
  is_lower_or_digit c = true -> is_hyphen c = false.
Proof. destruct c as [[] [] [] [] [] [] [] []]; try reflexivity; discriminate. Qed.

Lemma scan_segment (seg rest : string) (b : bool) :
  all_units is_lower_or_digit seg = true ->
  scan b (seg ++ rest) = if JS.truthy seg then scan true rest else scan b rest.
Proof.
  revert b. induction seg as [|c seg IH]; intros b H; [reflexivity|].
  cbn [all_units] in H. apply andb_true_iff in H as [Hc H].
  change (String c seg ++ rest)%string with (String c (seg ++ rest)).
  cbn [scan JS.truthy]. rewrite Hc, IH by assumption.
  now destruct (JS.truthy seg).
Qed.

Lemma scan_hyphenated (segs : list string) :
  Forall kebab_segment segs -> scan true (hyphenated segs) = true.
Proof.
  induction 1 as [|seg segs [Hne Hseg] _ IH]; [reflexivity|].
  change (hyphenated (seg :: segs))
    with (String "-" (seg ++ hyphenated segs)).
  cbn [scan]. change (is_lower_or_digit "-") with false.
  change (is_hyphen "-") with true. cbn [andb].
  rewrite scan_segment by assumption.
  destruct seg; [congruence | exact IH].
Qed.

Lemma scan_segments (s : string) :
  (scan true s = true ->
   exists seg segs, all_units is_lower_or_digit seg = true /\
                    Forall kebab_segment segs /\
                    s = (seg ++ hyphenated segs)%string) /\
  (scan false s = true ->
   exists seg segs, kebab_segment seg /\ Forall kebab_segment segs /\
                    s = (seg ++ hyphenated segs)%string).
Proof.
  induction s as [|c s [IHt IHf]].
  - split; [|discriminate]. intros _. exists EmptyString, []. auto.
  - cbn [scan]. destruct (is_lower_or_digit c) eqn:Hc.
    + assert (G : scan true s = true ->
                  exists seg segs, kebab_segment seg /\
                    Forall kebab_segment segs /\
                    String c s = (seg ++ hyphenated segs)%string).
      { intros H. destruct (IHt H) as (seg & segs & Hseg & Hsegs & ->).
        exists (String c seg), segs. repeat split; auto.
        - discriminate.
        - cbn [all_units]. now rewrite Hc, Hseg. }
      split; [|exact G].
      intros H. destruct (G H) as (seg & segs & [_ Hseg] & Hsegs & E).
      now exists seg, segs.
    + destruct (is_hyphen c) eqn:Hh; [|split; discriminate].
      split; [|discriminate]. cbn [andb]. intros H.
      destruct (IHf H) as (seg & segs & Hseg & Hsegs & ->).
      exists EmptyString, (seg :: segs). repeat split; auto.
      unfold is_hyphen in Hh. apply Ascii.eqb_eq in Hh. now subst c.
Qed.

Lemma scan_kebab_case (s : string) : scan false s = true <-> kebab_case s.
Proof.
  unfold kebab_case. split.
  - intros H. destruct (proj2 (scan_segments s) H)
      as (seg & segs & Hseg & Hsegs & ->).
    exists seg, segs. split; [now constructor|].
    symmetry. apply KebabFacts.concat_hyphenated.
  - intros (seg & segs & Hall & ->). rewrite KebabFacts.concat_hyphenated.
    inversion Hall as [|? ? [Hne Hseg] Hsegs]; subst.
    rewrite scan_segment by assumption.
    destruct seg; [congruence|]. now apply scan_hyphenated.
Qed.

Lemma ends_with_hyphen_cons (c b : ascii) (s : string) :
  ends_with_hyphen (String c (String b s)) = ends_with_hyphen (String b s).
Proof. reflexivity. Qed.

Lemma has_double_hyphen_cons (c b : ascii) (s : string) :
  has_double_hyphen (String c (String b s)) =
    (is_hyphen c && is_hyphen b) || has_double_hyphen (String b s).
Proof. reflexivity. Qed.

Lemma scan_conditions (s : string) :
  scan true s =
    all_units (fun c => is_lower_or_digit c || is_hyphen c) s &&
    negb (ends_with_hyphen s) && negb (has_double_hyphen s) /\
  scan false s = well_hyphenated s.
Proof.
  unfold well_hyphenated. induction s as [|c s [IHt IHf]]; [now split|].
  destruct s as [|b s].
  - cbn. destruct (is_lower_or_digit c) eqn:Hc.
    + rewrite (lower_or_digit_not_hyphen c Hc). now split.
    + destruct (is_hyphen c); now split.
  - rewrite ends_with_hyphen_cons, has_double_hyphen_cons.
    change (scan true (String c (String b s)))
      with (if is_lower_or_digit c then scan true (String b s)
            else if is_hyphen c then true && scan false (String b s)
            else false).
    change (scan false (String c (String b s)))
      with (if is_lower_or_digit c then scan true (String b s)
            else if is_hyphen c then false && scan false (String b s)
            else false).
    rewrite IHt, IHf.
    change (all_units (fun c0 => is_lower_or_digit c0 || is_hyphen c0)
              (String c (String b s)))
      with ((is_lower_or_digit c || is_hyphen c) &&
            all_units (fun c0 => is_lower_or_digit c0 || is_hyphen c0)
              (String b s)).
    change (JS.truthy (String c (String b s))) with true.
    change (JS.truthy (String b s)) with true.
    change (starts_with_hyphen (String c (String b s))) with (is_hyphen c).
    change (starts_with_hyphen (String b s)) with (is_hyphen b).
    destruct (is_lower_or_digit c) eqn:Hc.
    + rewrite (lower_or_digit_not_hyphen c Hc).
      destruct
        (all_units (fun c0 => is_lower_or_digit c0 || is_hyphen c0)
           (String b s)),
        (ends_with_hyphen (String b s)), (has_double_hyphen (String b s));
        now split.
    + destruct (is_hyphen c), (is_hyphen b),
        (all_units (fun c0 => is_lower_or_digit c0 || is_hyphen c0)
           (String b s)),
        (ends_with_hyphen (String b s)), (has_double_hyphen (String b s));
        now split.
Qed.

(** X8.  The naming check passes exactly the names that are not empty,
    consist of lower case letters, digits and hyphens, neither begin nor
    end with a hyphen and have no two hyphens in a row; the error message
    names only the second of these conditions. *)
Theorem naming_check_unit_by_unit (patternDir : string) (v : State) :
  fst (validatePatternId patternDir v) =
    Normal (well_hyphenated (JS.basename patternDir)) /\
  (well_hyphenated (JS.basename patternDir) = true <->
   kebab_case (JS.basename patternDir)).
Proof.
  assert (E : forall s, test kebabCaseRegex s = well_hyphenated s).
  { intros s. rewrite <- (proj2 (scan_conditions s)).
    pose proof (KebabFacts.kebabCaseRegex_test s) as T.
    pose proof (scan_kebab_case s) as S.
    destruct (test kebabCaseRegex s), (scan false s); try reflexivity.
    - symmetry. apply S, T. reflexivity.
    - apply T, S. reflexivity. }
  split.
  - unfold validatePatternId. rewrite E.
    now destruct (well_hyphenated (JS.basename patternDir)).
  - rewrite <- E. apply KebabFacts.kebabCaseRegex_test.
Qed.

End NamingFacts.

(** ** Finding the repository root *)

Module ValidatorCliFacts.

Import Validator ValidatorCli.

Lemma findRepoRoot_root (P : Platform) (cwd : string) :
  findRepoRoot P cwd [] = cwd.
Proof. reflexivity. Qed.

Lemma findRepoRoot_snoc (P : Platform) (cwd : string)
  (parent : list string) (name : string) :
  findRepoRoot P cwd (parent ++ [name]) =
    if has_marker P (render (parent ++ [name]))
    then render (parent ++ [name])
    else findRepoRoot P cwd parent.
Proof.
  unfold findRepoRoot, has_marker. rewrite rev_app_distr.
  change (rev [name] ++ rev parent) with (name :: rev parent).
  cbn [climb].
  replace (rev (name :: rev parent)) with (parent ++ [name])
    by (cbn [rev]; now rewrite rev_involutive).
  now destruct (existsSync P (path_join P [render (parent ++ [name]); ".git"%string])).
Qed.

Lemma prefix_of_snoc (A : Type) (l p r : list A) (x : A) :
  l ++ [x] = p ++ r ->
  (p = l ++ [x] /\ r = []) \/ exists r', r = r' ++ [x] /\ l = p ++ r'.
Proof.
  intros E. induction r as [|y r' _] using rev_ind.
  - left. rewrite app_nil_r in E. auto.
  - right. rewrite app_assoc in E. apply app_inj_tail in E as [-> ->].
    now exists r'.
Qed.

(** X9.  [findRepoRoot] returns the nearest directory, from the start
    directory upwards, that holds [.git] or [categories.config.json]; the
    root directory itself is never looked at, and when no directory below
    the root has a marker the answer is the working directory of the
    process, whatever the start directory was. *)
Theorem findRepoRoot_nearest_marker (P : Platform) (cwd : string)
  (startPath : list string) :
  (exists ancestor below,
      startPath = ancestor ++ below /\ ancestor <> [] /\
      has_marker P (render ancestor) = true /\
      (forall nearer rest,
          startPath = nearer ++ rest -> length ancestor < length nearer ->
          has_marker P (render nearer) = false) /\
      findRepoRoot P cwd startPath = render ancestor) \/
  ((forall ancestor below,
       startPath = ancestor ++ below -> ancestor <> [] ->
       has_marker P (render ancestor) = false) /\
   findRepoRoot P cwd startPath = cwd).
Proof.
  induction startPath as [|name parent IH] using rev_ind.
  - right. split; [|reflexivity].
    intros ancestor below E Hne. symmetry in E.
    apply app_eq_nil in E as [-> _]. congruence.
  - rewrite findRepoRoot_snoc.
    destruct (has_marker P (render (parent ++ [name]))) eqn:M.
    + left. exists (parent ++ [name]), []. rewrite app_nil_r.
      repeat split; auto.
      * intros E. now apply app_eq_nil in E as [_ E].
      * intros nearer rest E L. apply (f_equal (@length _)) in E.
        rewrite (length_app nearer) in E. lia.
    + destruct IH as [(ancestor & below & E & Hne & Ha & Hnear & R) | [Hnone R]].
      * left. exists ancestor, (below ++ [name]).
        split; [now rewrite E, <- app_assoc|].
        split; [exact Hne|]. split; [exact Ha|]. split; [|exact R].
        intros nearer rest E' L.
        apply prefix_of_snoc in E' as [[-> _] | (rest' & _ & E')];
          [exact M | now apply (Hnear nearer rest')].
      * right. split; [|exact R].
        intros ancestor below E' Hne.
        apply prefix_of_snoc in E' as [[-> _] | (rest' & _ & E')];
          [exact M | now apply (Hnone ancestor rest')].
Qed.

End ValidatorCliFacts.

(** ** More on the notifier *)

Module ReportFacts.

Import Effects Notifier Report NotifierFacts.

(** *** Grouping *)

Lemma Map_set_absent {V} (k : string) (v : V) (m : list (string * V)) :
  Map_has k m = false -> Map_set k v m = m ++ [(k, v)].
Proof.
  unfold Map_has. induction m as [|kv m IH]; [reflexivity|].
  cbn [existsb Map_set]. intros H. apply orb_false_iff in H as [-> H].
  now rewrite IH.
Qed.

Lemma Map_update_absent {V} (k : string) (f : V -> V) (m : list (string * V)) :
  Map_has k m = false -> Map_update k f m = m.
Proof.
  unfold Map_has, Map_update. induction m as [|kv m IH]; [reflexivity|].
  cbn [existsb map]. intros H. apply orb_false_iff in H as [-> H].
  now rewrite IH.
Qed.

Lemma Map_has_update {V} (k c : string) (f : V -> V) (m : list (string * V)) :
  Map_has k (Map_update c f m) = Map_has k m.
Proof.
  unfold Map_has, Map_update. induction m as [|kv m IH]; [reflexivity|].
  cbn [existsb map]. rewrite IH.
  now destruct (String.eqb (fst kv) c).
Qed.

Lemma Map_has_In {V} (k : string) (m : list (string * V)) (kv : string * V) :
  Map_has k m = false -> In kv m -> String.eqb (fst kv) k = false.
Proof.
  unfold Map_has. intros H Hin.
  destruct (String.eqb (fst kv) k) eqn:E; [|reflexivity].
  rewrite <- H. symmetry. apply existsb_exists. now exists kv.
Qed.

Lemma filter_filter {A} (f g : A -> bool) (l : list A) :
  filter f (filter g l) = filter (fun x => g x && f x) l.
Proof.
  induction l as [|x l IH]; [reflexivity|]. cbn [filter].
  destruct (g x); cbn [filter andb]; now rewrite IH.
Qed.

Lemma group_patterns_fold (ps : list Pattern.t) :
  forall m : list (string * list Pattern.t),
    fold_left (fun patternsByCategory pattern =>
                 let m :=
                   if negb (Map_has (Pattern.category pattern) patternsByCategory)
                   then Map_set (Pattern.category pattern) [] patternsByCategory
                   else patternsByCategory in
                 Map_update (Pattern.category pattern)
                   (fun arr => arr ++ [pattern]) m)
              ps m =
    map (fun kv => (fst kv, snd kv ++ filter (member (fst kv)) ps)) m ++
    map (fun category => (category, filter (member category) ps))
        (filter (fun category => negb (Map_has category m))
                (first_appearance (map Pattern.category ps))).
Proof.
  induction ps as [|p ps IH]; intros m.
  - cbn. rewrite app_nil_r. symmetry. rewrite <- (map_id m) at 2.
    apply map_ext. intros [k v]. cbn. now rewrite app_nil_r.
  - cbn [fold_left]. rewrite IH. clear IH.
    cbn [map first_appearance filter].
    destruct (Map_has (Pattern.category p) m) eqn:Hc; cbn [negb].
    + f_equal.
      * unfold Map_update. rewrite map_map. apply map_ext. intros [k v].
        cbn [fst snd]. unfold member at 2.
        rewrite (String.eqb_sym (Pattern.category p) k).
        destruct (String.eqb k (Pattern.category p)); cbn [fst snd];
          [now rewrite <- app_assoc | reflexivity].
      * rewrite filter_filter.
        rewrite (filter_ext
                   (fun x => negb (String.eqb x (Pattern.category p)) &&
                             negb (Map_has x m))
                   (fun x => negb (Map_has x (Map_update (Pattern.category p)
                                                (fun arr => arr ++ [p]) m)))).
        2:{ intros x. rewrite Map_has_update.
            destruct (String.eqb_spec x (Pattern.category p)) as [-> | _];
              [now rewrite Hc | reflexivity]. }
        apply map_ext_in. intros c Hin. apply filter_In in Hin as [_ Hin].
        rewrite Map_has_update in Hin. unfold member at 2.
        destruct (String.eqb_spec (Pattern.category p) c) as [<- | _];
          [now rewrite Hc in Hin | reflexivity].
    + rewrite Map_set_absent by assumption.
      unfold Map_update at 1 2. rewrite map_app. cbn [map fst snd].
      rewrite String.eqb_refl.
      change (map (fun kv => if String.eqb (fst kv) (Pattern.category p)
                             then (fst kv, snd kv ++ [p]) else kv) m)
        with (Map_update (Pattern.category p) (fun arr => arr ++ [p]) m).
      rewrite Map_update_absent by assumption.
      rewrite map_app, <- app_assoc. cbn [map fst snd app].
      f_equal; [|f_equal].
      * apply map_ext_in. intros kv Hin. unfold member at 2.
        rewrite String.eqb_sym, (Map_has_In _ _ _ Hc Hin). reflexivity.
      * unfold member at 2. now rewrite String.eqb_refl.
      * rewrite filter_filter.
        rewrite (filter_ext
                   (fun x => negb (String.eqb x (Pattern.category p)) &&
                             negb (Map_has x m))
                   (fun x => negb (Map_has x (m ++ [(Pattern.category p, [p])])))).
        2:{ intros x. unfold Map_has. rewrite existsb_app. cbn [existsb fst].
            rewrite orb_false_r, (String.eqb_sym (Pattern.category p) x).
            now destruct (String.eqb x (Pattern.category p)),
                         (existsb (fun kv => String.eqb (fst kv) x) m). }
        apply map_ext_in. intros c Hin. apply filter_In in Hin as [_ Hin].
        unfold Map_has in Hin. rewrite existsb_app in Hin. cbn in Hin.
        unfold member at 2.
        destruct (String.eqb (Pattern.category p) c);
          [now rewrite orb_true_r in Hin | reflexivity].
Qed.

Lemma first_appearance_In (x : string) (xs : list string) :
  In x (first_appearance xs) <-> In x xs.
Proof.
  induction xs as [|y xs IH]; [reflexivity|].
  cbn [first_appearance In]. rewrite filter_In, IH.
  destruct (String.eqb_spec x y) as [-> | Hne]; cbn [negb].
  - split; auto.
  - split; [intros [H | [H _]]; auto | intros [H | H]; auto].
Qed.


Lemma group_patterns_eq (ps : list Pattern.t) : group_patterns ps = grouped ps.
Proof.
  unfold group_patterns. rewrite group_patterns_fold. cbn [map app].
  unfold grouped. f_equal. rewrite <- (filter_ext (fun _ => true)) by easy.
  induction (first_appearance (map Pattern.category ps)) as [|c l IH];
    [reflexivity|]. cbn [filter]. now rewrite IH.
Qed.


Lemma grouped_In (ps : list Pattern.t) (category : string)
  (group : list Pattern.t) :
  In (category, group) (grouped ps) <->
  (exists p, In p ps /\ Pattern.category p = category) /\
  group = filter (member category) ps.
Proof.
  unfold grouped. rewrite in_map_iff. split.
  - intros (c & E & Hin). injection E as -> <-.
    apply first_appearance_In, in_map_iff in Hin as (p & E & Hin).
    split; [now exists p | reflexivity].
  - intros [(p & Hin & E) ->]. exists category. split; [reflexivity|].
    apply first_appearance_In, in_map_iff. now exists p.
Qed.


(** *** The text of the report *)

Lemma includes_app_l (a b x : string) :
  JS.includes a x = true -> JS.includes (a ++ b) x = true.
Proof.
  rewrite !ValidatorFacts.includes_occurrence.
  intros (before & after & ->). exists before, (after ++ b)%string.
  now rewrite !append_assoc.
Qed.

Lemma includes_app_r (a b x : string) :
  JS.includes b x = true -> JS.includes (a ++ b) x = true.
Proof.
  rewrite !ValidatorFacts.includes_occurrence.
  intros (before & after & ->). exists (a ++ before)%string, after.
  now rewrite !append_assoc.
Qed.

Lemma includes_refl (x : string) : JS.includes x x = true.
Proof.
  apply ValidatorFacts.includes_occurrence.
  exists EmptyString, EmptyString. cbn. now rewrite append_empty_r.
Qed.

Lemma pattern_lines_fold (ps : list Pattern.t) (comment : string) :
  fold_left (fun comment pattern =>
               (comment ++ "- `" ++ Pattern.directory pattern ++ "`" ++ nl)%string)
            ps comment =
  (comment ++ pattern_lines ps)%string.
Proof.
  unfold pattern_lines.
  induction ps as [|p ps IH] using rev_ind.
  - cbn. now rewrite append_empty_r.
  - rewrite !fold_left_app. cbn [fold_left]. rewrite IH.
    now rewrite !append_assoc.
Qed.

Lemma pattern_lines_includes (ps : list Pattern.t) (p : Pattern.t) :
  In p ps -> JS.includes (pattern_lines ps) (entry_line p) = true.
Proof.
  induction ps as [|q ps IH]; [easy|].
  unfold pattern_lines. cbn [fold_left]. rewrite pattern_lines_fold.
  intros [-> | Hin].
  - apply includes_app_l. apply includes_refl.
  - apply includes_app_r. now apply IH.
Qed.

Lemma join_includes (sep x : string) (xs : list string) :
  In x xs -> JS.includes (JS.join sep xs) x = true.
Proof.
  unfold JS.join. induction xs as [|y xs IH]; [easy|].
  intros Hin. cbn [String.concat]. destruct xs as [|z xs].
  - destruct Hin as [-> | []]. apply includes_refl.
  - destruct Hin as [-> | Hin].
    + apply includes_app_l, includes_refl.
    + apply includes_app_r, includes_app_r. now apply IH.
Qed.

Lemma lookup_inherited (category : string) :
  lookup_property SME_MAPPING category = Inherited <->
  inherited category = true.
Proof.
  unfold lookup_property, inherited.
  destruct (find (fun kv => String.eqb (fst kv) category) SME_MAPPING)
    as [kv|] eqn:F.
  - apply find_some in F as [Hin E]. apply String.eqb_eq in E. subst category.
    split; [discriminate|].
    cbn in Hin.
    repeat (destruct Hin as [<- | Hin]; [discriminate|]). destruct Hin.
  - destruct (existsb (String.eqb category) Object_prototype_keys);
      split; congruence.
Qed.

Lemma category_section_cases (comment : string)
  (entry : string * list Pattern.t) :
  (inherited (fst entry) = true /\
   category_section comment entry =
     Throws "Cannot read properties of undefined (reading 'map')") \/
  (inherited (fst entry) = false /\
   exists body,
     category_section comment entry = Normal (comment ++ body)%string /\
     (forall p, In p (snd entry) -> JS.includes body (entry_line p) = true) /\
     (forall sme r, lookup_property SME_MAPPING (fst entry) = Own sme ->
                    In r (Sme.reviewers sme) ->
                    JS.includes body ("@" ++ r) = true)).
Proof.
  pose proof (lookup_inherited (fst entry)) as I.
  unfold category_section.
  destruct (lookup_property SME_MAPPING (fst entry)) as [sme| |] eqn:L.
  - right. split.
    { destruct (inherited (fst entry)); [|reflexivity].
      discriminate (proj2 I eq_refl). }
    eexists. split; [reflexivity|]. split.
    + intros p Hin. do 12 apply includes_app_r. apply includes_app_l.
      now apply pattern_lines_includes.
    + intros sme' r E Hin. injection E as <-.
      do 7 apply includes_app_r. apply includes_app_l.
      apply join_includes, in_map_iff. now exists r.
  - left. split; [now apply I | reflexivity].
  - right. split.
    { destruct (inherited (fst entry)); [|reflexivity].
      discriminate (proj2 I eq_refl). }
    eexists. split; [reflexivity|]. split.
    + intros p Hin. do 8 apply includes_app_r. apply includes_app_l.
      now apply pattern_lines_includes.
    + discriminate.
Qed.

Lemma category_sections_cases (entries : list (string * list Pattern.t)) :
  forall comment,
    (existsb (fun entry => inherited (fst entry)) entries = true /\
     category_sections comment entries =
       Throws "Cannot read properties of undefined (reading 'map')") \/
    (existsb (fun entry => inherited (fst entry)) entries = false /\
     exists body,
       category_sections comment entries = Normal (comment ++ body)%string /\
       (forall entry p, In entry entries -> In p (snd entry) ->
                        JS.includes body (entry_line p) = true) /\
       (forall entry sme r,
           In entry entries ->
           lookup_property SME_MAPPING (fst entry) = Own sme ->
           In r (Sme.reviewers sme) ->
           JS.includes body ("@" ++ r) = true)).
Proof.
  induction entries as [|entry entries IH]; intros comment.
  - right. split; [reflexivity|]. exists EmptyString.
    cbn [category_sections]. rewrite append_empty_r.
    split; [reflexivity|]. split; intros; contradiction.
  - cbn [category_sections existsb].
    destruct (category_section_cases comment entry)
      as [[I ->] | (I & body & -> & Hp & Hr)]; rewrite I; cbn [orb];
      [now left|].
    destruct (IH (comment ++ body)%string)
      as [[E ->] | (E & rest & -> & Hps & Hrs)]; [now left|].
    right. split; [exact E|]. exists (body ++ rest)%string.
    split; [now rewrite append_assoc|]. split.
    + intros e p [<- | Hin] Hp'.
      * apply includes_app_l. now apply Hp.
      * apply includes_app_r. now apply (Hps e).
    + intros e sme r [<- | Hin] L Hr'.
      * apply includes_app_l. now apply (Hr sme).
      * apply includes_app_r. now apply (Hrs e sme).
Qed.

Lemma grouped_inherited (ps : list Pattern.t) :
  existsb (fun entry => inherited (fst entry)) (grouped ps) =
  existsb (fun p => inherited (Pattern.category p)) ps.
Proof.
  apply eq_true_iff_eq. rewrite !existsb_exists. split.
  - intros ([c group] & Hin & I). apply grouped_In in Hin as [(p & Hp & <-) _].
    now exists p.
  - intros (p & Hp & I).
    exists (Pattern.category p, filter (member (Pattern.category p)) ps).
    split; [|exact I]. apply grouped_In. split; [now exists p | reflexivity].
Qed.

Lemma generateComment_cases (n : State) :
  snd (generateComment n) = n /\
  ((patterns n = [] /\ fst (generateComment n) = Normal None) \/
   (patterns n <> [] /\
    existsb (fun p => inherited (Pattern.category p)) (patterns n) = true /\
    fst (generateComment n) =
      Throws "Cannot read properties of undefined (reading 'map')") \/
   (patterns n <> [] /\
    existsb (fun p => inherited (Pattern.category p)) (patterns n) = false /\
    exists body,
      fst (generateComment n) =
        Normal (Some (comment_header ++ body ++ review_checklist)%string) /\
      (forall p, In p (patterns n) ->
                 JS.includes body (entry_line p) = true) /\
      (forall p sme r,
          In p (patterns n) ->
          lookup_property SME_MAPPING (Pattern.category p) = Own sme ->
          In r (Sme.reviewers sme) ->
          JS.includes body ("@" ++ r) = true))).
Proof.
  rewrite generateComment_reads_patterns. cbn [fst snd].
  split; [reflexivity|].
  destruct (patterns n) as [|q ps] eqn:Ps; [now left | right].
  rewrite <- Ps. assert (Hne : patterns n <> []) by (rewrite Ps; discriminate).
  clear Ps. rewrite group_patterns_eq, <- grouped_inherited.
  destruct (category_sections_cases (grouped (patterns n)) comment_header)
    as [[I ->] | (I & body & -> & Hp & Hr)]; [now left | right].
  split; [exact Hne|]. split; [exact I|]. exists body.
  split; [now rewrite append_assoc|]. split.
  - intros p Hin.
    apply (Hp (Pattern.category p,
               filter (member (Pattern.category p)) (patterns n))).
    + apply grouped_In. split; [now exists p | reflexivity].
    + apply filter_In. split; [exact Hin|]. apply String.eqb_refl.
  - intros p sme r Hin L Hr'.
    apply (Hr (Pattern.category p,
               filter (member (Pattern.category p)) (patterns n)) sme);
      auto.
    apply grouped_In. split; [now exists p | reflexivity].
Qed.

(** X11.  A report that is produced starts with the heading, ends with the
    review checklist, has a line for every routed entry, and mentions every
    reviewer of every routed entry whose category the mapping has. *)
Theorem report_lists_every_entry (n : State) (text : string) :
  fst (generateComment n) = Normal (Some text) ->
  (exists body, text = (comment_header ++ body ++ review_checklist)%string) /\
  (forall p, In p (patterns n) -> JS.includes text (entry_line p) = true) /\
  (forall p sme r,
      In p (patterns n) ->
      lookup_property SME_MAPPING (Pattern.category p) = Own sme ->
      In r (Sme.reviewers sme) ->
      JS.includes text ("@" ++ r) = true).
Proof.
  intros H.
  destruct (generateComment_cases n)
    as [_ [[_ E] | [(_ & _ & E) | (_ & _ & body & E & Hp & Hr)]]];
    rewrite E in H; try discriminate.
  injection H as <-. split; [now exists body|]. split.
  - intros p Hin.
    apply (includes_app_r comment_header), (includes_app_l body).
    now apply Hp.
  - intros p sme r Hin L Hr'.
    apply (includes_app_r comment_header), (includes_app_l body).
    now apply (Hr p sme).
Qed.

(** The theorem at a run over two entries, one of them without category. *)
Lemma report_lists_witness :
  exists text,
    fst (generateComment
           (snd (processPatterns Examples.routing
                   ["queue-worker"; "draft-idea"]%string fresh))) =
      Normal (Some text) /\
    JS.includes text (entry_line (assignment Examples.routing "draft-idea")) =
      true /\
    JS.includes text "@automation-sme2" = true.
Proof.
  eexists. split; [reflexivity|].
  destruct (report_lists_every_entry
              (snd (processPatterns Examples.routing
                      ["queue-worker"; "draft-idea"]%string fresh))
              _ eq_refl) as (_ & Hp & Hr).
  split.
  - apply Hp. right. now left.
  - apply (Hr (assignment Examples.routing "queue-worker")
              (Sme.mk ["automation-sme1"; "automation-sme2"]%string
                 "automation-team" "Automation & Workflows")).
    + now left.
    + reflexivity.
    + right. now left.
Defined.

(** *** A run that throws *)


Lemma run_generateOutput (P : Validator.Platform) (env_GITHUB_OUTPUT : bool)
  (patternDirs : list string) :
  run P env_GITHUB_OUTPUT patternDirs fresh =
  generateOutput env_GITHUB_OUTPUT (snd (processPatterns P patternDirs fresh)).
Proof.
  unfold run, bind.
  destruct (processPatterns_run P patternDirs fresh) as (R & _).
  destruct (processPatterns P patternDirs fresh) as [[[]|msg] n1];
    [reflexivity | discriminate].
Qed.

Lemma assignment_inherited (P : Validator.Platform) (patternDir : string) :
  inherited (Pattern.category (assignment P patternDir)) = true <->
  exists c, getPatternCategory P patternDir = Some c /\ inherited c = true.
Proof.
  unfold assignment. cbn [Pattern.category].
  destruct (getPatternCategory P patternDir) as [c|] eqn:G.
  - apply getPatternCategory_truthy in G. unfold category_label. rewrite G.
    split; [intros I; now exists c | now intros (c' & [= <-] & I)].
  - split; [discriminate | now intros (c' & [=] & _)].
Qed.

Lemma routed_inherited (P : Validator.Platform) (patternDirs : list string) :
  existsb (fun p => inherited (Pattern.category p))
    (patterns (snd (processPatterns P patternDirs fresh))) = true <->
  exists patternDir c,
    In patternDir patternDirs /\
    getPatternCategory P patternDir = Some c /\ inherited c = true.
Proof.
  destruct (processPatterns_run P patternDirs fresh) as (_ & Ps & _).
  cbn [patterns fresh app] in Ps. rewrite Ps, existsb_exists. split.
  - intros (p & Hin & Hi). apply in_map_iff in Hin as (d & <- & Hin).
    apply assignment_inherited in Hi as (c & G & Hi). now exists d, c.
  - intros (d & c & Hin & G & Hi). exists (assignment P d).
    split; [now apply in_map|]. apply assignment_inherited. now exists c.
Qed.

(** *** Routing *)






(** *** The aggregate *)


End ReportFacts.

(** ** The arguments of the notifier *)

Module NotifierCliFacts.

Import Effects Notifier Report NotifierCli NotifierFacts ReportFacts.

Lemma graphic_no_space (c : ascii) : is_graphic c = true -> is_space c = false.
Proof.
  unfold is_graphic, is_space, Detect.unit_in. intros H.
  apply andb_true_iff in H as [L U]. apply Nat.ltb_lt in L, U.
  cbn [existsb]. rewrite !orb_false_r.
  repeat (apply orb_false_iff; split); apply Nat.eqb_neq; lia.
Qed.

Lemma trimEnd_app (a b : string) :
  JS.truthy (trimEnd b) = true ->
  trimEnd (a ++ b) = (a ++ trimEnd b)%string.
Proof.
  intros Hb. induction a as [|c a IH]; [reflexivity|].
  change (String c a ++ b)%string with (String c (a ++ b)).
  cbn [trimEnd]. rewrite IH.
  assert (T : JS.truthy (a ++ trimEnd b) = true).
  { destruct a; [exact Hb | reflexivity]. }
  rewrite T. cbn [negb]. now rewrite andb_false_r.
Qed.

Lemma trimEnd_word (w : string) :
  all_units is_graphic w = true -> trimEnd w = w.
Proof.
  induction w as [|c w IH]; [reflexivity|]. cbn [all_units trimEnd].
  intros H. apply andb_true_iff in H as [Hc H].
  now rewrite (graphic_no_space c Hc), IH.
Qed.

Lemma join_two (w w2 : string) (words : list string) :
  JS.join " " (w :: w2 :: words) =
  (w ++ String " " (JS.join " " (w2 :: words)))%string.
Proof. reflexivity. Qed.

Lemma trimEnd_join (words : list string) :
  Forall argument_word words ->
  trimEnd (JS.join " " words) = JS.join " " words /\
  (words <> [] -> JS.truthy (JS.join " " words) = true).
Proof.
  induction 1 as [|w words [Hne Hw] Hws [IH T]]; [now split|].
  destruct words as [|w2 words].
  - cbn. split; [now apply trimEnd_word | now intros _].
  - rewrite join_two.
    assert (E : trimEnd (String " " (JS.join " " (w2 :: words))) =
                String " " (JS.join " " (w2 :: words))).
    { cbn [trimEnd]. rewrite IH, T by discriminate. reflexivity. }
    split.
    + rewrite trimEnd_app; rewrite E; reflexivity.
    + intros _. now destruct w.
Qed.

Lemma split_spaces_word (w : string) :
  all_units is_graphic w = true ->
  forall in_gap cur rest,
    JS.truthy w = true ->
    split_spaces in_gap cur (w ++ rest) = split_spaces false (cur ++ w) rest.
Proof.
  induction w as [|c w IH]; intros H in_gap cur rest T; [discriminate|].
  cbn [all_units] in H. apply andb_true_iff in H as [Hc H].
  change (String c w ++ rest)%string with (String c (w ++ rest)).
  cbn [split_spaces]. rewrite (graphic_no_space c Hc).
  destruct w as [|d w].
  - reflexivity.
  - rewrite IH by easy. now rewrite append_assoc.
Qed.

Lemma split_spaces_join (words : list string) :
  Forall argument_word words -> words <> [] ->
  forall in_gap, split_spaces in_gap EmptyString (JS.join " " words) = words.
Proof.
  induction 1 as [|w words [Hne Hw] Hws IH]; [congruence|].
  intros _ in_gap. destruct words as [|w2 words].
  - cbn [JS.join String.concat].
    rewrite <- (append_empty_r w) at 1.
    now rewrite split_spaces_word.
  - rewrite join_two, split_spaces_word by assumption.
    cbn [split_spaces append]. change (is_space " ") with true. cbn iota.
    now rewrite IH.
Qed.

Lemma trimStart_word (w rest : string) :
  argument_word w -> trimStart (w ++ rest) = (w ++ rest)%string.
Proof.
  intros [Hne Hw]. destruct w as [|c w]; [discriminate|].
  cbn [all_units] in Hw. apply andb_true_iff in Hw as [Hc _].
  change (String c w ++ rest)%string with (String c (w ++ rest)).
  cbn [trimStart]. now rewrite (graphic_no_space c Hc).
Qed.

Lemma trimStart_spaces (s : string) :
  all_units is_space s = true -> trimStart s = EmptyString.
Proof.
  induction s as [|c s IH]; [reflexivity|]. cbn [all_units trimStart].
  intros H. apply andb_true_iff in H as [-> H]. now apply IH.
Qed.

Lemma split_trim_join (words : list string) :
  words <> [] -> Forall argument_word words ->
  split (trim (JS.join " " words)) = words.
Proof.
  intros Hne Hws. unfold split, trim.
  replace (trimStart (JS.join " " words)) with (JS.join " " words).
  - rewrite (proj1 (trimEnd_join words Hws)).
    now apply split_spaces_join.
  - destruct Hws as [|w words Hw Hws]; [congruence|].
    destruct words as [|w2 words].
    + cbn [JS.join String.concat].
      rewrite <- (append_empty_r w). symmetry. now apply trimStart_word.
    + rewrite join_two. symmetry. now apply trimStart_word.
Qed.

(** X16.  [main] reads back a list of names that was joined with single
    spaces into one argument: it hands [run] the names, in order, as it
    does when each name is an argument of its own.  An argument of white
    space with a space in it is read as one entry with the empty name. *)
Theorem argument_list_round_trip (words : list string) :
  words <> [] -> Forall argument_word words ->
  patternDirs_of [JS.join " " words] = words /\
  patternDirs_of words = words /\
  (forall blank, all_units is_space blank = true ->
                 JS.includes blank " " = true ->
                 patternDirs_of [blank] = [EmptyString]).
Proof.
  intros Hne Hws.
  pose proof (split_trim_join words Hne Hws) as S.
  assert (One : patternDirs_of [JS.join " " words] = words).
  { unfold patternDirs_of. rewrite S.
    destruct words as [|w [|w2 words]]; [congruence| |].
    - cbn [JS.join String.concat]. now destruct (JS.includes w " ").
    - replace (JS.includes (JS.join " " (w :: w2 :: words)) " ") with true;
        [reflexivity|].
      symmetry. apply ValidatorFacts.includes_occurrence.
      exists w, (JS.join " " (w2 :: words)). apply join_two. }
  split; [exact One|]. split.
  - destruct words as [|w [|w2 words]]; [congruence| exact One | reflexivity].
  - intros blank Hb Hi. unfold patternDirs_of. rewrite Hi.
    unfold split, trim. now rewrite trimStart_spaces.
Qed.

(** The theorem at the names of two entries. *)
Lemma argument_list_witness :
  patternDirs_of ["queue-worker mesh-gateway"]%string =
    ["queue-worker"; "mesh-gateway"]%string.
Proof.
  apply (proj1 (argument_list_round_trip
                  ["queue-worker"; "mesh-gateway"]%string
                  ltac:(discriminate)
                  ltac:(repeat constructor))).
Defined.

End NotifierCliFacts.

(** ** The queue handler *)

Module LambdaFacts.

Import Effects Lambda.

Lemma handler_loop {M : Type} (JSON_parse : string -> Validator.Parsed M)
  (Records : list string) :
  forall done : list M,
    let loop :=
      for_of Records (fun record_body (_ : unit) =>
        match JSON_parse record_body with
        | Validator.ParseOk messageBody => processMessage messageBody
        | Validator.ParseError msg => throw msg
        end) tt done in
    (exists messages,
        map JSON_parse Records = map (@Validator.ParseOk M) messages /\
        loop = (Normal tt, done ++ messages)) \/
    (exists before bad after messages msg,
        Records = before ++ bad :: after /\
        map JSON_parse before = map (@Validator.ParseOk M) messages /\
        JSON_parse bad = Validator.ParseError msg /\
        loop = (Throws msg, done ++ messages)).
Proof.
  induction Records as [|record Records IH]; intros done loop; subst loop.
  - left. exists []. split; [reflexivity|]. cbn. now rewrite app_nil_r.
  - destruct (JSON_parse record) as [msg | message] eqn:J.
    + right. exists [], record, Records, [], msg.
      split; [reflexivity|]. split; [reflexivity|]. split; [exact J|].
      cbn [for_of]. unfold bind. rewrite J. unfold throw.
      now rewrite app_nil_r.
    + assert (Step : forall k : unit -> Method (list M) unit,
                bind (match JSON_parse record with
                      | Validator.ParseError msg => throw msg
                      | Validator.ParseOk messageBody =>
                          processMessage messageBody
                      end) k done = k tt (done ++ [message])).
      { intros k. now rewrite J. }
      cbn [for_of]. rewrite Step.
      destruct (IH (done ++ [message]))
        as [(messages & E & L) | (before & bad & after & messages & msg & E & B & F & L)].
      * left. exists (message :: messages). split.
        -- cbn [map]. now rewrite J, E.
        -- rewrite L, <- app_assoc. reflexivity.
      * right. exists (record :: before), bad, after, (message :: messages), msg.
        split; [now rewrite E|]. split; [cbn [map]; now rewrite J, B|].
        split; [exact F|]. rewrite L, <- app_assoc. reflexivity.
Qed.

(** X18.  The queue handler runs the business logic on the messages in
    order and stops at the first record whose body is not JSON: it then
    throws the parse error, after the records before it have been processed
    and without looking at the ones after it.  When every body parses it
    returns status 200 with the number of records. *)
Theorem handler_stops_at_first_bad_record {M : Type}
  (JSON_parse : string -> Validator.Parsed M) (Records : list string)
  (done : list M) :
  (exists messages,
      map JSON_parse Records = map (@Validator.ParseOk M) messages /\
      handler JSON_parse Records done =
        (Normal (mkResponse 200 (processed_json (length Records))),
         done ++ messages)) \/
  (exists before bad after messages msg,
      Records = before ++ bad :: after /\
      map JSON_parse before = map (@Validator.ParseOk M) messages /\
      JSON_parse bad = Validator.ParseError msg /\
      handler JSON_parse Records done = (Throws msg, done ++ messages)).
Proof.
  unfold handler, bind.
  destruct (handler_loop JSON_parse Records done)
    as [(messages & E & L) | (before & bad & after & messages & msg & E & B & F & L)];
    rewrite L.
  - left. now exists messages.
  - right. exists before, bad, after, messages, msg. repeat split; assumption || reflexivity.
Qed.

End LambdaFacts.

(** ** More on the change detector *)

Module DetectMore.

Import Detect DetectFacts.

Lemma PATTERN_DIRS_sorted (changed : list string) :
  StronglySorted string_lt (PATTERN_DIRS changed).
Proof.
  rewrite PATTERN_DIRS_filters. apply filter_sorted, sort_u_sorted.
Qed.

Lemma cut_f1_prefix (path : string) :
  exists rest, path = (cut_f1 path ++ rest)%string.
Proof.
  induction path as [|c path [rest IH]]; [now exists EmptyString|].
  cbn [cut_f1]. destruct (c =? "/")%char.
  - now exists (String c path).
  - exists rest. cbn. now rewrite <- IH.
Qed.

Lemma cut_f1_no_slash (path : string) : JS.has_slash (cut_f1 path) = false.
Proof.
  induction path as [|c path IH]; [reflexivity|].
  cbn [cut_f1]. destruct (c =? "/")%char eqn:C; [reflexivity|].
  cbn [JS.has_slash]. now rewrite C, IH.
Qed.

Lemma starting_cut_f1 (text path : string) :
  starting text (cut_f1 path) = true -> starting text path = true.
Proof.
  unfold starting. rewrite !ValidatorFacts.prefix_append.
  intros [r E]. destruct (cut_f1_prefix path) as [rest P].
  exists (r ++ rest)%string. rewrite <- append_assoc, <- E. exact P.
Qed.

(** X19.  Whatever the changed paths are, the names in [PATTERN_DIRS] are
    in strictly ascending order, so none comes twice; none is empty, none
    has a slash, and none begins with a dot or with [LICENSE]. *)
Theorem PATTERN_DIRS_invariant (changed : list string) :
  StronglySorted string_lt (PATTERN_DIRS changed) /\
  NoDup (PATTERN_DIRS changed) /\
  Forall (fun d => d <> EmptyString /\ JS.has_slash d = false /\
                   starting "." d = false /\ starting "LICENSE" d = false)
         (PATTERN_DIRS changed).
Proof.
  split; [apply PATTERN_DIRS_sorted|].
  split; [apply sorted_NoDup, PATTERN_DIRS_sorted|].
  apply Forall_forall. intros d Hin. rewrite PATTERN_DIRS_filters in Hin.
  apply filter_In in Hin as [Hin T].
  apply (proj1 (sort_u_In _ _)) in Hin.
  apply in_map_iff in Hin as (path & <- & Hin).
  apply filter_In in Hin as [_ D]. apply negb_true_iff in D.
  unfold denylisted in D. repeat (apply orb_false_iff in D as [D ?]).
  split; [intros E; now rewrite E in T|].
  split; [apply cut_f1_no_slash|].
  split.
  - destruct (starting "." (cut_f1 path)) eqn:S; [|reflexivity].
    apply starting_cut_f1 in S. congruence.
  - destruct (starting "LICENSE" (cut_f1 path)) eqn:S; [|reflexivity].
    apply starting_cut_f1 in S. congruence.
Qed.

Lemma sorted_same_members (l1 : list string) :
  forall l2,
    StronglySorted string_lt l1 -> StronglySorted string_lt l2 ->
    (forall x, In x l1 <-> In x l2) -> l1 = l2.
Proof.
  induction l1 as [|a l1 IH]; intros l2 S1 S2 M.
  - destruct l2 as [|b l2]; [reflexivity|].
    destruct (proj2 (M b) (or_introl eq_refl)).
  - destruct l2 as [|b l2]; [destruct (proj1 (M a) (or_introl eq_refl))|].
    apply StronglySorted_inv in S1 as [S1 A].
    apply StronglySorted_inv in S2 as [S2 B].
    rewrite Forall_forall in A, B.
    assert (E : a = b).
    { destruct (proj1 (M a) (or_introl eq_refl)) as [E | Ha]; [now symmetry|].
      destruct (proj2 (M b) (or_introl eq_refl)) as [E | Hb]; [exact E|].
      exfalso. apply (string_lt_irrefl a).
      apply (string_lt_trans a b a); [now apply A | now apply B]. }
    subst b. f_equal. apply IH; try assumption.
    intros x. split; intros Hx.
    + destruct (proj1 (M x) (or_intror Hx)) as [E | H]; [|exact H].
      subst x. exfalso. apply (string_lt_irrefl a). now apply A.
    + destruct (proj2 (M x) (or_intror Hx)) as [E | H]; [|exact H].
      subst x. exfalso. apply (string_lt_irrefl a). now apply B.
Qed.

(** X20.  For paths without blanks, glob characters, quotes or
    backslashes whose first segment [echo] does not take for options, the
    outcome of the detector depends on which paths changed, not on their
    order nor on how often a path is listed. *)
Theorem detect_ignores_order_and_repetition (E : Env)
  (changed changed' : list string) :
  Forall (fun path => shell_plain path = true) changed ->
  Forall (fun path => shell_plain path = true) changed' ->
  (forall path, In path changed <-> In path changed') ->
  PATTERN_DIRS changed = PATTERN_DIRS changed' /\
  detect E changed = detect E changed'.
Proof.
  intros H H' M.
  assert (P : PATTERN_DIRS changed = PATTERN_DIRS changed').
  { apply sorted_same_members; try apply PATTERN_DIRS_sorted.
    intros d. rewrite !PATTERN_DIRS_In by assumption.
    split; intros (path & Hin & R); exists path; (split; [now apply M | exact R]). }
  split; [exact P|]. unfold detect. now rewrite P.
Qed.

(** The theorem at two listings of the same two paths. *)
Lemma detect_order_witness :
  detect Examples.tree_two_entries
    ["queue-worker/README.md"; "mesh-gateway/pattern.yaml"]%string =
  detect Examples.tree_two_entries
    ["mesh-gateway/pattern.yaml"; "queue-worker/README.md";
     "mesh-gateway/pattern.yaml"]%string.
Proof.
  apply (proj2 (detect_ignores_order_and_repetition Examples.tree_two_entries
           ["queue-worker/README.md"; "mesh-gateway/pattern.yaml"]%string
           ["mesh-gateway/pattern.yaml"; "queue-worker/README.md";
            "mesh-gateway/pattern.yaml"]%string
           ltac:(repeat constructor) ltac:(repeat constructor)
           ltac:(intros path; cbn [In]; tauto))).
Defined.

End DetectMore.

(** ** The notifier on any metadata *)

Module ReviewerNotifierFacts.

Import Effects ReviewerNotifier NotifierFacts.
Local Open Scope method_scope.

(** *** Routing *)

Lemma getPatternCategory_is_truthy (S : Sources) (patternDir : string)
  (v : Value) :
  getPatternCategory S patternDir = Some v -> truthy v = true.
Proof.
  unfold getPatternCategory.
  destruct (negb _); [discriminate|].
  destruct (Validator.readFileSync _ _); [discriminate|].
  destruct (yaml_load S _) as [|[|[v'|]]]; try discriminate.
  destruct (truthy v') eqn:T; [|discriminate].
  now intros [= <-].
Qed.

Lemma getPatternCategory_null (S : Sources) (patternDir : string) :
  let path :=
    Validator.path_join (files S) [patternDir; "pattern.yaml"]%string in
  getPatternCategory S patternDir = None <->
  Validator.existsSync (files S) path = false \/
  (exists msg, load_document S path = Validator.ParseError msg) \/
  load_document S path = Validator.ParseOk Empty \/
  load_document S path = Validator.ParseOk (Loaded None) \/
  (exists v, load_document S path = Validator.ParseOk (Loaded (Some v)) /\
             truthy v = false).
Proof.
  intros path. unfold getPatternCategory, load_document. fold path.
  destruct (Validator.existsSync (files S) path); simpl.
  2: { split; auto. }
  destruct (Validator.readFileSync (files S) path) as [msg | content].
  { split; [intros _; right; left; now exists msg | reflexivity]. }
  destruct (yaml_load S content) as [msg | [| [v|]]].
  - split; [intros _; right; left; now exists msg | reflexivity].
  - split; [intros _; right; right; now left | reflexivity].
  - destruct (truthy v) eqn:T.
    + split; [discriminate|].
      intros [H | [[msg H] | [H | [H | (v' & H & H')]]]]; try discriminate.
      injection H as <-. congruence.
    + split; [|reflexivity]. intros _. do 4 right. now exists v.
  - split; [|reflexivity]. intros _. right; right; right. now left.
Qed.

Lemma label_loop (label : Category) (reviewers : list string) (n : State) :
  for_of reviewers (fun reviewer (_ : unit) =>
    n <- get ;;
    put (mkState (Notifier.Set_add reviewer (allReviewers n))
           (Map_update label (Notifier.Set_add reviewer) (categoryReviewers n))
           (patterns n) (github_output n))) tt n =
  (Normal tt,
   mkState (Notifier.add_all reviewers (allReviewers n))
     (fold_left (fun m reviewer =>
                   Map_update label (Notifier.Set_add reviewer) m)
        reviewers (categoryReviewers n))
     (patterns n) (github_output n)).
Proof.
  revert n. induction reviewers as [|r rest IH]; intros n; simpl.
  - now destruct n.
  - unfold bind at 1. simpl. unfold bind at 1. simpl. now rewrite IH.
Qed.

Lemma getReviewersForCategory_run (S : Sources) (patternDir : string)
  (n : State) :
  getReviewersForCategory (getPatternCategory S patternDir) n =
  if has_key (getPatternCategory S patternDir)
  then (Normal (reviewers_for (getPatternCategory S patternDir)), n)
  else (Throws cannot_convert, n).
Proof.
  destruct (getPatternCategory S patternDir) as [v|] eqn:C; [|reflexivity].
  apply getPatternCategory_is_truthy in C.
  unfold getReviewersForCategory, has_key, reviewers_for. rewrite C. cbn [negb].
  destruct (property_key v) as [key|]; [|reflexivity].
  now destruct (Notifier.lookup_property Notifier.SME_MAPPING key).
Qed.

Lemma bind_run {St A B} (m : Effects.Method St A)
  (k : A -> Effects.Method St B) (v : St) (r : Completion A * St) :
  m v = r ->
  bind m k v =
  match r with
  | (Normal a, v') => k a v'
  | (Throws msg, v') => (Throws msg, v')
  end.
Proof. intros <-. reflexivity. Qed.

Lemma routing_step (S : Sources) (patternDir : string) (n : State) :
  if has_key (getPatternCategory S patternDir)
  then exists aggregate byCategory,
      processPattern S patternDir n =
      (Normal tt,
       mkState aggregate byCategory
         (patterns n ++ [assignment S (length (patterns n)) patternDir])
         (github_output n))
  else processPattern S patternDir n = (Throws cannot_convert, n).
Proof.
  unfold processPattern. rewrite bind_get. cbv zeta.
  rewrite (bind_run _ _ _ _ (getReviewersForCategory_run S patternDir n)).
  destruct (has_key (getPatternCategory S patternDir)); [|reflexivity].
  rewrite bind_put. unfold assignment.
  destruct (getPatternCategory S patternDir) as [v|].
  - rewrite bind_get. cbn [categoryReviewers allReviewers patterns github_output].
    destruct (negb (Map_has (held (length (patterns n)) v)
                      (categoryReviewers n)));
      [rewrite bind_put | rewrite bind_ret];
      rewrite label_loop; cbn; eexists; eexists; reflexivity.
  - eexists; eexists; reflexivity.
Qed.

Lemma processPatterns_loop (S : Sources) (patternDirs : list string)
  (n : State) :
  processPatterns S patternDirs n =
  for_of patternDirs (fun patternDir (_ : unit) => processPattern S patternDir)
    tt n.
Proof. now destruct patternDirs. Qed.

Lemma routing_run (S : Sources) (patternDirs : list string) :
  forall n,
    if forallb (fun dir => has_key (getPatternCategory S dir)) patternDirs
    then exists aggregate byCategory,
        processPatterns S patternDirs n =
        (Normal tt,
         mkState aggregate byCategory
           (patterns n ++ assignments S (length (patterns n)) patternDirs)
           (github_output n))
    else exists n',
        processPatterns S patternDirs n = (Throws cannot_convert, n') /\
        github_output n' = github_output n.
Proof.
  induction patternDirs as [|dir dirs IH]; intros n.
  - cbn. exists (allReviewers n), (categoryReviewers n).
    rewrite app_nil_r. now destruct n.
  - rewrite processPatterns_loop. cbn [forallb for_of assignments].
    pose proof (routing_step S dir n) as Step.
    unfold bind.
    destruct (has_key (getPatternCategory S dir)); cbn [andb].
    + destruct Step as (aggregate & byCategory & ->).
      rewrite <- processPatterns_loop.
      specialize (IH (mkState aggregate byCategory
                        (patterns n ++ [assignment S (length (patterns n)) dir])
                        (github_output n))).
      cbn [patterns github_output] in IH.
      rewrite length_app, Nat.add_1_r, <- app_assoc in IH. exact IH.
    + rewrite Step. now exists n.
Qed.

Lemma assignments_directories (S : Sources) (patternDirs : list string) :
  forall loaded,
    map Pattern.directory (assignments S loaded patternDirs) = patternDirs.
Proof.
  induction patternDirs as [|dir dirs IH]; intros loaded; [reflexivity|].
  cbn [assignments map]. now rewrite IH.
Qed.

(** *** The keys of the groups *)

Lemma same_refl (c : Category) : same c c = true.
Proof.
  destruct c; cbn; [apply String.eqb_refl | apply String.eqb_refl |
                    apply Nat.eqb_refl].
Qed.

Lemma Map_update_keys {V} (k : Category) (f : V -> V)
  (m : list (Category * V)) :
  map fst (Map_update k f m) = map fst m.
Proof.
  unfold Map_update. rewrite map_map. apply map_ext.
  intros kv. now destruct (same (fst kv) k).
Qed.

Lemma Map_set_new_key {V} (k : Category) (v : V) (m : list (Category * V)) :
  Map_has k m = false -> Map_set k v m = m ++ [(k, v)].
Proof.
  unfold Map_has. induction m as [|kv m IH]; [reflexivity|].
  cbn [existsb Map_set]. intros H. apply orb_false_iff in H as [-> H].
  now rewrite IH.
Qed.

Lemma group_step_keys (m : list (Category * list Pattern.t))
  (p : Pattern.t) :
  map fst
    (Map_update (Pattern.category p) (fun arr => arr ++ [p])
       (if negb (Map_has (Pattern.category p) m)
        then Map_set (Pattern.category p) [] m else m)) =
  if Map_has (Pattern.category p) m then map fst m
  else map fst m ++ [Pattern.category p].
Proof.
  rewrite Map_update_keys.
  destruct (Map_has (Pattern.category p) m) eqn:H; cbn [negb]; [reflexivity|].
  rewrite Map_set_new_key by assumption. now rewrite map_app.
Qed.

Lemma group_keys (ps : list Pattern.t) :
  forall m : list (Category * list Pattern.t),
    let groups :=
      fold_left (fun patternsByCategory pattern =>
                   let m :=
                     if negb (Map_has (Pattern.category pattern)
                                patternsByCategory)
                     then Map_set (Pattern.category pattern) []
                            patternsByCategory
                     else patternsByCategory in
                   Map_update (Pattern.category pattern)
                     (fun arr => arr ++ [pattern]) m)
                ps m in
    (forall k, In k (map fst groups) ->
               In k (map fst m) \/ In k (map Pattern.category ps)) /\
    (forall k, In k (map fst m) -> In k (map fst groups)) /\
    (forall p, In p ps ->
               exists k, In k (map fst groups) /\
                         same k (Pattern.category p) = true).
Proof.
  induction ps as [|p ps IH]; intros m groups; subst groups.
  - cbn. repeat split; auto. intros p [].
  - cbn [fold_left map In].
    destruct (IH (Map_update (Pattern.category p) (fun arr => arr ++ [p])
                    (if negb (Map_has (Pattern.category p) m)
                     then Map_set (Pattern.category p) [] m else m)))
      as (K1 & K2 & K3).
    rewrite group_step_keys in K1, K2.
    split; [|split].
    + intros k Hk. destruct (K1 k Hk) as [H | H]; [|auto].
      destruct (Map_has (Pattern.category p) m); [auto|].
      apply in_app_or in H as [H | [<- | []]]; auto.
    + intros k Hk. apply K2.
      destruct (Map_has (Pattern.category p) m); [exact Hk|].
      apply in_or_app. now left.
    + intros q [<- | Hq]; [|now apply K3].
      destruct (Map_has (Pattern.category p) m) eqn:H.
      * unfold Map_has in H. apply existsb_exists in H as (kv & Hin & Hs).
        exists (fst kv). split; [|exact Hs]. apply K2. now apply in_map.
      * exists (Pattern.category p). split; [|apply same_refl].
        apply K2, in_or_app. right. now left.
Qed.

(** Entries routed by one notifier hold different objects: two categories
    that are the same key have the same property key. *)
Lemma assignments_loaded (S : Sources) (patternDirs : list string) :
  forall loaded p i key,
    In p (assignments S loaded patternDirs) ->
    Pattern.category p = OfReference i key -> loaded <= i.
Proof.
  induction patternDirs as [|dir dirs IH]; intros loaded p i key Hin E;
    [destruct Hin|].
  destruct Hin as [<- | Hin].
  - unfold assignment in E. cbn [Pattern.category] in E.
    destruct (getPatternCategory S dir) as [[s|t|k]|]; try discriminate.
    cbn in E. injection E as <- _. lia.
  - specialize (IH _ _ _ _ Hin E). lia.
Qed.

Lemma same_key (a b : Category) :
  same a b = true ->
  match a, b with
  | OfReference i _, OfReference j _ => i = j
  | _, _ => key_of a = key_of b
  end.
Proof.
  destruct a, b; cbn; try discriminate.
  - now intros ->%String.eqb_eq.
  - now intros ->%String.eqb_eq.
  - now intros ->%Nat.eqb_eq.
Qed.

Lemma assignments_coherent (S : Sources) (patternDirs : list string) :
  forall loaded p q,
    In p (assignments S loaded patternDirs) ->
    In q (assignments S loaded patternDirs) ->
    same (Pattern.category p) (Pattern.category q) = true ->
    key_of (Pattern.category p) = key_of (Pattern.category q).
Proof.
  induction patternDirs as [|dir dirs IH]; intros loaded p q Hp Hq Hs;
    [destruct Hp|].
  assert (Head : forall r i key j key',
             In r (assignments S (Datatypes.S loaded) dirs) ->
             Pattern.category (assignment S loaded dir) = OfReference i key ->
             Pattern.category r = OfReference j key' -> i <> j).
  { intros r i key j key' Hr E E'.
    pose proof (assignments_loaded S dirs _ _ _ _ Hr E') as L.
    unfold assignment in E. cbn [Pattern.category] in E.
    destruct (getPatternCategory S dir) as [[s|t|k]|]; try discriminate.
    cbn in E. injection E as <- _. lia. }
  pose proof (same_key _ _ Hs) as K.
  destruct Hp as [<- | Hp], Hq as [<- | Hq].
  - reflexivity.
  - destruct (Pattern.category (assignment S loaded dir)) eqn:E,
      (Pattern.category q) eqn:E'; try exact K.
    now destruct (Head q _ _ _ _ Hq eq_refl E').
  - destruct (Pattern.category p) eqn:E',
      (Pattern.category (assignment S loaded dir)) eqn:E; try exact K.
    symmetry in K. now destruct (Head p _ _ _ _ Hp eq_refl E').
  - now apply (IH (Datatypes.S loaded)).
Qed.

(** *** The report *)

Lemma section_cases (comment : string)
  (entry : Category * list Pattern.t) :
  match key_of (fst entry) with
  | None => category_section comment entry = Throws cannot_convert
  | Some key =>
      if Report.inherited key
      then category_section comment entry = Throws cannot_read_map
      else exists comment', category_section comment entry = Normal comment'
  end.
Proof.
  unfold category_section. destruct (key_of (fst entry)) as [key|];
    [|reflexivity].
  pose proof (ReportFacts.lookup_inherited key) as I.
  destruct (Notifier.lookup_property Notifier.SME_MAPPING key) as [sme| |].
  - destruct (Report.inherited key); [discriminate (proj2 I eq_refl)|].
    eexists; reflexivity.
  - now rewrite (proj1 I eq_refl).
  - destruct (Report.inherited key); [discriminate (proj2 I eq_refl)|].
    eexists; reflexivity.
Qed.

Lemma category_sections_keyed (entries : list (Category * list Pattern.t)) :
  (forall entry, In entry entries -> key_of (fst entry) <> None) ->
  forall comment,
    if existsb (fun entry => unusable (fst entry)) entries
    then category_sections comment entries = Throws cannot_read_map
    else exists comment', category_sections comment entries = Normal comment'.
Proof.
  induction entries as [|entry entries IH]; intros Hk comment.
  - cbn. now exists comment.
  - cbn [existsb category_sections].
    pose proof (section_cases comment entry) as C.
    pose proof (Hk entry (or_introl eq_refl)) as K.
    unfold unusable at 1.
    destruct (key_of (fst entry)) as [key|]; [|congruence].
    destruct (Report.inherited key); cbn [orb].
    + now rewrite C.
    + destruct C as [comment' ->]. apply IH.
      intros e He. apply Hk. now right.
Qed.

Lemma comment_reads_patterns (n : State) :
  generateComment n =
  (match patterns n with
   | [] => Normal None
   | _ :: _ =>
       match category_sections Notifier.comment_header
               (group_patterns (patterns n)) with
       | Throws msg => Throws msg
       | Normal comment =>
           Normal (Some (comment ++ Notifier.review_checklist)%string)
       end
   end, n).
Proof.
  unfold generateComment. rewrite bind_get.
  destruct (patterns n) as [|p ps]; [reflexivity|]. cbn [length Nat.eqb].
  now destruct (category_sections _ _).
Qed.

Lemma held_key (loaded : nat) (v : Value) :
  key_of (held loaded v) = property_key v.
Proof. now destruct v. Qed.

Lemma assignment_unusable (S : Sources) (loaded : nat) (patternDir : string) :
  has_key (getPatternCategory S patternDir) = true ->
  key_of (Pattern.category (assignment S loaded patternDir)) <> None /\
  unusable (Pattern.category (assignment S loaded patternDir)) =
    inherited (getPatternCategory S patternDir).
Proof.
  unfold assignment, unusable, inherited, has_key. cbn [Pattern.category].
  destruct (getPatternCategory S patternDir) as [v|].
  - rewrite held_key. destruct (property_key v); [|discriminate].
    intros _. split; [discriminate | reflexivity].
  - intros _. split; [discriminate | reflexivity].
Qed.

Lemma assignments_unusable (S : Sources) (patternDirs : list string) :
  forall loaded,
    forallb (fun dir => has_key (getPatternCategory S dir)) patternDirs = true ->
    (forall p, In p (assignments S loaded patternDirs) ->
               key_of (Pattern.category p) <> None) /\
    existsb (fun p => unusable (Pattern.category p))
      (assignments S loaded patternDirs) =
    existsb (fun dir => inherited (getPatternCategory S dir)) patternDirs.
Proof.
  induction patternDirs as [|dir dirs IH]; intros loaded H.
  - split; [intros p [] | reflexivity].
  - cbn [forallb] in H. apply andb_true_iff in H as [Hd H].
    destruct (assignment_unusable S loaded dir Hd) as [K U].
    destruct (IH (Datatypes.S loaded) H) as [Ks Us].
    cbn [assignments existsb]. rewrite U, Us. split; [|reflexivity].
    intros p [<- | Hp]; [exact K | now apply Ks].
Qed.

Lemma groups_unusable (S : Sources) (patternDirs : list string) :
  forallb (fun dir => has_key (getPatternCategory S dir)) patternDirs = true ->
  (forall entry, In entry (group_patterns (assignments S 0 patternDirs)) ->
                 key_of (fst entry) <> None) /\
  existsb (fun entry => unusable (fst entry))
    (group_patterns (assignments S 0 patternDirs)) =
  existsb (fun dir => inherited (getPatternCategory S dir)) patternDirs.
Proof.
  intros H. destruct (assignments_unusable S patternDirs 0 H) as [Ks Us].
  destruct (group_keys (assignments S 0 patternDirs) []) as (K1 & _ & K3).
  fold (group_patterns (assignments S 0 patternDirs)) in K1, K3.
  assert (Keys : forall entry,
             In entry (group_patterns (assignments S 0 patternDirs)) ->
             exists p, In p (assignments S 0 patternDirs) /\
                       Pattern.category p = fst entry).
  { intros entry Hin. destruct (K1 (fst entry)) as [[] | Hc];
      [now apply in_map|].
    apply in_map_iff in Hc as (p & E & Hp). now exists p. }
  split.
  - intros entry Hin. destruct (Keys entry Hin) as (p & Hp & <-).
    now apply Ks.
  - rewrite <- Us. apply eq_true_iff_eq. rewrite !existsb_exists. split.
    + intros (entry & Hin & U). destruct (Keys entry Hin) as (p & Hp & E).
      exists p. now rewrite E.
    + intros (p & Hp & U). destruct (K3 p Hp) as (k & Hk & Hs).
      apply in_map_iff in Hk as (entry & <- & Hin).
      exists entry. split; [exact Hin|].
      destruct (Keys entry Hin) as (q & Hq & E).
      unfold unusable in *.
      rewrite <- E, (assignments_coherent S patternDirs 0 q p Hq Hp);
        [exact U | now rewrite E].
Qed.

Lemma output_cases (env_GITHUB_OUTPUT : bool) (n : State) :
  fst (generateOutput env_GITHUB_OUTPUT n) =
    match fst (generateComment n) with
    | Normal comment =>
        Normal (Output.mk (allReviewers n) (patterns n) comment)
    | Throws msg => Throws msg
    end /\
  github_output (snd (generateOutput env_GITHUB_OUTPUT n)) =
    github_output n ++
    (if env_GITHUB_OUTPUT then
       [("reviewers=" ++ Notifier.JSON_stringify (allReviewers n) ++
         Notifier.nl)%string;
        ("reviewer_count=" ++ Notifier.decimal (length (allReviewers n)) ++
         Notifier.nl)%string]
       ++ match fst (generateComment n) with
          | Normal (Some text) =>
              [("pr_comment<<EOF" ++ Notifier.nl ++ text ++ Notifier.nl ++
                "EOF" ++ Notifier.nl)%string]
          | _ => []
          end
     else []).
Proof.
  unfold generateOutput, appendFileSync, bind, get, put, ret.
  destruct env_GITHUB_OUTPUT.
  - rewrite !comment_reads_patterns.
    cbn [fst snd patterns github_output allReviewers].
    destruct (patterns n) as [|p ps] eqn:Ps.
    + rewrite ?comment_reads_patterns.
      cbn [fst snd patterns github_output allReviewers]. rewrite ?Ps.
      cbn. rewrite <- app_assoc. now split.
    + destruct (category_sections _ _) as [comment | msg] eqn:C.
      * rewrite comment_truthy. rewrite ?comment_reads_patterns.
        cbn [fst snd patterns github_output allReviewers]. rewrite ?Ps, ?C.
        cbn. rewrite <- !app_assoc. now split.
      * cbn. rewrite <- app_assoc. now split.
  - rewrite !comment_reads_patterns.
    cbn [fst snd patterns github_output allReviewers].
    destruct (patterns n) as [|p ps] eqn:Ps.
    + cbn. rewrite ?Ps, app_nil_r. now split.
    + destruct (category_sections _ _) as [comment | msg] eqn:C;
        cbn; rewrite ?Ps, app_nil_r; now split.
Qed.

(** A run, by its two steps. *)
Lemma run_cases (S : Sources) (env_GITHUB_OUTPUT : bool)
  (patternDirs : list string) :
  let r := run S env_GITHUB_OUTPUT patternDirs fresh in
  if forallb (fun dir => has_key (getPatternCategory S dir)) patternDirs
  then
    if existsb (fun dir => inherited (getPatternCategory S dir)) patternDirs
    then fst r = Throws cannot_read_map /\
         length (github_output (snd r)) = (if env_GITHUB_OUTPUT then 2 else 0)
    else exists out, fst r = Normal out /\
                     Output.patterns out = assignments S 0 patternDirs
  else fst r = Throws cannot_convert /\ github_output (snd r) = [].
Proof.
  intros r. subst r. unfold run.
  pose proof (routing_run S patternDirs fresh) as R.
  pose proof (groups_unusable S patternDirs) as G.
  destruct (forallb (fun dir => has_key (getPatternCategory S dir)) patternDirs).
  - destruct R as (aggregate & byCategory & R). cbn [patterns fresh app length] in R.
    destruct (G eq_refl) as [Ks Us]. clear G.
    rewrite (bind_run _ _ _ _ R).
    set (n1 := mkState aggregate byCategory (assignments S 0 patternDirs)
                 (github_output fresh)).
    destruct (output_cases env_GITHUB_OUTPUT n1) as [F W].
    rewrite F, W. rewrite comment_reads_patterns.
    cbn [fst patterns n1 github_output fresh app allReviewers].
    pose proof (category_sections_keyed
                  (group_patterns (assignments S 0 patternDirs)) Ks
                  Notifier.comment_header) as C.
    rewrite Us in C.
    destruct (assignments S 0 patternDirs) as [|p ps] eqn:A.
    + destruct patternDirs; [|discriminate A]. cbn.
      eexists. split; reflexivity.
    + destruct (existsb (fun dir => inherited (getPatternCategory S dir))
                  patternDirs).
      * rewrite C. split; [reflexivity|]. now destruct env_GITHUB_OUTPUT.
      * destruct C as [comment' ->]. eexists. split; reflexivity.
  - destruct R as (n' & R & O). rewrite (bind_run _ _ _ _ R).
    cbn [fst snd]. split; [reflexivity | exact O].
Qed.

(** *** Metadata whose category is a string *)

Lemma textual_category (P : Validator.Platform) (patternDir : string) :
  getPatternCategory (textual_sources P) patternDir =
  option_map Text (Notifier.getPatternCategory P patternDir).
Proof.
  unfold getPatternCategory, Notifier.getPatternCategory, textual_sources.
  cbn [files yaml_load].
  destruct (negb _); [reflexivity|].
  destruct (Validator.readFileSync P _) as [msg | content]; [reflexivity|].
  destruct (Validator.yaml_load P content) as [msg | [|d]]; try reflexivity.
  cbn [textual]. destruct (Validator.category d) as [c|]; [|reflexivity].
  cbn [option_map truthy]. now destruct (JS.truthy c).
Qed.

(** On such metadata routing never throws, and the assignments are those
    of [Notifier]. *)
Lemma textual_routing (P : Validator.Platform) (patternDirs : list string) :
  fst (processPatterns (textual_sources P) patternDirs fresh) = Normal tt /\
  map (fun p => (Pattern.directory p, key_of (Pattern.category p),
                 Pattern.reviewers p))
    (patterns (snd (processPatterns (textual_sources P) patternDirs fresh))) =
  map (fun p => (Notifier.Pattern.directory p,
                 Some (Notifier.Pattern.category p),
                 Notifier.Pattern.reviewers p))
    (Notifier.patterns (snd (Notifier.processPatterns P patternDirs
                               Notifier.fresh))).
Proof.
  pose proof (routing_run (textual_sources P) patternDirs fresh) as R.
  assert (K : forallb (fun dir => has_key (getPatternCategory
                                             (textual_sources P) dir))
                patternDirs = true).
  { apply forallb_forall. intros dir _. rewrite textual_category.
    now destruct (Notifier.getPatternCategory P dir). }
  rewrite K in R. destruct R as (aggregate & byCategory & ->).
  destruct (NotifierFacts.processPatterns_run P patternDirs Notifier.fresh)
    as (_ & -> & _).
  cbn [fst snd patterns fresh Notifier.patterns Notifier.fresh app length].
  split; [reflexivity|]. generalize 0.
  induction patternDirs as [|dir dirs IH]; intros loaded; [reflexivity|].
  cbn [assignments map]. rewrite IH by (cbn [forallb] in K;
    now apply andb_true_iff in K as [_ K]).
  f_equal. unfold assignment, Notifier.assignment, reviewers_for.
  cbn [Pattern.directory Pattern.category Pattern.reviewers
       Notifier.Pattern.directory Notifier.Pattern.category
       Notifier.Pattern.reviewers].
  rewrite textual_category.
  destruct (Notifier.getPatternCategory P dir) as [c|] eqn:C; [|reflexivity].
  apply NotifierFacts.getPatternCategory_truthy in C.
  cbn [option_map held key_of property_key].
  unfold Notifier.category_label, Notifier.getReviewersForCategory.
  rewrite C. cbn [negb].
  now destruct (Notifier.lookup_property Notifier.SME_MAPPING c).
Qed.

(** *** The claims *)

(** C2, as the notifier has it.  Routing pushes one assignment for each
    entry, in order, and returns, provided every category it reads can be
    used as a property key (as every string, number and boolean can); it
    throws at the first category that cannot, a mapping whose [toString]
    is no function.  When no category is read (the metadata file is missing,
    cannot be read or parsed, is empty, or has no truthy category) the
    assignment has the fallback reviewers and the label "unknown".  When a
    category is read, the label is that category itself: with the reviewers
    of the mapping when the mapping has an entry under its key, and with the
    fallback reviewers when it has none. *)
Theorem routing_always_assigns (S : Sources) (patternDirs : list string)
  (patternDir : string) (loaded : nat) :
  let category := getPatternCategory S patternDir in
  let assigned := assignment S loaded patternDir in
  let path :=
    Validator.path_join (files S) [patternDir; "pattern.yaml"]%string in
  let routed := processPatterns S patternDirs fresh in
  (forallb (fun dir => has_key (getPatternCategory S dir)) patternDirs = true ->
   fst routed = Normal tt /\
   patterns (snd routed) = assignments S 0 patternDirs /\
   map Pattern.directory (patterns (snd routed)) = patternDirs) /\
  (forallb (fun dir => has_key (getPatternCategory S dir)) patternDirs = false ->
   fst routed = Throws cannot_convert) /\
  (category = None <->
   Validator.existsSync (files S) path = false \/
   (exists msg, load_document S path = Validator.ParseError msg) \/
   load_document S path = Validator.ParseOk Empty \/
   load_document S path = Validator.ParseOk (Loaded None) \/
   (exists v, load_document S path = Validator.ParseOk (Loaded (Some v)) /\
              truthy v = false)) /\
  (category = None ->
   Pattern.category assigned = OfText "unknown" /\
   Pattern.reviewers assigned = Notifier.FALLBACK_REVIEWERS) /\
  (forall v key, category = Some v -> property_key v = Some key ->
   Pattern.category assigned = held loaded v /\
   key_of (Pattern.category assigned) = Some key /\
   Pattern.reviewers assigned =
     match Notifier.lookup_property Notifier.SME_MAPPING key with
     | Notifier.Own sme => Notifier.Sme.reviewers sme
     | _ => Notifier.FALLBACK_REVIEWERS
     end).
Proof.
  intros category assigned path routed. subst category assigned path routed.
  pose proof (routing_run S patternDirs fresh) as R.
  split; [|split; [|split; [|split]]].
  - intros H. rewrite H in R. destruct R as (aggregate & byCategory & ->).
    cbn [fst snd patterns fresh app length].
    split; [reflexivity|]. split; [reflexivity|].
    apply assignments_directories.
  - intros H. rewrite H in R. now destruct R as (n' & -> & _).
  - apply getPatternCategory_null.
  - unfold assignment, reviewers_for. intros ->. now split.
  - unfold assignment, reviewers_for. intros v key -> K.
    cbn [Pattern.category Pattern.reviewers]. rewrite held_key, K.
    split; [reflexivity|]. split; [reflexivity|].
    now destruct (Notifier.lookup_property Notifier.SME_MAPPING key).
Qed.

(** The theorem at three entries: of a category that has reviewers, of a
    category given as a sequence, and of a category given as a number. *)
Lemma routing_witness :
  fst (processPatterns RoutingSamples.sources
         ["queue-worker"; "listed"; "numbered"]%string fresh) = Normal tt /\
  map Pattern.reviewers
    (patterns (snd (processPatterns RoutingSamples.sources
                      ["queue-worker"; "listed"; "numbered"]%string fresh))) =
  [ ["automation-sme1"; "automation-sme2"];
    ["security-sme1"; "security-sme2"];
    Notifier.FALLBACK_REVIEWERS ]%string.
Proof.
  destruct (proj1 (routing_always_assigns RoutingSamples.sources
                     ["queue-worker"; "listed"; "numbered"]%string
                     EmptyString 0) eq_refl) as (R & P & _).
  split; [exact R|]. rewrite P. reflexivity.
Defined.

Lemma has_key_somewhere (S : Sources) (patternDirs : list string) :
  forallb (fun dir => has_key (getPatternCategory S dir)) patternDirs = false ->
  exists dir, In dir patternDirs /\ has_key (getPatternCategory S dir) = false.
Proof.
  induction patternDirs as [|dir dirs IH]; [discriminate|].
  cbn [forallb]. destruct (has_key (getPatternCategory S dir)) eqn:K.
  - intros H. destruct (IH H) as (d & Hin & Hk). exists d. split; [now right|].
    exact Hk.
  - intros _. exists dir. split; [now left | exact K].
Qed.

Lemma run_throws_exactly (S : Sources) (env_GITHUB_OUTPUT : bool)
  (patternDirs : list string) :
  (exists msg, fst (run S env_GITHUB_OUTPUT patternDirs fresh) = Throws msg) <->
  exists patternDir,
    In patternDir patternDirs /\
    (has_key (getPatternCategory S patternDir) = false \/
     inherited (getPatternCategory S patternDir) = true).
Proof.
  pose proof (run_cases S env_GITHUB_OUTPUT patternDirs) as C. cbv zeta in C.
  destruct (forallb (fun dir => has_key (getPatternCategory S dir)) patternDirs)
    eqn:K.
  - rewrite forallb_forall in K.
    destruct (existsb (fun dir => inherited (getPatternCategory S dir))
                patternDirs) eqn:I.
    + destruct C as [F W]. apply existsb_exists in I as (dir & Hin & Hi).
      split; [intros _; exists dir; auto | intros _; now exists cannot_read_map].
    + destruct C as (out & F & _).
      split; [intros [msg H]; congruence|].
      intros (dir & Hin & [H | H]).
      * rewrite (K dir Hin) in H. discriminate H.
      * assert (E : existsb (fun dir => inherited (getPatternCategory S dir))
                      patternDirs = true)
          by (apply existsb_exists; now exists dir).
        congruence.
  - destruct C as [F W].
    split; [|intros _; now exists cannot_convert].
    intros _. destruct (has_key_somewhere S patternDirs K) as (dir & Hin & Hk).
    exists dir. auto.
Qed.

(** X12.  A run of the notifier ends with an exception exactly when some
    entry has a category that cannot be used as a property key, or whose key
    names a property every object inherits, like [constructor] or
    [toString].  In the first case routing throws and nothing is written; in
    the second routing gives the entry the fallback reviewers, the report
    then reads the reviewers of a value that has none, and with
    [GITHUB_OUTPUT] set the reviewers and their count are written before the
    exception, and no comment is. *)
Theorem run_throws_on_unusable_category (S : Sources)
  (env_GITHUB_OUTPUT : bool) (patternDirs : list string) :
  let r := run S env_GITHUB_OUTPUT patternDirs fresh in
  ((exists msg, fst r = Throws msg) <->
   exists patternDir,
     In patternDir patternDirs /\
     (has_key (getPatternCategory S patternDir) = false \/
      inherited (getPatternCategory S patternDir) = true)) /\
  (forall msg, fst r = Throws msg ->
     (msg = cannot_convert /\ github_output (snd r) = [] /\
      exists patternDir, In patternDir patternDirs /\
                         has_key (getPatternCategory S patternDir) = false) \/
     (msg = cannot_read_map /\
      length (github_output (snd r)) = (if env_GITHUB_OUTPUT then 2 else 0) /\
      forall patternDir, In patternDir patternDirs ->
                         has_key (getPatternCategory S patternDir) = true)).
Proof.
  intros r. subst r. split; [apply run_throws_exactly|].
  pose proof (run_cases S env_GITHUB_OUTPUT patternDirs) as C. cbv zeta in C.
  destruct (forallb (fun dir => has_key (getPatternCategory S dir)) patternDirs)
    eqn:K.
  - rewrite forallb_forall in K.
    destruct (existsb (fun dir => inherited (getPatternCategory S dir))
                patternDirs).
    + destruct C as [F W]. intros msg H. right. rewrite F in H.
      injection H as <-. split; [reflexivity|]. split; [exact W | exact K].
    + destruct C as (out & F & _). intros msg H. congruence.
  - destruct C as [F W]. intros msg H. left. rewrite F in H. injection H as <-.
    split; [reflexivity|]. split; [exact W|].
    now apply has_key_somewhere.
Qed.

(** The theorem at a run over an entry of category [constructor]. *)
Lemma run_throws_witness :
  exists msg,
    fst (run RoutingSamples.sources true
           ["queue-worker"; "odd-category"]%string fresh) = Throws msg.
Proof.
  apply (proj1 (run_throws_on_unusable_category RoutingSamples.sources true
                  ["queue-worker"; "odd-category"]%string)).
  exists "odd-category"%string. split; [right; now left|]. right. reflexivity.
Defined.

(** X17.  The notifier ends with status 1 in two cases only: it was given
    no argument, or some entry it routed has a category that cannot be used
    as a property key or whose key names a property every object inherits.
    Entries whose metadata is missing, unreadable or without category never
    make it fail. *)
Theorem notifier_exit_code (S : Sources) (env_GITHUB_OUTPUT : bool)
  (args : list string) :
  (main S env_GITHUB_OUTPUT args = 0 \/ main S env_GITHUB_OUTPUT args = 1) /\
  (main S env_GITHUB_OUTPUT args = 1 <->
   args = [] \/
   exists patternDir,
     In patternDir (NotifierCli.patternDirs_of args) /\
     (has_key (getPatternCategory S patternDir) = false \/
      inherited (getPatternCategory S patternDir) = true)) /\
  (args <> [] ->
   (forall patternDir, In patternDir (NotifierCli.patternDirs_of args) ->
                       getPatternCategory S patternDir = None) ->
   main S env_GITHUB_OUTPUT args = 0).
Proof.
  assert (M : main S env_GITHUB_OUTPUT args = 0 \/
              main S env_GITHUB_OUTPUT args = 1).
  { unfold main. destruct args; [now right|].
    destruct (fst (run S env_GITHUB_OUTPUT _ fresh)); auto. }
  assert (R : main S env_GITHUB_OUTPUT args = 1 <->
              args = [] \/
              exists patternDir,
                In patternDir (NotifierCli.patternDirs_of args) /\
                (has_key (getPatternCategory S patternDir) = false \/
                 inherited (getPatternCategory S patternDir) = true)).
  { destruct args as [|arg args]; [split; auto|].
    pose proof (run_throws_exactly S env_GITHUB_OUTPUT
                  (NotifierCli.patternDirs_of (arg :: args))) as T.
    unfold main.
    destruct (fst (run S env_GITHUB_OUTPUT
                     (NotifierCli.patternDirs_of (arg :: args)) fresh))
      as [out | msg].
    - split; [discriminate|]. intros [H | H]; [discriminate H|].
      apply T in H as [msg H]. discriminate H.
    - split; [|reflexivity]. intros _. right. apply T. now exists msg. }
  split; [exact M|]. split; [exact R|].
  intros Hne Hnone. destruct M as [M | M]; [exact M|].
  apply R in M as [-> | (d & Hin & [H | H])]; [congruence| |];
    rewrite (Hnone d Hin) in H; discriminate H.
Qed.

End ReviewerNotifierFacts.
